(** * Choreographed funds-transfer saga: the five Azure Functions handlers

    A shallow embedding of the TypeScript handlers
      - ClientFunction     (httpTrigger, the transfer initiator),
      - DepositFunds       (eventHubTrigger, deposit step processor),
      - WithdrawFunds      (eventHubTrigger, withdraw step processor),
      - CompensateDeposit  (eventHubTrigger, deposit compensator),
      - CompensateWithdraw (eventHubTrigger, withdraw compensator),
    as state-passing programs over a trace of observable effects
    (log lines, sendBatch calls, close of the producer, the HTTP response).

    What the platform supplies (JSON.parse, Math.random, the outcome of
    sendBatch / close / the producer constructor) is an input of every run:
    the record [Env]. *)

From Stdlib Require Import String Ascii List Bool ZArith Lia PrimFloat DecimalString.
From Stdlib Require FloatOps SpecFloat FloatAxioms DecimalFacts DecimalPos.
Import ListNotations.
Local Open Scope string_scope.
Local Open Scope list_scope.

Set Warnings "-register-all".

(* ===================================================================== *)
(** ** JavaScript values *)
(* ===================================================================== *)

(** The values a handler can meet in a message, a request body or a parsed
    JSON document: JSON data and undefined.  Numbers are IEEE-754 binary64,
    as in JavaScript.  Strings are byte strings (the UTF-8 form of the
    text).  An object is its list of own properties in property order, keys
    unique; no value is callable. *)
Inductive JsVal : Type :=
| JUndefined
| JNull
| JBool (b : bool)
| JNumber (n : float)
| JString (s : string)
| JObject (props : list (string * JsVal))
| JArray (elems : list JsVal).

(** [ToBoolean]: the falsy values are undefined, null, false, +0, -0, NaN
    and the empty string. *)
Definition ToBoolean (v : JsVal) : bool :=
  match v with
  | JUndefined | JNull => false
  | JBool b => b
  | JNumber n => negb (PrimFloat.is_zero n || PrimFloat.is_nan n)
  | JString s => negb (String.eqb s "")
  | JObject _ | JArray _ => true
  end.

(** [!v] *)
Definition js_not (v : JsVal) : bool := negb (ToBoolean v).

Fixpoint lookup (k : string) (props : list (string * JsVal)) : option JsVal :=
  match props with
  | [] => None
  | (k', v) :: rest => if String.eqb k k' then Some v else lookup k rest
  end.

(** Property read [v.k] for a non-nullish [v] and one of the keys the
    handlers destructure ([type], [fromAccount], [toAccount], [amount]):
    an own property of an object, and undefined on primitives and arrays,
    whose prototypes define none of these keys. *)
Definition Get (v : JsVal) (k : string) : JsVal :=
  match v with
  | JObject props => match lookup k props with Some x => x | None => JUndefined end
  | _ => JUndefined
  end.

(** [v === "s"] for a string literal [s]. *)
Definition strict_eq_string (v : JsVal) (s : string) : bool :=
  match v with
  | JString t => String.eqb t s
  | _ => false
  end.

(** The error objects the language itself throws.  The message of such an
    error is the engine's own wording; the model fixes one. *)
Definition TypeError (msg : string) : JsVal :=
  JObject [("name", JString "TypeError"); ("message", JString msg)].
Definition SyntaxError (msg : string) : JsVal :=
  JObject [("name", JString "SyntaxError"); ("message", JString msg)].

(* ===================================================================== *)
(** ** The platform's JSON functions: a reference model *)
(* ===================================================================== *)

(** [JSON.parse], [JSON.stringify] and the string conversions they rest on,
    after the language specification.  The handlers take [JSON.parse] from
    their environment; this model is the instance used to run them on
    concrete wire messages.  The text of a SyntaxError is engine-specific and
    is not modelled. *)
Module Json.

Local Open Scope Z_scope.

(** The binary64 value nearest (ties to even) to [(-1)^neg * m * 10^e],
    for [0 <= m]. *)
Definition of_decimal (neg : bool) (m e : Z) : float :=
  if m =? 0 then (if neg then neg_zero else zero)
  else
    (* 2^(3e) <= 10^e for 0 <= e, and 10^e <= 2^(3e) for e <= 0 *)
    if (0 <=? e) && (1030 <? Z.log2 m + 3 * e)
    then (if neg then neg_infinity else infinity)
    else if (e <? 0) && (Z.log2 m + 1 + 3 * e <? -1080)
    then (if neg then neg_zero else zero)
    else
      let '(p, q) := if 0 <=? e then (m * 10 ^ e, 1) else (m, 10 ^ (- e)) in
      let s := 1100 + Z.log2 q in
      let '(quot, rem) := Z.div_eucl (Z.shiftl p s) q in
      let sticky := if rem =? 0 then 0 else 1 in
      let m' := 2 * quot + sticky in
      FloatOps.SF2Prim
        (SpecFloat.binary_normalize FloatOps.prec FloatOps.emax
           (if neg then - m' else m') (- s - 1) neg).


(** Decimal digits of a natural number. *)
Definition digits_of (n : Z) : string :=
  NilZero.string_of_uint (N.to_uint (Z.to_N n)).

Fixpoint zeros (n : nat) : string :=
  match n with O => "" | S n' => String "0" (zeros n') end.

(** Smallest [j >= 1] with [q <= p * 10^j] (for [0 < p < q]), by search. *)
Fixpoint first_scale (fuel : nat) (p q j : Z) : Z :=
  match fuel with
  | O => j
  | S fuel' => if q <=? p * 10 ^ j then j else first_scale fuel' p q (j + 1)
  end.

(** The [n] with [10^(n-1) <= p/q < 10^n]. *)
Definition decimal_exponent (p q : Z) : Z :=
  if q <=? p then Z.of_nat (String.length (digits_of (p / q)))
  else 1 - first_scale 400 p q 1.

(** For a positive finite [v = p/q]: search the digit counts [k = 1, 2, ...]
    for an integer [s] with [10^(k-1) <= s <= 10^k] whose value
    [s * 10^(n-k)] converts back to [v]; of two such [s] the one nearer to
    [v].  Returns [(s, n - k)]. *)
Fixpoint shortest (fuel : nat) (v : float) (p q n k : Z) : Z * Z :=
  let scale := n - k in
  let '(num, den) := if 0 <=? scale then (p, q * 10 ^ scale)
                     else (p * 10 ^ (- scale), q) in
  let '(lo, rem) := Z.div_eucl num den in
  let hi := lo + 1 in
  let ok c := PrimFloat.eqb (of_decimal false c scale) v in
  match fuel with
  | O => (lo, scale)
  | S fuel' =>
      match ok lo, ok hi with
      | true, true => if 2 * rem <=? den then (lo, scale) else (hi, scale)
      | true, false => (lo, scale)
      | false, true => (hi, scale)
      | false, false => shortest fuel' v p q n (k + 1)
      end
  end.

(** Strip trailing zeros of [s], raising the exponent. *)
Fixpoint normalise (fuel : nat) (s e : Z) : Z * Z :=
  match fuel with
  | O => (s, e)
  | S fuel' => if (s mod 10 =? 0) && negb (s =? 0)
               then normalise fuel' (s / 10) (e + 1) else (s, e)
  end.

(** The digits [ds] ([k] of them) of a number with decimal exponent [n],
    laid out as Number::toString does. *)
Definition format_decimal (ds : string) (k n : Z) : string :=
  if (k <=? n) && (n <=? 21) then
    String.append ds (zeros (Z.to_nat (n - k)))
  else if (0 <? n) && (n <=? 21) then
    String.concat "" [substring 0 (Z.to_nat n) ds; ".";
                      substring (Z.to_nat n) (Z.to_nat (k - n)) ds]
  else if (-6 <? n) && (n <=? 0) then
    String.concat "" ["0."; zeros (Z.to_nat (- n)); ds]
  else
    let ex := n - 1 in
    let exs := String.append (if ex <? 0 then "-" else "+") (digits_of (Z.abs ex)) in
    if k =? 1 then String.concat "" [ds; "e"; exs]
    else String.concat "" [substring 0 1 ds; "."; substring 1 (Z.to_nat (k - 1)) ds;
                           "e"; exs].

(** Number::toString(x) of the language specification, radix 10. *)
Definition Number_toString (x : float) : string :=
  match FloatOps.Prim2SF x with
  | SpecFloat.S754_nan => "NaN"
  | SpecFloat.S754_zero _ => "0"
  | SpecFloat.S754_infinity sg => if sg then "-Infinity" else "Infinity"
  | SpecFloat.S754_finite sg m e =>
      let v := PrimFloat.abs x in
      let '(p, q) := if 0 <=? e then (Z.shiftl (Zpos m) e, 1)
                     else (Zpos m, Z.shiftl 1 (- e)) in
      let n0 := decimal_exponent p q in
      let '(s0, e0) := shortest 17 v p q n0 1 in
      let '(s, sc) := normalise 400 s0 e0 in
      let ds := digits_of s in
      let k := Z.of_nat (String.length ds) in
      let n := sc + k in
      String.append (if sg then "-" else "") (format_decimal ds k n)
  end.


(** *** Strings *)

Definition code (c : ascii) : Z := Z.of_N (N_of_ascii c).
Definition char_of (z : Z) : ascii := ascii_of_N (Z.to_N z).

Definition is_ws (c : ascii) : bool :=
  let n := code c in (n =? 32) || (n =? 9) || (n =? 10) || (n =? 13).

Definition is_digit (c : ascii) : bool :=
  let n := code c in (48 <=? n) && (n <=? 57).

Fixpoint skip_ws (s : string) : string :=
  match s with
  | String c r => if is_ws c then skip_ws r else s
  | EmptyString => s
  end.

Definition hex_value (c : ascii) : option Z :=
  let n := code c in
  if (48 <=? n) && (n <=? 57) then Some (n - 48)
  else if (65 <=? n) && (n <=? 70) then Some (n - 55)
  else if (97 <=? n) && (n <=? 102) then Some (n - 87)
  else None.

Definition hex4 (a b c d : ascii) : option Z :=
  match hex_value a, hex_value b, hex_value c, hex_value d with
  | Some x, Some y, Some z, Some w => Some (((x * 16 + y) * 16 + z) * 16 + w)
  | _, _, _, _ => None
  end.

(** The character after a backslash, for the one-letter escapes. *)
Definition simple_escape (c : ascii) : option ascii :=
  let n := code c in
  if n =? 34 then Some (char_of 34)          (* quotation mark *)
  else if n =? 92 then Some (char_of 92)     (* backslash *)
  else if n =? 47 then Some (char_of 47)     (* slash *)
  else if n =? 98 then Some (char_of 8)      (* backspace *)
  else if n =? 102 then Some (char_of 12)    (* form feed *)
  else if n =? 110 then Some (char_of 10)    (* line feed *)
  else if n =? 114 then Some (char_of 13)    (* carriage return *)
  else if n =? 116 then Some (char_of 9)     (* tab *)
  else None.

(** A piece of a string literal: a byte copied from the text, or the
    UTF-16 code unit of a [\uXXXX] escape. *)
Inductive Item : Type := Byte (c : ascii) | Unit16 (u : Z).

(** The pieces of the string literal whose opening quote has been read,
    and the text after its closing quote. *)
Fixpoint string_items (s : string) : option (list Item * string) :=
  match s with
  | EmptyString => None
  | String c r =>
      if code c =? 34 then Some ([], r)
      else if code c <? 32 then None
      else if code c =? 92 then
        match r with
        | EmptyString => None
        | String e r' =>
            match simple_escape e with
            | Some b =>
                match string_items r' with
                | Some (items, rest) => Some (Byte b :: items, rest)
                | None => None
                end
            | None =>
                if code e =? 117 then
                  match r' with
                  | String h1 (String h2 (String h3 (String h4 r''))) =>
                      match hex4 h1 h2 h3 h4, string_items r'' with
                      | Some u, Some (items, rest) => Some (Unit16 u :: items, rest)
                      | _, _ => None
                      end
                  | _ => None
                  end
                else None
            end
        end
      else
        match string_items r with
        | Some (items, rest) => Some (Byte c :: items, rest)
        | None => None
        end
  end.

(** UTF-8 bytes of a code point. *)
Definition utf8 (cp : Z) : string :=
  if cp <? 128 then String (char_of cp) ""
  else if cp <? 2048 then
    String (char_of (192 + cp / 64)) (String (char_of (128 + cp mod 64)) "")
  else if cp <? 65536 then
    String (char_of (224 + cp / 4096))
      (String (char_of (128 + (cp / 64) mod 64))
         (String (char_of (128 + cp mod 64)) ""))
  else
    String (char_of (240 + cp / 262144))
      (String (char_of (128 + (cp / 4096) mod 64))
         (String (char_of (128 + (cp / 64) mod 64))
            (String (char_of (128 + cp mod 64)) ""))).

Definition is_high (u : Z) : bool := (55296 <=? u) && (u <=? 56319).
Definition is_low (u : Z) : bool := (56320 <=? u) && (u <=? 57343).

(** The byte string of a list of pieces; a surrogate pair of escapes is one
    code point. *)
Fixpoint encode_items (l : list Item) : string :=
  match l with
  | [] => ""
  | Byte c :: rest => String c (encode_items rest)
  | Unit16 hi :: rest =>
      match rest with
      | Unit16 lo :: rest' =>
          if is_high hi && is_low lo then
            String.append (utf8 (65536 + (hi - 55296) * 1024 + (lo - 56320)))
                          (encode_items rest')
          else String.append (utf8 hi) (encode_items rest)
      | _ => String.append (utf8 hi) (encode_items rest)
      end
  end.

Definition parse_string (s : string) : option (string * string) :=
  match string_items s with
  | Some (items, rest) => Some (encode_items items, rest)
  | None => None
  end.

(** *** Numbers *)

Fixpoint take_digits (s : string) : string * string :=
  match s with
  | String c r =>
      if is_digit c then let '(d, rest) := take_digits r in (String c d, rest)
      else ("", s)
  | EmptyString => ("", s)
  end.

Fixpoint digits_value (acc : Z) (s : string) : Z :=
  match s with
  | String c r => digits_value (acc * 10 + (code c - 48)) r
  | EmptyString => acc
  end.

(** A number literal: an optional minus sign; the integer part, a single
    zero or digits not starting with zero; an optional fraction, a point
    and at least one digit; an optional exponent, e or E, an optional sign
    and at least one digit. *)
Definition parse_number (s : string) : option (float * string) :=
  let '(neg, s1) := match s with
                    | String c r => if code c =? 45 then (true, r) else (false, s)
                    | EmptyString => (false, s)
                    end in
  let '(int, s2) := take_digits s1 in
  let int_ok := match int with
                | EmptyString => false
                | String c EmptyString => true
                | String c _ => negb (code c =? 48)
                end in
  if negb int_ok then None
  else
    let frac_part :=
      match s2 with
      | String c r =>
          if code c =? 46 then
            let '(fr, rest) := take_digits r in
            match fr with EmptyString => None | _ => Some (fr, rest) end
          else Some (EmptyString, s2)
      | EmptyString => Some (EmptyString, s2)
      end in
    match frac_part with
    | None => None
    | Some (fr, s3) =>
        let exp_part :=
          match s3 with
          | String c r =>
              if (code c =? 101) || (code c =? 69) then
                let '(eneg, r1) :=
                  match r with
                  | String sg r' =>
                      if code sg =? 45 then (true, r')
                      else if code sg =? 43 then (false, r') else (false, r)
                  | EmptyString => (false, r)
                  end in
                let '(ex, rest) := take_digits r1 in
                match ex with
                | EmptyString => None
                | _ => Some ((if eneg then - digits_value 0 ex else digits_value 0 ex), rest)
                end
              else Some (0, s3)
          | EmptyString => Some (0, s3)
          end in
        match exp_part with
        | None => None
        | Some (ex, s4) =>
            let m := digits_value 0 (String.append int fr) in
            Some (of_decimal neg m (ex - Z.of_nat (String.length fr)), s4)
        end
    end.


(** *** Values *)

(** A canonical array index: decimal digits without a leading zero, below
    [2^32 - 1].  Such keys come first, in ascending order, among the own
    properties of an object. *)
Definition array_index (k : string) : option Z :=
  let '(d, rest) := take_digits k in
  match d, rest with
  | EmptyString, _ => None
  | String c d', EmptyString =>
      if (code c =? 48) && negb (String.eqb d' "") then None
      else let n := digits_value 0 d in
           if n <? 4294967295 then Some n else None
  | _, _ => None
  end.

Fixpoint replace_prop (k : string) (v : JsVal) (props : list (string * JsVal))
  : option (list (string * JsVal)) :=
  match props with
  | [] => None
  | (k', v') :: rest =>
      if String.eqb k k' then Some ((k, v) :: rest)
      else match replace_prop k v rest with
           | Some rest' => Some ((k', v') :: rest')
           | None => None
           end
  end.

Fixpoint insert_index (i : Z) (k : string) (v : JsVal) (props : list (string * JsVal))
  : list (string * JsVal) :=
  match props with
  | [] => [(k, v)]
  | (k', v') :: rest =>
      match array_index k' with
      | Some j => if j <? i then (k', v') :: insert_index i k v rest
                  else (k, v) :: props
      | None => (k, v) :: props
      end
  end.

(** CreateDataProperty on an ordinary object: a later duplicate of a key
    replaces the value and keeps the place. *)
Definition set_prop (k : string) (v : JsVal) (props : list (string * JsVal))
  : list (string * JsVal) :=
  match replace_prop k v props with
  | Some props' => props'
  | None =>
      match array_index k with
      | Some i => insert_index i k v props
      | None => props ++ [(k, v)]
      end
  end.

(** The JSON grammar by recursive descent.  Every call reads at least one
    character between two uses of the fuel, so twice the length of the
    text is enough. *)
Fixpoint parse_value (fuel : nat) (s : string) : option (JsVal * string) :=
  match fuel with
  | O => None
  | S fuel' =>
      match skip_ws s with
      | EmptyString => None
      | String c r as s' =>
          if code c =? 123 then                                (* object *)
            match skip_ws r with
            | String c' r' =>
                if code c' =? 125 then Some (JObject [], r')
                else parse_members fuel' [] (skip_ws r)
            | EmptyString => None
            end
          else if code c =? 91 then                            (* array *)
            match skip_ws r with
            | String c' r' =>
                if code c' =? 93 then Some (JArray [], r')
                else parse_elements fuel' [] r
            | EmptyString => None
            end
          else if code c =? 34 then
            match parse_string r with
            | Some (str, rest) => Some (JString str, rest)
            | None => None
            end
          else if (code c =? 45) || is_digit c then
            match parse_number s' with
            | Some (n, rest) => Some (JNumber n, rest)
            | None => None
            end
          else
            match s' with
            | String "t" (String "r" (String "u" (String "e" rest))) =>
                Some (JBool true, rest)
            | String "f" (String "a" (String "l" (String "s" (String "e" rest)))) =>
                Some (JBool false, rest)
            | String "n" (String "u" (String "l" (String "l" rest))) =>
                Some (JNull, rest)
            | _ => None
            end
      end
  end

(** Elements of an array after the opening bracket or a comma; [acc] holds
    the elements read so far, newest first. *)
with parse_elements (fuel : nat) (acc : list JsVal) (s : string)
  : option (JsVal * string) :=
  match fuel with
  | O => None
  | S fuel' =>
      match parse_value fuel' s with
      | None => None
      | Some (v, rest) =>
          match skip_ws rest with
          | String c r =>
              if code c =? 44 then parse_elements fuel' (v :: acc) r
              else if code c =? 93 then Some (JArray (rev (v :: acc)), r)
              else None
          | EmptyString => None
          end
      end
  end

(** Members of an object, the text starting at a key; [acc] holds the
    properties created so far. *)
with parse_members (fuel : nat) (acc : list (string * JsVal)) (s : string)
  : option (JsVal * string) :=
  match fuel with
  | O => None
  | S fuel' =>
      match s with
      | String q r =>
          if code q =? 34 then
            match parse_string r with
            | None => None
            | Some (k, rest) =>
                match skip_ws rest with
                | String c r1 =>
                    if code c =? 58 then
                      match parse_value fuel' r1 with
                      | None => None
                      | Some (v, rest') =>
                          let acc' := set_prop k v acc in
                          match skip_ws rest' with
                          | String c' r2 =>
                              if code c' =? 44 then parse_members fuel' acc' (skip_ws r2)
                              else if code c' =? 125 then Some (JObject acc', r2)
                              else None
                          | EmptyString => None
                          end
                      end
                    else None
                | EmptyString => None
                end
            end
          else None
      | EmptyString => None
      end
  end.

(** [JSON.parse] on a string. *)
Definition parse_text (s : string) : JsVal + JsVal :=
  match parse_value (2 * String.length s + 2) s with
  | Some (v, rest) =>
      match skip_ws rest with
      | EmptyString => inl v
      | _ => inr (SyntaxError "JSON.parse")
      end
  | None => inr (SyntaxError "JSON.parse")
  end.

(** [ToString] on the values of [JsVal]; [None] is a TypeError.  An object
    converts through [Object.prototype.toString] unless an own property
    named toString shadows it: a value of [JsVal] is never callable, and the
    inherited [valueOf] returns the object itself, so the conversion then
    throws.  An array joins its elements with commas, undefined and null
    elements giving the empty string. *)
Fixpoint ToString (v : JsVal) : option string :=
  match v with
  | JUndefined => Some "undefined"
  | JNull => Some "null"
  | JBool true => Some "true"
  | JBool false => Some "false"
  | JNumber n => Some (Number_toString n)
  | JString s => Some s
  | JObject props =>
      match lookup "toString" props with
      | None => Some "[object Object]"
      | Some _ => None
      end
  | JArray elems =>
      let element x := match x with
                       | JUndefined | JNull => Some ""
                       | _ => ToString x
                       end in
      (fix join (l : list JsVal) : option string :=
         match l with
         | [] => Some ""
         | [x] => element x
         | x :: rest =>
             match element x, join rest with
             | Some a, Some b => Some (String.append a (String.append "," b))
             | _, _ => None
             end
         end) elems
  end.

(** The pieces of a template literal, literal text and interpolated values,
    each value converted by [ToString], left to right. *)
Fixpoint pieces (parts : list (string + JsVal)) : option (list string) :=
  match parts with
  | [] => Some []
  | inl text :: rest =>
      match pieces rest with
      | Some l => Some (text :: l)
      | None => None
      end
  | inr v :: rest =>
      match ToString v, pieces rest with
      | Some x, Some l => Some (x :: l)
      | _, _ => None
      end
  end.

(** The text of a template literal. *)
Definition render (parts : list (string + JsVal)) : option string :=
  match pieces parts with
  | Some l => Some (String.concat "" l)
  | None => None
  end.

(** [JSON.parse(v)]: the argument is first converted to a string. *)
Definition parse (v : JsVal) : JsVal + JsVal :=
  match ToString v with
  | Some text => parse_text text
  | None => inr (TypeError "Cannot convert object to primitive value")
  end.

Definition hex_digit (n : Z) : ascii :=
  if n <? 10 then char_of (48 + n) else char_of (87 + n).

(** QuoteJSONString. *)
Fixpoint quote_body (s : string) : string :=
  match s with
  | EmptyString => String (char_of 34) ""
  | String c r =>
      let n := code c in
      let esc (e : Z) := String (char_of 92) (String (char_of e) (quote_body r)) in
      if n =? 34 then esc 34
      else if n =? 92 then esc 92
      else if n =? 8 then esc 98
      else if n =? 12 then esc 102
      else if n =? 10 then esc 110
      else if n =? 13 then esc 114
      else if n =? 9 then esc 116
      else if n <? 32 then
        String (char_of 92) (String "u" (String "0" (String "0"
          (String (hex_digit (n / 16)) (String (hex_digit (n mod 16)) (quote_body r))))))
      else String c (quote_body r)
  end.

Definition quote (s : string) : string := String (char_of 34) (quote_body s).

Definition is_finite (n : float) : bool :=
  negb (PrimFloat.is_nan n || PrimFloat.is_infinity n).

(** [JSON.stringify(v)], without replacer or indentation; [None] is the
    result undefined. *)
Fixpoint stringify (v : JsVal) : option string :=
  match v with
  | JUndefined => None
  | JNull => Some "null"
  | JBool true => Some "true"
  | JBool false => Some "false"
  | JNumber n => Some (if is_finite n then Number_toString n else "null")
  | JString s => Some (quote s)
  | JArray elems =>
      let element x := match stringify x with Some t => t | None => "null" end in
      Some (String.append "["
        (String.append
          ((fix join (l : list JsVal) : string :=
              match l with
              | [] => ""
              | [x] => element x
              | x :: rest => String.append (element x) (String.append "," (join rest))
              end) elems)
          "]"))
  | JObject props =>
      Some (String.append "{"
        (String.append
          (String.concat ","
            ((fix members (l : list (string * JsVal)) : list string :=
                match l with
                | [] => []
                | (k, x) :: rest =>
                    match stringify x with
                    | Some t => String.append (quote k) (String.append ":" t) :: members rest
                    | None => members rest
                    end
                end) props))
          "}"))
  end.

End Json.

(* ===================================================================== *)
(** ** Effects, environment and the handler monad *)
(* ===================================================================== *)

Inductive Level : Type := Info | Error.

(** Event Hubs [EventData]: only [body] is ever set. *)
Record EventData : Type := { body : JsVal }.

(** HTTP response object assigned to [context.res]. *)
Record Response : Type := { status : Z; res_body : string }.

(** One observable action of a handler.  A log line is its first argument,
    a string, and the values passed after it.  [SendBatch evs err] is one call of
    [producerClient.sendBatch(evs)]; [err] is [None] when the call resolves
    and [Some e] when it rejects with [e]. *)
Inductive Effect : Type :=
| Log (lvl : Level) (text : string) (args : list JsVal)
| SendBatch (events : list EventData) (err : option JsVal)
| Close (err : option JsVal).

(** What the platform decides during one invocation. *)
Record Env : Type := {
  JSON_parse : JsVal -> JsVal + JsVal;      (* inl v: returns v; inr e: throws e *)
  Math_random : nat -> float;               (* the k-th draw, k = 0, 1, ... *)
  sendBatch_error : nat -> option JsVal;    (* the k-th sendBatch call rejects? *)
  close_error : option JsVal;               (* producerClient.close() rejects? *)
  new_error : option JsVal                  (* new EventHubProducerClient throws? *)
}.

Record State : Type := {
  trace : list Effect;          (* effects so far, oldest first *)
  random_calls : nat;           (* Math.random calls so far *)
  send_calls : nat;             (* sendBatch calls so far *)
  res : option Response         (* context.res *)
}.

Definition initial : State :=
  {| trace := []; random_calls := 0; send_calls := 0; res := None |}.

Inductive Completion (A : Type) : Type :=
| Normal (a : A)
| Throw (e : JsVal).
Arguments Normal {A} a.
Arguments Throw {A} e.

Definition M (A : Type) : Type := Env -> State -> Completion A * State.

Definition ret {A} (a : A) : M A := fun _ st => (Normal a, st).

Definition bind {A B} (m : M A) (k : A -> M B) : M B :=
  fun env st =>
    match m env st with
    | (Normal a, st') => k a env st'
    | (Throw e, st') => (Throw e, st')
    end.

Definition throw {A} (e : JsVal) : M A := fun _ st => (Throw e, st).

(** [try { m } catch (e) { h e }] *)
Definition try_catch {A} (m : M A) (h : JsVal -> M A) : M A :=
  fun env st =>
    match m env st with
    | (Normal a, st') => (Normal a, st')
    | (Throw e, st') => h e env st'
    end.

(** [try { m } finally { f }]: [f] runs on every completion of [m]; when [f]
    throws, its exception replaces the completion of [m]. *)
Definition try_finally {A} (m : M A) (f : M unit) : M A :=
  fun env st =>
    match m env st with
    | (c, st') =>
        match f env st' with
        | (Normal _, st'') => (c, st'')
        | (Throw e, st'') => (Throw e, st'')
        end
    end.

Declare Scope js_scope.
Delimit Scope js_scope with js.
Notation "x <- m ;; k" := (bind m (fun x => k))
  (at level 61, m at next level, right associativity) : js_scope.
Notation "m ;; k" := (bind m (fun _ => k))
  (at level 61, right associativity) : js_scope.
Notation "' pat <- m ;; k" := (bind m (fun x => match x with pat => k end))
  (at level 61, pat pattern, m at next level, right associativity) : js_scope.
Local Open Scope js_scope.

Definition emit (e : Effect) : M unit :=
  fun _ st =>
    (Normal tt,
     {| trace := trace st ++ [e]; random_calls := random_calls st;
        send_calls := send_calls st; res := res st |}).

(** [context.log(text, ...args)] and [context.log.error(text, ...args)] *)
Definition context_log (text : string) (args : list JsVal) : M unit :=
  emit (Log Info text args).
Definition context_log_error (text : string) (args : list JsVal) : M unit :=
  emit (Log Error text args).

(** [context.res = r] *)
Definition set_res (r : Response) : M unit :=
  fun _ st =>
    (Normal tt,
     {| trace := trace st; random_calls := random_calls st;
        send_calls := send_calls st; res := Some r |}).

(** [JSON.parse(v)] *)
Definition JSON_parse_call (v : JsVal) : M JsVal :=
  fun env st =>
    match JSON_parse env v with
    | inl r => (Normal r, st)
    | inr e => (Throw e, st)
    end.

(** [Math.random()] *)
Definition Math_random_call : M float :=
  fun env st =>
    (Normal (Math_random env (random_calls st)),
     {| trace := trace st; random_calls := S (random_calls st);
        send_calls := send_calls st; res := res st |}).

(** [await producerClient.sendBatch(evs)] *)
Definition sendBatch (evs : list EventData) : M unit :=
  fun env st =>
    let err := sendBatch_error env (send_calls st) in
    let st' := {| trace := trace st ++ [SendBatch evs err];
                  random_calls := random_calls st;
                  send_calls := S (send_calls st); res := res st |} in
    match err with
    | None => (Normal tt, st')
    | Some e => (Throw e, st')
    end.

(** [await producerClient.close()] *)
Definition close : M unit :=
  fun env st =>
    let err := close_error env in
    let st' := {| trace := trace st ++ [Close err];
                  random_calls := random_calls st;
                  send_calls := send_calls st; res := res st |} in
    match err with
    | None => (Normal tt, st')
    | Some e => (Throw e, st')
    end.

(** [new EventHubProducerClient(connectionString, eventHubname)] *)
Definition new_EventHubProducerClient : M unit :=
  fun env st =>
    match new_error env with
    | None => (Normal tt, st)
    | Some e => (Throw e, st)
    end.

(** The literal [0.2]: the binary64 value nearest to one fifth. *)
Definition threshold : float := 0x1.999999999999ap-3%float.

(** The binding pattern [const { a, b, c } = v]: a TypeError when [v] is
    undefined or null, otherwise the three property reads. *)
Definition destructure3 (v : JsVal) (a b c : string) : M (JsVal * JsVal * JsVal) :=
  match v with
  | JUndefined => throw (TypeError "Cannot destructure 'undefined' as it is undefined.")
  | JNull => throw (TypeError "Cannot destructure 'null' as it is null.")
  | _ => ret (Get v a, Get v b, Get v c)
  end.

(** A template literal: its text, or the TypeError of a conversion. *)
Definition template (parts : list (string + JsVal)) : M string :=
  match Json.render parts with
  | Some text => ret text
  | None => throw (TypeError "Cannot convert object to primitive value")
  end.

(** How one iteration of a [for ... of] body ends: by falling through or
    [continue] (the loop goes on), or by [return] (the function returns). *)
Inductive Ctl : Type := Continue | Return.

(** [for (const message of l) { body message }] *)
Fixpoint for_of (body : JsVal -> M Ctl) (l : list JsVal) : M Ctl :=
  match l with
  | [] => ret Continue
  | message :: rest =>
      c <- body message ;;
      match c with
      | Continue => for_of body rest
      | Return => ret Return
      end
  end.

(** The decode step shared by the four consumers:
[[
    if (!message) { context.log.error(tag + ": Invalid or undefined message body:", message); continue; }
    let parsedMessage;
    try { parsedMessage = JSON.parse(message); }
    catch (err) { context.log.error(tag + ": Error parsing message:", err); continue; }
]]
    [None] stands for the two [continue]s. *)
Definition decode (tag : string) (message : JsVal) : M (option JsVal) :=
  if js_not message then
    context_log_error (tag ++ ": Invalid or undefined message body:") [message] ;;
    ret None
  else
    try_catch
      (parsedMessage <- JSON_parse_call message ;; ret (Some parsedMessage))
      (fun err =>
         context_log_error (tag ++ ": Error parsing message:") [err] ;;
         ret None).

(* ===================================================================== *)
(** ** DepositFunds/index.ts *)
(* ===================================================================== *)

Module DepositFunds.

(** Body of the [for] loop, lines 18-66. *)
Definition loop_body (message : JsVal) : M Ctl :=
  d <- decode "DepositFunds" message ;;
  match d with
  | None => ret Continue
  | Some parsedMessage =>
      '(toAccount, amount, type) <-
         destructure3 parsedMessage "toAccount" "amount" "type" ;;
      if negb (strict_eq_string type "StartTransfer") then ret Continue
      else if js_not toAccount || js_not amount then
        context_log_error "DepositFunds: Missing required properties in message:"
                          [parsedMessage] ;;
        ret Continue
      else
        text <- template [inl "DepositFunds: Initiating deposit of "; inr amount;
                          inl " to "; inr toAccount] ;;
        context_log text [] ;;
        r <- Math_random_call ;;
        let success := PrimFloat.ltb threshold r in
        try_catch
          (if success then
             let event := {| body := JObject [("type", JString "DepositCompleted");
                                              ("toAccount", toAccount);
                                              ("amount", amount)] |} in
             sendBatch [event] ;;
             context_log "DepositFunds: Deposit succeeded." []
           else
             let event := {| body := JObject [("type", JString "DepositCompensation");
                                              ("toAccount", toAccount);
                                              ("amount", amount)] |} in
             sendBatch [event] ;;
             context_log_error "DepositFunds: Deposit failed. Compensation event emitted." [])
          (fun eventError =>
             text <- template [inl "DepositFunds: Error sending event for account ";
                               inr toAccount; inl ":"] ;;
             context_log_error text [eventError]) ;;
        ret Continue
  end.

Definition eventHubTrigger (eventHubMessages : list JsVal) : M unit :=
  new_EventHubProducerClient ;;
  try_finally
    (try_catch
       (for_of loop_body eventHubMessages ;; ret tt)
       (fun error =>
          context_log_error "DepositFunds: Error processing messages:" [error]))
    close.

End DepositFunds.

(* ===================================================================== *)
(** ** WithdrawFunds/index.ts *)
(* ===================================================================== *)

Module WithdrawFunds.

(** Body of the [for] loop, lines 18-66.  The missing-field branch logs the
    raw [message] and ends with [return], not [continue]. *)
Definition loop_body (message : JsVal) : M Ctl :=
  d <- decode "WithdrawFunds" message ;;
  match d with
  | None => ret Continue
  | Some parsedMessage =>
      '(fromAccount, amount, type) <-
         destructure3 parsedMessage "fromAccount" "amount" "type" ;;
      if negb (strict_eq_string type "StartTransfer") then ret Continue
      else if js_not fromAccount || js_not amount then
        context_log_error "WithdrawFunds: Missing required properties in message:"
                          [message] ;;
        ret Return
      else
        text <- template [inl "WithdrawFunds: Initiating withdrawal of "; inr amount;
                          inl " from "; inr fromAccount] ;;
        context_log text [] ;;
        r <- Math_random_call ;;
        let success := PrimFloat.ltb threshold r in
        try_catch
          (if success then
             let event := {| body := JObject [("type", JString "WithdrawCompleted");
                                              ("fromAccount", fromAccount);
                                              ("amount", amount)] |} in
             sendBatch [event] ;;
             context_log "WithdrawFunds: Withdrawal succeeded." []
           else
             let event := {| body := JObject [("type", JString "WithdrawCompensation");
                                              ("fromAccount", fromAccount);
                                              ("amount", amount)] |} in
             sendBatch [event] ;;
             context_log_error "WithdrawFunds: Withdrawal failed. Compensation event emitted." [])
          (fun eventError =>
             text <- template [inl "WithdrawFunds: Error sending event for account ";
                               inr fromAccount; inl ":"] ;;
             context_log_error text [eventError]) ;;
        ret Continue
  end.

Definition eventHubTrigger (eventHubMessages : list JsVal) : M unit :=
  new_EventHubProducerClient ;;
  try_finally
    (try_catch
       (for_of loop_body eventHubMessages ;; ret tt)
       (fun error =>
          context_log_error "WithdrawFunds: Error processing messages:" [error]))
    close.

End WithdrawFunds.

(* ===================================================================== *)
(** ** CompensateDeposit/index.ts *)
(* ===================================================================== *)

Module CompensateDeposit.

Definition loop_body (message : JsVal) : M Ctl :=
  d <- decode "CompensateDeposit" message ;;
  match d with
  | None => ret Continue
  | Some parsedMessage =>
      '(toAccount, amount, type) <-
         destructure3 parsedMessage "toAccount" "amount" "type" ;;
      if negb (strict_eq_string type "DepositCompensation") then ret Continue
      else if js_not toAccount || js_not amount then
        context_log_error "CompensateDeposit: Missing required properties in message:"
                          [parsedMessage] ;;
        ret Continue
      else
        text <- template [inl "CompensateDeposit: Reverting deposit of "; inr amount;
                          inl " from "; inr toAccount] ;;
        context_log text [] ;;
        ret Continue
  end.

Definition eventHubTrigger (eventHubMessages : list JsVal) : M unit :=
  try_catch
    (for_of loop_body eventHubMessages ;; ret tt)
    (fun error =>
       context_log_error "CompensateDeposit: Error processing messages:" [error]).

End CompensateDeposit.

(* ===================================================================== *)
(** ** CompensateWithdraw/index.ts *)
(* ===================================================================== *)

Module CompensateWithdraw.

(** The pattern on line 24 binds [toAccount], [amount] and [type]; the
    handler never reads [fromAccount]. *)
Definition loop_body (message : JsVal) : M Ctl :=
  d <- decode "CompensateWithdraw" message ;;
  match d with
  | None => ret Continue
  | Some parsedMessage =>
      '(toAccount, amount, type) <-
         destructure3 parsedMessage "toAccount" "amount" "type" ;;
      if negb (strict_eq_string type "WithdrawCompensation") then ret Continue
      else if js_not toAccount || js_not amount then
        context_log_error "CompensateWithdraw: Missing required properties in message:"
                          [parsedMessage] ;;
        ret Continue
      else
        text <- template [inl "CompensateWithdraw: Reverting deposit of "; inr amount;
                          inl " from "; inr toAccount] ;;
        context_log text [] ;;
        ret Continue
  end.

Definition eventHubTrigger (eventHubMessages : list JsVal) : M unit :=
  try_catch
    (for_of loop_body eventHubMessages ;; ret tt)
    (fun error =>
       context_log_error "CompensateWithdraw: Error processing messages:" [error]).

End CompensateWithdraw.

(* ===================================================================== *)
(** ** ClientFunction/index.ts *)
(* ===================================================================== *)

Module ClientFunction.

(** [httpTrigger(context, req)], as a function of [req.body].  The producer
    is the module-level one: the handler neither creates nor closes it. *)
Definition httpTrigger (req_body : JsVal) : M unit :=
  '(fromAccount, toAccount, amount) <-
     destructure3 req_body "fromAccount" "toAccount" "amount" ;;
  if js_not fromAccount || js_not toAccount || js_not amount then
    context_log_error "ClientFunction: Missing required properties in message:"
                      [req_body] ;;
    set_res {| status := 400;
               res_body := "Faltando propriedades obrigatórias na requisição." |}
  else
    let event := {| body := JObject [("type", JString "StartTransfer");
                                     ("fromAccount", fromAccount);
                                     ("toAccount", toAccount);
                                     ("amount", amount)] |} in
    try_catch
      (sendBatch [event] ;;
       set_res {| status := 202; res_body := "Transação iniciada." |})
      (fun error =>
         context_log_error "Failed to send event to Event Hub:" [error] ;;
         set_res {| status := 500; res_body := "Erro ao iniciar a transação." |}).

End ClientFunction.


(* ===================================================================== *)
(** ** Observations on runs, wire messages, a concrete platform *)
(* ===================================================================== *)

(** [st] after the effects [effs], nothing else changed. *)
Definition add_trace (st : State) (effs : list Effect) : State :=
  {| trace := trace st ++ effs; random_calls := random_calls st;
     send_calls := send_calls st; res := res st |}.

(** The events that reached the bus: those of the sendBatch calls that
    resolved. *)
Fixpoint published (t : list Effect) : list EventData :=
  match t with
  | [] => []
  | SendBatch evs None :: rest => evs ++ published rest
  | _ :: rest => published rest
  end.

(** The sendBatch calls made, resolved or not. *)
Fixpoint send_attempts (t : list Effect) : list (list EventData) :=
  match t with
  | [] => []
  | SendBatch evs _ :: rest => evs :: send_attempts rest
  | _ :: rest => send_attempts rest
  end.

Definition is_close (e : Effect) : bool :=
  match e with Close _ => true | _ => false end.

(** The number of [producerClient.close()] calls. *)
Definition closes (t : list Effect) : nat := length (filter is_close t).

(** [JSON.stringify(v)] as a value: the serialised document, or undefined. *)
Definition wire (v : JsVal) : JsVal :=
  match Json.stringify v with
  | Some doc => JString doc
  | None => JUndefined
  end.

(** The two-pass transport wrapping in the words of the specification: the
    event is serialised to a JSON document, and that document is wrapped as
    a JSON string value. *)
Definition transport_wrap (event : JsVal) : JsVal := wire (wire event).

(** A platform with the reference [JSON.parse], the given draws of
    [Math.random] and the given sendBatch failures; the constructor and
    [close] succeed. *)
Definition platform (draws : nat -> float) (fails : nat -> option JsVal) : Env :=
  {| JSON_parse := Json.parse; Math_random := draws;
     sendBatch_error := fails; close_error := None; new_error := None |}.

(** Every draw is [r] and every sendBatch resolves. *)
Definition calm (r : float) : Env := platform (fun _ => r) (fun _ => None).

(** The events of the wire format used in the examples. *)
Definition StartTransfer (fromAccount toAccount : string) (amount : float) : JsVal :=
  JObject [("type", JString "StartTransfer"); ("fromAccount", JString fromAccount);
           ("toAccount", JString toAccount); ("amount", JNumber amount)].
Definition WithdrawCompensation (fromAccount : string) (amount : float) : JsVal :=
  JObject [("type", JString "WithdrawCompensation");
           ("fromAccount", JString fromAccount); ("amount", JNumber amount)].
Definition DepositCompensation (toAccount : string) (amount : float) : JsVal :=
  JObject [("type", JString "DepositCompensation");
           ("toAccount", JString toAccount); ("amount", JNumber amount)].

(** The outcome event of the deposit step for a draw [r]. *)
Definition deposit_outcome (r : float) (toAccount amount : JsVal) : EventData :=
  {| body := JObject [("type", JString (if PrimFloat.ltb threshold r
                                        then "DepositCompleted"
                                        else "DepositCompensation"));
                      ("toAccount", toAccount); ("amount", amount)] |}.

(** The outcome event of the withdraw step for a draw [r]. *)
Definition withdraw_outcome (r : float) (fromAccount amount : JsVal) : EventData :=
  {| body := JObject [("type", JString (if PrimFloat.ltb threshold r
                                        then "WithdrawCompleted"
                                        else "WithdrawCompensation"));
                      ("fromAccount", fromAccount); ("amount", amount)] |}.

(** A computation that never closes the producer: whatever the platform
    and the state, it only appends effects other than [Close]. *)
Definition quiet {A} (m : M A) : Prop :=
  forall env st, exists t, trace (snd (m env st)) = trace st ++ t /\ closes t = 0.

(** A value whose conversion to a string does not throw. *)
Definition renders (v : JsVal) : bool :=
  match Json.ToString v with Some _ => true | None => false end.

(** A log line, as opposed to a call on the producer. *)
Definition is_log (e : Effect) : bool :=
  match e with Log _ _ _ => true | _ => false end.

(** An outcome event of a step processor: its [type] is one of the two
    given, and its account field and its [amount] are truthy. *)
Definition is_outcome (completed compensation account : string) (ev : EventData)
  : bool :=
  (strict_eq_string (Get (body ev) "type") completed
   || strict_eq_string (Get (body ev) "type") compensation)
  && ToBoolean (Get (body ev) account)
  && ToBoolean (Get (body ev) "amount").

(** The event the initiator builds from a request body (line 26). *)
Definition start_event (req_body : JsVal) : EventData :=
  {| body := JObject [("type", JString "StartTransfer");
                      ("fromAccount", Get req_body "fromAccount");
                      ("toAccount", Get req_body "toAccount");
                      ("amount", Get req_body "amount")] |}.

(** What one iteration of a step processor does to the state: it appends
    effects, none of them a close, and either makes no draw and no sendBatch
    call, or one draw and one sendBatch call with a single event accepted by
    [ok]. *)
Definition one_step (ok : EventData -> bool) (st st' : State) : Prop :=
  exists t,
    trace st' = trace st ++ t /\ res st' = res st /\
    ((send_attempts t = [] /\
      random_calls st' = random_calls st /\ send_calls st' = send_calls st) \/
     (exists ev,
         send_attempts t = [[ev]] /\ ok ev = true /\
         random_calls st' = S (random_calls st) /\
         send_calls st' = S (send_calls st))).

(** The same over any number of iterations. *)
Definition many_steps (ok : EventData -> bool) (st st' : State) : Prop :=
  exists t,
    trace st' = trace st ++ t /\ res st' = res st /\
    Forall (fun evs => exists ev, evs = [ev] /\ ok ev = true) (send_attempts t) /\
    send_calls st' = send_calls st + length (send_attempts t) /\
    random_calls st' = random_calls st + length (send_attempts t).

(** A computation that only writes log lines: it appends them to the trace
    and leaves the counters and the response as they were. *)
Definition logs_only {A} (m : M A) : Prop :=
  forall env st, exists t, snd (m env st) = add_trace st t /\ forallb is_log t = true.

(** The four consumers: the name each uses in its log lines, the event type
    it acts on, and the body of its loop. *)
Definition consumers : list (string * string * (JsVal -> M Ctl)) :=
  [("DepositFunds", "StartTransfer", DepositFunds.loop_body);
   ("WithdrawFunds", "StartTransfer", WithdrawFunds.loop_body);
   ("CompensateDeposit", "DepositCompensation", CompensateDeposit.loop_body);
   ("CompensateWithdraw", "WithdrawCompensation", CompensateWithdraw.loop_body)].

(** A message that the platform parses to an event of type [type] whose
    field [account] and whose [amount] are truthy and convert to strings. *)
Definition well_formed (type account : string) (env : Env) (message v : JsVal)
  : Prop :=
  ToBoolean message = true /\
  JSON_parse env message = inl v /\
  strict_eq_string (Get v "type") type = true /\
  ToBoolean (Get v account) = true /\
  ToBoolean (Get v "amount") = true /\
  renders (Get v account) = true /\
  renders (Get v "amount") = true.

(** The text of a rendered value, empty when the conversion throws. *)
Definition text_of (v : JsVal) : string :=
  match Json.ToString v with Some s => s | None => "" end.

(** The sendBatch calls a step processor makes for the parsed events [vs],
    one after the other, when the first of them gets draw number [k]:
    [outcome] is [deposit_outcome] or [withdraw_outcome], [account] the field
    it copies. *)
Fixpoint outcomes_from (outcome : float -> JsVal -> JsVal -> EventData)
         (account : string) (env : Env) (k : nat) (vs : list JsVal)
  : list (list EventData) :=
  match vs with
  | [] => []
  | v :: rest =>
      [outcome (Math_random env k) (Get v account) (Get v "amount")]
        :: outcomes_from outcome account env (S k) rest
  end.

(** The line a compensator named [tag] writes for the parsed event [v]. *)
Definition reversal_line (tag : string) (v : JsVal) : Effect :=
  Log Info (tag ++ ": Reverting deposit of " ++ text_of (Get v "amount")
                ++ " from " ++ text_of (Get v "toAccount"))%string [].

(** A nullish value: undefined or null. *)
Definition nullish (v : JsVal) : bool :=
  match v with JUndefined | JNull => true | _ => false end.

(* ===================================================================== *)
(** ** Numbers and objects through JSON text: auxiliary definitions *)
(* ===================================================================== *)

(** The definitions of this part serve two facts about the reference model:
    a number written by [Json.Number_toString] is read back by
    [Json.parse_number], and an object of the wire format written by
    [Json.stringify] is read back by [Json.parse]. *)

(** What [SpecFloat.binary_round_aux] does once the mantissa has been
    shifted: the mantissa [m1] with round bit [r] and sticky bit [s] at
    exponent [e1] is rounded to nearest, ties to even, and a carry out of
    the 53 bits moves the exponent. *)
Definition round_state (sx : bool) (m1 : Z) (r s : bool) (e1 : Z)
  : SpecFloat.spec_float :=
  let m2 := SpecFloat.round_nearest_even m1
              (SpecFloat.loc_of_shr_record (SpecFloat.Build_shr_record m1 r s)) in
  let '(mrs, e2) := SpecFloat.shr_fexp 53 1024 m2 e1 SpecFloat.loc_Exact in
  match SpecFloat.shr_m mrs with
  | Z0 => SpecFloat.S754_zero sx
  | Zpos m => if (e2 <=? 1024 - 53)%Z then SpecFloat.S754_finite sx m e2
              else SpecFloat.S754_infinity sx
  | Zneg _ => SpecFloat.S754_nan
  end.

(** The quotient [N / Q] with a sticky bit below it, as [Json.of_decimal]
    forms it. *)
Definition with_sticky (N Q : Z) : Z :=
  (2 * (N / Q) + (if N mod Q =? 0 then 0 else 1))%Z.

(** The decimals [m * 10^e] on which [Json.of_decimal] takes neither
    shortcut. *)
Definition in_range (m e : Z) : Prop :=
  (0 < m /\ (0 <= e -> Z.log2 m + 3 * e <= 1030) /\
   (e < 0 -> -1080 <= Z.log2 m + 1 + 3 * e))%Z.

(** [m * 10^e] as the fraction [dec_num m e / dec_den e], and [10^e] as
    [up10 e / dec_den e]. *)
Definition dec_num (m e : Z) : Z := (if 0 <=? e then m * 10 ^ e else m)%Z.
Definition dec_den (e : Z) : Z := (if 0 <=? e then 1 else 10 ^ (- e))%Z.
Definition up10 (e : Z) : Z := (if 0 <=? e then 10 ^ e else 1)%Z.

(** A finite binary64 number [M * 2^E] as the fraction
    [bin_num M E / bin_den E], and one unit in its last place,
    [bin_ulp E / bin_den E]. *)
Definition bin_num (M : positive) (E : Z) : Z :=
  (if 0 <=? E then Zpos M * 2 ^ E else Zpos M)%Z.
Definition bin_den (E : Z) : Z := (if 0 <=? E then 1 else 2 ^ (- E))%Z.
Definition bin_ulp (E : Z) : Z := (if 0 <=? E then 2 ^ E else 1)%Z.

(** The fraction [p/q] over the unit [10^scale]: the integer part of
    [cnum p scale / cden q scale] is the lower candidate of
    [Json.shortest]. *)
Definition cnum (p scale : Z) : Z := (p * dec_den scale)%Z.
Definition cden (q scale : Z) : Z := (q * up10 scale)%Z.

(** The test of [Json.shortest]: the digits [c] at [scale] convert back to
    [v]. *)
Definition accepts (v : float) (c scale : Z) : bool :=
  PrimFloat.eqb (Json.of_decimal false c scale) v.

Fixpoint all_digits (s : string) : bool :=
  match s with
  | EmptyString => true
  | String c r => Json.is_digit c && all_digits r
  end.

(** The text after a run of digits does not go on with a digit. *)
Definition no_digit_ahead (s : string) : bool :=
  match s with
  | EmptyString => true
  | String c _ => negb (Json.is_digit c)
  end.

(** The integer part of a number literal: one digit, or digits that do not
    start with a zero. *)
Definition int_ok (int : string) : bool :=
  match int with
  | EmptyString => false
  | String c EmptyString => true
  | String c _ => negb (Json.code c =? 48)%Z
  end.

(** The text after a number literal does not go on with a digit, a point or
    an exponent mark. *)
Definition number_ends (s : string) : bool :=
  match s with
  | EmptyString => true
  | String c _ =>
      negb (Json.is_digit c) && negb (Json.code c =? 46)%Z &&
      negb ((Json.code c =? 101)%Z || (Json.code c =? 69)%Z)
  end.

(** What [Json.parse_number] does once the sign and the integer digits
    [int] have been read, on the text [s2] after them. *)
Definition number_tail (neg : bool) (int s2 : string) : option (float * string) :=
  match
    match s2 with
    | EmptyString => Some (EmptyString, s2)
    | String c r =>
        if (Json.code c =? 46)%Z
        then
         match Json.take_digits r with
         | (EmptyString, _) => None
         | (String _ _ as fr, rest) => Some (fr, rest)
         end
        else Some (EmptyString, s2)
    end
  with
  | Some (fr, s3) =>
      match
        match s3 with
        | EmptyString => Some (0%Z, s3)
        | String c r =>
            if (Json.code c =? 101)%Z || (Json.code c =? 69)%Z
            then
             let
             '(eneg, r1) :=
              match r with
              | EmptyString => (false, r)
              | String sg r' =>
                  if (Json.code sg =? 45)%Z
                  then (true, r')
                  else if (Json.code sg =? 43)%Z then (false, r') else (false, r)
              end in
              match Json.take_digits r1 with
              | (EmptyString, _) => None
              | (String _ _ as ex, rest) =>
                  Some
                    ((if eneg
                      then - Json.digits_value 0 ex
                      else Json.digits_value 0 ex)%Z, rest)
              end
            else Some (0%Z, s3)
        end
      with
      | Some (ex, s4) =>
          Some
            (Json.of_decimal neg (Json.digits_value 0 (String.append int fr))
               (ex - Z.of_nat (String.length fr))%Z,
             s4)
      | None => None
      end
  | None => None
  end.

(** The exponent part of a number literal as [Json.format_decimal] writes
    it. *)
Definition exponent_text (eneg : bool) (exs : string) : string :=
  ("e" ++ (if eneg then "-" else "+") ++ exs)%string.

(** The numbers JSON text carries exactly: the finite ones other than
    negative zero. *)
Definition json_exact (n : float) : bool :=
  match FloatOps.Prim2SF n with
  | SpecFloat.S754_finite _ _ _ => true
  | SpecFloat.S754_zero sg => negb sg
  | _ => false
  end.

(** What a number is after [JSON.stringify] and [JSON.parse]: itself when
    finite, with negative zero read back as zero; null for the infinities
    and NaN, which [JSON.stringify] writes as null. *)
Definition json_number (n : float) : JsVal :=
  match FloatOps.Prim2SF n with
  | SpecFloat.S754_finite _ _ _ => JNumber n
  | SpecFloat.S754_zero _ => JNumber zero
  | _ => JNull
  end.

(** The field values of the wire format: strings and numbers. *)
Definition wire_field (v : JsVal) : bool :=
  match v with
  | JString _ | JNumber _ => true
  | _ => false
  end.

(** A field value after [JSON.stringify] and [JSON.parse]. *)
Definition carried (v : JsVal) : JsVal :=
  match v with
  | JNumber n => json_number n
  | _ => v
  end.

Definition carry_all (props : list (string * JsVal)) : list (string * JsVal) :=
  map (fun kv => (fst kv, carried (snd kv))) props.

(** Property names that are pairwise different, different from those
    [seen], and not array indices: [JSON.parse] creates them in the order
    of the text. *)
Fixpoint plain_keys (seen : list string) (props : list (string * JsVal)) : bool :=
  match props with
  | [] => true
  | (k, _) :: rest =>
      negb (existsb (String.eqb k) seen) &&
      match Json.array_index k with None => true | Some _ => false end &&
      plain_keys (seen ++ [k]) rest
  end.

(** The text of a value in a JSON document. *)
Definition field_text (v : JsVal) : string :=
  match Json.stringify v with Some t => t | None => "null" end.

(** The members of an object in a JSON document. *)
Fixpoint member_texts (props : list (string * JsVal)) : list string :=
  match props with
  | [] => []
  | (k, x) :: rest =>
      (Json.quote k ++ ":" ++ field_text x)%string :: member_texts rest
  end.

(** The text after a member of an object: a comma or the closing brace. *)
Definition member_ends (s : string) : bool :=
  match s with
  | String c _ => ((Json.code c =? 44) || (Json.code c =? 125))%Z
  | EmptyString => false
  end.

(** The events of the wire format, as the handlers build them (part_000
    line 27, DepositFunds lines 50 and 56, part_002 lines 50 and 56): the
    property [type], then [fromAccount] and [toAccount] where the event has
    them, then [amount]. *)
Definition saga_object (type : string) (fromAccount toAccount : option string)
           (amount : JsVal) : JsVal :=
  JObject (("type", JString type)
           :: match fromAccount with
              | Some account => [("fromAccount", JString account)]
              | None => []
              end
           ++ match toAccount with
              | Some account => [("toAccount", JString account)]
              | None => []
              end
           ++ [("amount", amount)]).

(** A SagaEvent: string type and accounts, a number as amount. *)
Definition SagaEvent (type : string) (fromAccount toAccount : option string)
           (amount : float) : JsVal :=
  saga_object type fromAccount toAccount (JNumber amount).

(* ===================================================================== *)
(** ** Basic facts about the monad and the shared steps *)
(* ===================================================================== *)

Lemma add_trace_nil st : add_trace st [] = st.
Proof. destruct st; unfold add_trace; simpl; now rewrite app_nil_r. Qed.

Lemma add_trace_app st a b : add_trace (add_trace st a) b = add_trace st (a ++ b).
Proof. unfold add_trace; simpl; now rewrite app_assoc. Qed.

Lemma published_app t1 t2 : published (t1 ++ t2) = published t1 ++ published t2.
Proof.
  induction t1 as [|e t1 IH]; simpl; [reflexivity|].
  destruct e as [| evs [err|] |]; simpl; rewrite IH; try reflexivity.
  now rewrite app_assoc.
Qed.

Lemma send_attempts_app t1 t2 :
  send_attempts (t1 ++ t2) = send_attempts t1 ++ send_attempts t2.
Proof.
  induction t1 as [|e t1 IH]; simpl; [reflexivity|].
  destruct e; simpl; now rewrite IH.
Qed.

Lemma closes_app t1 t2 : closes (t1 ++ t2) = closes t1 + closes t2.
Proof. unfold closes; now rewrite filter_app, length_app. Qed.

(** The loop over a concatenation: the second part runs only when the first
    ended without [return] and without an exception. *)
Lemma for_of_app body l1 l2 env st :
  for_of body (l1 ++ l2) env st =
  match for_of body l1 env st with
  | (Normal Continue, st') => for_of body l2 env st'
  | other => other
  end.
Proof.
  revert st; induction l1 as [|m l1 IH]; intros st; simpl.
  - reflexivity.
  - unfold bind. destruct (body m env st) as [[[|]|e] st1]; simpl.
    + apply IH.
    + reflexivity.
    + reflexivity.
Qed.

Lemma nullish_Get v k : nullish v = true -> Get v k = JUndefined.
Proof. destruct v; simpl; intros H; try discriminate; reflexivity. Qed.

Lemma destructure3_present v a b c env st :
  nullish v = false ->
  destructure3 v a b c env st = (Normal (Get v a, Get v b, Get v c), st).
Proof. destruct v; simpl; intros H; try discriminate; reflexivity. Qed.

Lemma strict_eq_string_present v k s :
  strict_eq_string (Get v k) s = true -> nullish v = false.
Proof. destruct v; simpl; intros H; try discriminate; reflexivity. Qed.

Lemma ToBoolean_present v k : ToBoolean (Get v k) = true -> nullish v = false.
Proof. destruct v; simpl; intros H; try discriminate; reflexivity. Qed.

(** The three ways the decode step ends. *)
Lemma decode_falsy tag message env st :
  ToBoolean message = false ->
  decode tag message env st =
  (Normal None,
   add_trace st [Log Error (tag ++ ": Invalid or undefined message body:") [message]]).
Proof. intros H. unfold decode, js_not. rewrite H. reflexivity. Qed.

Lemma decode_malformed tag message e env st :
  ToBoolean message = true ->
  JSON_parse env message = inr e ->
  decode tag message env st =
  (Normal None, add_trace st [Log Error (tag ++ ": Error parsing message:") [e]]).
Proof.
  intros H P. unfold decode, js_not. rewrite H. simpl.
  unfold try_catch, bind, JSON_parse_call. rewrite P. reflexivity.
Qed.

Lemma decode_parsed tag message v env st :
  ToBoolean message = true ->
  JSON_parse env message = inl v ->
  decode tag message env st = (Normal (Some v), st).
Proof.
  intros H P. unfold decode, js_not. rewrite H. simpl.
  unfold try_catch, bind, JSON_parse_call. rewrite P. reflexivity.
Qed.

(** Template literals with one and with two interpolated values. *)
Lemma template_one t1 a t2 sa env st :
  Json.ToString a = Some sa ->
  template [inl t1; inr a; inl t2] env st = (Normal (t1 ++ sa ++ t2)%string, st).
Proof.
  intros Ha. unfold template, Json.render. cbn [Json.pieces]. rewrite Ha. reflexivity.
Qed.

Lemma template_two t1 a t2 b sa sb env st :
  Json.ToString a = Some sa ->
  Json.ToString b = Some sb ->
  template [inl t1; inr a; inl t2; inr b] env st = (Normal (t1 ++ sa ++ t2 ++ sb)%string, st).
Proof.
  intros Ha Hb. unfold template, Json.render. cbn [Json.pieces].
  rewrite Ha, Hb. reflexivity.
Qed.

(* ===================================================================== *)
(** ** The transfer initiator (ClientFunction) *)
(* ===================================================================== *)

Section Initiator.

Variable env : Env.
Variable st : State.

(** A request body that is present but misses a field, in full: one error
    log, status 400, and the send counter untouched. *)
Lemma httpTrigger_incomplete req_body :
  nullish req_body = false ->
  js_not (Get req_body "fromAccount") || js_not (Get req_body "toAccount")
    || js_not (Get req_body "amount") = true ->
  ClientFunction.httpTrigger req_body env st =
  (Normal tt,
   {| trace := trace st ++
               [Log Error "ClientFunction: Missing required properties in message:"
                    [req_body]];
      random_calls := random_calls st;
      send_calls := send_calls st;
      res := Some {| status := 400;
                     res_body := "Faltando propriedades obrigatórias na requisição." |} |}).
Proof.
  intros Hb Hf. unfold ClientFunction.httpTrigger, bind.
  rewrite (destructure3_present _ _ _ _ _ _ Hb). rewrite Hf. reflexivity.
Qed.

(** A complete request, in full. *)
Lemma httpTrigger_complete req_body :
  ToBoolean (Get req_body "fromAccount") = true ->
  ToBoolean (Get req_body "toAccount") = true ->
  ToBoolean (Get req_body "amount") = true ->
  let event := {| body := JObject [("type", JString "StartTransfer");
                                   ("fromAccount", Get req_body "fromAccount");
                                   ("toAccount", Get req_body "toAccount");
                                   ("amount", Get req_body "amount")] |} in
  ClientFunction.httpTrigger req_body env st =
  (Normal tt,
   match sendBatch_error env (send_calls st) with
   | None =>
       {| trace := trace st ++ [SendBatch [event] None];
          random_calls := random_calls st;
          send_calls := S (send_calls st);
          res := Some {| status := 202; res_body := "Transação iniciada." |} |}
   | Some error =>
       {| trace := (trace st ++ [SendBatch [event] (Some error)]) ++
                   [Log Error "Failed to send event to Event Hub:" [error]];
          random_calls := random_calls st;
          send_calls := S (send_calls st);
          res := Some {| status := 500;
                         res_body := "Erro ao iniciar a transação." |} |}
   end).
Proof.
  intros Hf Ht Ha event. unfold ClientFunction.httpTrigger, bind.
  rewrite (destructure3_present _ _ _ _ _ _ (ToBoolean_present _ _ Ha)).
  unfold js_not. rewrite Hf, Ht, Ha. simpl.
  unfold try_catch, bind, sendBatch.
  destruct (sendBatch_error env (send_calls st)); reflexivity.
Qed.

End Initiator.

(** A request whose body is present, and in which at least one of
    [fromAccount], [toAccount], [amount] is missing or falsy, gets the
    response with status 400, and no sendBatch call is made: the sequence of
    publish attempts, the published events and the send counter are what
    they were before the request. *)
Theorem initiator_rejects_incomplete_request :
  forall (env : Env) (st : State) (req_body : JsVal),
    nullish req_body = false ->
    ToBoolean (Get req_body "fromAccount") = false \/
    ToBoolean (Get req_body "toAccount") = false \/
    ToBoolean (Get req_body "amount") = false ->
    exists st',
      ClientFunction.httpTrigger req_body env st = (Normal tt, st') /\
      option_map status (res st') = Some 400%Z /\
      send_attempts (trace st') = send_attempts (trace st) /\
      published (trace st') = published (trace st) /\
      send_calls st' = send_calls st.
Proof.
  intros env st b Hb Hf.
  eexists. split.
  - apply httpTrigger_incomplete; [exact Hb|].
    unfold js_not. destruct Hf as [H|[H|H]]; rewrite H; simpl;
      rewrite ?orb_true_r; reflexivity.
  - simpl. rewrite send_attempts_app, published_app. simpl.
    rewrite !app_nil_r. repeat split; reflexivity.
Qed.

Lemma initiator_rejects_incomplete_request_witness :
  exists st',
    ClientFunction.httpTrigger
      (JObject [("fromAccount", JString "A"); ("toAccount", JString "B")])
      (calm 0.5) initial = (Normal tt, st') /\
    option_map status (res st') = Some 400%Z /\
    send_attempts (trace st') = send_attempts (trace initial) /\
    published (trace st') = published (trace initial) /\
    send_calls st' = send_calls initial.
Proof.
  apply (initiator_rejects_incomplete_request (calm 0.5) initial
           (JObject [("fromAccount", JString "A"); ("toAccount", JString "B")])).
  - reflexivity.
  - right; right; reflexivity.
Defined.

(** C6.  A request without a body misses all three fields, and is not
    answered with the 400: the destructuring on line 13 comes before the
    check of line 16 and throws on [undefined] and on [null], so on every
    platform and in every state the handler ends by that exception with the
    state as it was (no response assigned, no line logged, nothing sent),
    and it does not complete with status 400.  The empty object, a body that
    is present with the same three fields missing, is answered with 400. *)
Theorem initiator_bodyless_request_is_not_answered :
  forall (env : Env) (st : State),
    (exists e, ClientFunction.httpTrigger JUndefined env st = (Throw e, st)) /\
    (exists e, ClientFunction.httpTrigger JNull env st = (Throw e, st)) /\
    ~ (exists st', ClientFunction.httpTrigger JUndefined env st = (Normal tt, st') /\
                   option_map status (res st') = Some 400%Z) /\
    ~ (exists st', ClientFunction.httpTrigger JNull env st = (Normal tt, st') /\
                   option_map status (res st') = Some 400%Z) /\
    (exists st', ClientFunction.httpTrigger (JObject []) env st = (Normal tt, st') /\
                 option_map status (res st') = Some 400%Z /\
                 send_attempts (trace st') = send_attempts (trace st)).
Proof.
  intros env st. split; [|split; [|split; [|split]]].
  - eexists. reflexivity.
  - eexists. reflexivity.
  - intros [st' [H _]]. discriminate H.
  - intros [st' [H _]]. discriminate H.
  - eexists. split; [apply httpTrigger_incomplete; reflexivity|].
    cbn [res trace option_map status]. rewrite send_attempts_app.
    cbn [send_attempts]. rewrite app_nil_r. split; reflexivity.
Qed.

(** C7.  A request whose three fields are all truthy makes exactly one
    sendBatch call, carrying the single event
    [{type: "StartTransfer", fromAccount, toAccount, amount}] with the
    request's own values; the response is 202 when the call resolves, and 500
    when it rejects, with no second call (no retry) in either case. *)
Theorem initiator_publishes_one_StartTransfer :
  forall (env : Env) (st : State) (req_body : JsVal),
    ToBoolean (Get req_body "fromAccount") = true ->
    ToBoolean (Get req_body "toAccount") = true ->
    ToBoolean (Get req_body "amount") = true ->
    let event := {| body := JObject [("type", JString "StartTransfer");
                                     ("fromAccount", Get req_body "fromAccount");
                                     ("toAccount", Get req_body "toAccount");
                                     ("amount", Get req_body "amount")] |} in
    exists st',
      ClientFunction.httpTrigger req_body env st = (Normal tt, st') /\
      send_attempts (trace st') = send_attempts (trace st) ++ [[event]] /\
      send_calls st' = S (send_calls st) /\
      (sendBatch_error env (send_calls st) = None ->
       option_map status (res st') = Some 202%Z /\
       published (trace st') = published (trace st) ++ [event]) /\
      (forall error, sendBatch_error env (send_calls st) = Some error ->
       option_map status (res st') = Some 500%Z /\
       published (trace st') = published (trace st)).
Proof.
  intros env st b Hf Ht Ha event.
  eexists. split; [apply httpTrigger_complete; assumption|].
  destruct (sendBatch_error env (send_calls st)) as [error|]; simpl;
    rewrite !send_attempts_app, !published_app; simpl; rewrite ?app_nil_r.
  - split; [reflexivity|]. split; [reflexivity|]. split.
    + intros H; discriminate H.
    + intros e _. split; reflexivity.
  - split; [reflexivity|]. split; [reflexivity|]. split.
    + intros _. split; reflexivity.
    + intros e H; discriminate H.
Qed.

Lemma initiator_publishes_one_StartTransfer_witness :
  let req_body := JObject [("fromAccount", JString "A"); ("toAccount", JString "B");
                           ("amount", JNumber 100)] in
  let event := {| body := JObject [("type", JString "StartTransfer");
                                   ("fromAccount", Get req_body "fromAccount");
                                   ("toAccount", Get req_body "toAccount");
                                   ("amount", Get req_body "amount")] |} in
  exists st',
    ClientFunction.httpTrigger req_body (calm 0.5) initial = (Normal tt, st') /\
    send_attempts (trace st') = send_attempts (trace initial) ++ [[event]] /\
    send_calls st' = S (send_calls initial) /\
    (sendBatch_error (calm 0.5) (send_calls initial) = None ->
     option_map status (res st') = Some 202%Z /\
     published (trace st') = published (trace initial) ++ [event]) /\
    (forall error, sendBatch_error (calm 0.5) (send_calls initial) = Some error ->
     option_map status (res st') = Some 500%Z /\
     published (trace st') = published (trace initial)).
Proof.
  apply (initiator_publishes_one_StartTransfer (calm 0.5) initial
           (JObject [("fromAccount", JString "A"); ("toAccount", JString "B");
                     ("amount", JNumber 100)])); reflexivity.
Defined.

(** C9.  With an absent body ([undefined]) the destructuring on line 13
    throws a TypeError before the missing-field check: the handler ends by
    that exception with the state untouched, so no response is assigned, no
    log line is written and nothing is sent.  The same holds for [null]; and
    whenever the handler does assign a response, the body was present. *)
Theorem initiator_absent_body_throws :
  forall (env : Env) (st : State),
    (exists e, ClientFunction.httpTrigger JUndefined env st = (Throw e, st)) /\
    (exists e, ClientFunction.httpTrigger JNull env st = (Throw e, st)) /\
    (forall req_body st',
        ClientFunction.httpTrigger req_body env st = (Normal tt, st') ->
        nullish req_body = false /\ exists r, res st' = Some r).
Proof.
  intros env st. split; [|split].
  - eexists. reflexivity.
  - eexists. reflexivity.
  - intros b st' H.
    destruct (nullish b) eqn:Hb.
    + destruct b; try discriminate Hb; discriminate H.
    + split; [reflexivity|].
      unfold ClientFunction.httpTrigger, bind in H.
      rewrite (destructure3_present _ _ _ _ _ _ Hb) in H.
      destruct (js_not (Get b "fromAccount") || js_not (Get b "toAccount")
                || js_not (Get b "amount")).
      * inversion H; subst; simpl. eexists; reflexivity.
      * unfold try_catch, bind, sendBatch in H.
        destruct (sendBatch_error env (send_calls st));
          inversion H; subst; simpl; eexists; reflexivity.
Qed.

(* ===================================================================== *)
(** ** One iteration of each consumer's loop *)
(* ===================================================================== *)

Section Iterations.

Variable env : Env.
Variable st : State.
Variables message v : JsVal.
Hypothesis message_truthy : ToBoolean message = true.
Hypothesis message_parsed : JSON_parse env message = inl v.

(** A message whose parsed value is [null] (or undefined): the destructuring
    throws, outside the inner [try]. *)
Lemma deposit_iteration_nullish :
  nullish v = true ->
  exists e, DepositFunds.loop_body message env st = (Throw e, st).
Proof.
  intros Hn. unfold DepositFunds.loop_body, bind.
  rewrite (decode_parsed _ _ _ _ _ message_truthy message_parsed).
  destruct v; try discriminate Hn; eexists; reflexivity.
Qed.

Lemma withdraw_iteration_nullish :
  nullish v = true ->
  exists e, WithdrawFunds.loop_body message env st = (Throw e, st).
Proof.
  intros Hn. unfold WithdrawFunds.loop_body, bind.
  rewrite (decode_parsed _ _ _ _ _ message_truthy message_parsed).
  destruct v; try discriminate Hn; eexists; reflexivity.
Qed.

Lemma compensate_deposit_iteration_nullish :
  nullish v = true ->
  exists e, CompensateDeposit.loop_body message env st = (Throw e, st).
Proof.
  intros Hn. unfold CompensateDeposit.loop_body, bind.
  rewrite (decode_parsed _ _ _ _ _ message_truthy message_parsed).
  destruct v; try discriminate Hn; eexists; reflexivity.
Qed.

Lemma compensate_withdraw_iteration_nullish :
  nullish v = true ->
  exists e, CompensateWithdraw.loop_body message env st = (Throw e, st).
Proof.
  intros Hn. unfold CompensateWithdraw.loop_body, bind.
  rewrite (decode_parsed _ _ _ _ _ message_truthy message_parsed).
  destruct v; try discriminate Hn; eexists; reflexivity.
Qed.

(** An event of another type is passed over in silence. *)
Lemma deposit_iteration_foreign :
  nullish v = false ->
  strict_eq_string (Get v "type") "StartTransfer" = false ->
  DepositFunds.loop_body message env st = (Normal Continue, st).
Proof.
  intros Hn Ht. unfold DepositFunds.loop_body, bind.
  rewrite (decode_parsed _ _ _ _ _ message_truthy message_parsed).
  rewrite (destructure3_present _ _ _ _ _ _ Hn). rewrite Ht. reflexivity.
Qed.

Lemma withdraw_iteration_foreign :
  nullish v = false ->
  strict_eq_string (Get v "type") "StartTransfer" = false ->
  WithdrawFunds.loop_body message env st = (Normal Continue, st).
Proof.
  intros Hn Ht. unfold WithdrawFunds.loop_body, bind.
  rewrite (decode_parsed _ _ _ _ _ message_truthy message_parsed).
  rewrite (destructure3_present _ _ _ _ _ _ Hn). rewrite Ht. reflexivity.
Qed.

Lemma compensate_deposit_iteration_foreign :
  nullish v = false ->
  strict_eq_string (Get v "type") "DepositCompensation" = false ->
  CompensateDeposit.loop_body message env st = (Normal Continue, st).
Proof.
  intros Hn Ht. unfold CompensateDeposit.loop_body, bind.
  rewrite (decode_parsed _ _ _ _ _ message_truthy message_parsed).
  rewrite (destructure3_present _ _ _ _ _ _ Hn). rewrite Ht. reflexivity.
Qed.

Lemma compensate_withdraw_iteration_foreign :
  nullish v = false ->
  strict_eq_string (Get v "type") "WithdrawCompensation" = false ->
  CompensateWithdraw.loop_body message env st = (Normal Continue, st).
Proof.
  intros Hn Ht. unfold CompensateWithdraw.loop_body, bind.
  rewrite (decode_parsed _ _ _ _ _ message_truthy message_parsed).
  rewrite (destructure3_present _ _ _ _ _ _ Hn). rewrite Ht. reflexivity.
Qed.

(** A StartTransfer without a truthy [toAccount] and [amount]: the deposit
    processor logs and goes on ([continue]). *)
Lemma deposit_iteration_missing :
  strict_eq_string (Get v "type") "StartTransfer" = true ->
  js_not (Get v "toAccount") || js_not (Get v "amount") = true ->
  DepositFunds.loop_body message env st =
  (Normal Continue,
   add_trace st [Log Error "DepositFunds: Missing required properties in message:" [v]]).
Proof.
  intros Ht Hm. unfold DepositFunds.loop_body, bind.
  rewrite (decode_parsed _ _ _ _ _ message_truthy message_parsed).
  rewrite (destructure3_present _ _ _ _ _ _ (strict_eq_string_present _ _ _ Ht)).
  rewrite Ht, Hm. reflexivity.
Qed.

(** A StartTransfer without a truthy [fromAccount] and [amount]: the
    withdraw processor logs and leaves the handler ([return]). *)
Lemma withdraw_iteration_missing :
  strict_eq_string (Get v "type") "StartTransfer" = true ->
  js_not (Get v "fromAccount") || js_not (Get v "amount") = true ->
  WithdrawFunds.loop_body message env st =
  (Normal Return,
   add_trace st [Log Error "WithdrawFunds: Missing required properties in message:"
                     [message]]).
Proof.
  intros Ht Hm. unfold WithdrawFunds.loop_body, bind.
  rewrite (decode_parsed _ _ _ _ _ message_truthy message_parsed).
  rewrite (destructure3_present _ _ _ _ _ _ (strict_eq_string_present _ _ _ Ht)).
  rewrite Ht, Hm. reflexivity.
Qed.

Lemma compensate_deposit_iteration_missing :
  strict_eq_string (Get v "type") "DepositCompensation" = true ->
  js_not (Get v "toAccount") || js_not (Get v "amount") = true ->
  CompensateDeposit.loop_body message env st =
  (Normal Continue,
   add_trace st [Log Error "CompensateDeposit: Missing required properties in message:" [v]]).
Proof.
  intros Ht Hm. unfold CompensateDeposit.loop_body, bind.
  rewrite (decode_parsed _ _ _ _ _ message_truthy message_parsed).
  rewrite (destructure3_present _ _ _ _ _ _ (strict_eq_string_present _ _ _ Ht)).
  rewrite Ht, Hm. reflexivity.
Qed.

Lemma compensate_withdraw_iteration_missing :
  strict_eq_string (Get v "type") "WithdrawCompensation" = true ->
  js_not (Get v "toAccount") || js_not (Get v "amount") = true ->
  CompensateWithdraw.loop_body message env st =
  (Normal Continue,
   add_trace st [Log Error "CompensateWithdraw: Missing required properties in message:" [v]]).
Proof.
  intros Ht Hm. unfold CompensateWithdraw.loop_body, bind.
  rewrite (decode_parsed _ _ _ _ _ message_truthy message_parsed).
  rewrite (destructure3_present _ _ _ _ _ _ (strict_eq_string_present _ _ _ Ht)).
  rewrite Ht, Hm. reflexivity.
Qed.

(** The compensators' action on an accepted event: one log line with the
    amount and the account. *)
Lemma compensate_deposit_iteration_accepted amount toAccount :
  strict_eq_string (Get v "type") "DepositCompensation" = true ->
  ToBoolean (Get v "toAccount") = true ->
  ToBoolean (Get v "amount") = true ->
  Json.ToString (Get v "amount") = Some amount ->
  Json.ToString (Get v "toAccount") = Some toAccount ->
  CompensateDeposit.loop_body message env st =
  (Normal Continue,
   add_trace st [Log Info ("CompensateDeposit: Reverting deposit of " ++ amount ++
                           " from " ++ toAccount)%string []]).
Proof.
  intros Ht Ha Hm Sa Sb. unfold CompensateDeposit.loop_body, bind.
  rewrite (decode_parsed _ _ _ _ _ message_truthy message_parsed).
  rewrite (destructure3_present _ _ _ _ _ _ (strict_eq_string_present _ _ _ Ht)).
  unfold js_not. rewrite Ht, Ha, Hm. cbn [negb orb].
  rewrite (template_two _ _ _ _ _ _ _ _ Sa Sb). reflexivity.
Qed.

Lemma compensate_withdraw_iteration_accepted amount toAccount :
  strict_eq_string (Get v "type") "WithdrawCompensation" = true ->
  ToBoolean (Get v "toAccount") = true ->
  ToBoolean (Get v "amount") = true ->
  Json.ToString (Get v "amount") = Some amount ->
  Json.ToString (Get v "toAccount") = Some toAccount ->
  CompensateWithdraw.loop_body message env st =
  (Normal Continue,
   add_trace st [Log Info ("CompensateWithdraw: Reverting deposit of " ++ amount ++
                           " from " ++ toAccount)%string []]).
Proof.
  intros Ht Ha Hm Sa Sb. unfold CompensateWithdraw.loop_body, bind.
  rewrite (decode_parsed _ _ _ _ _ message_truthy message_parsed).
  rewrite (destructure3_present _ _ _ _ _ _ (strict_eq_string_present _ _ _ Ht)).
  unfold js_not. rewrite Ht, Ha, Hm. cbn [negb orb].
  rewrite (template_two _ _ _ _ _ _ _ _ Sa Sb). reflexivity.
Qed.

(** A valid StartTransfer in the deposit processor: one draw, one sendBatch
    call with the outcome event of that draw, and the closing log line. *)
Lemma deposit_iteration_valid amount account :
  strict_eq_string (Get v "type") "StartTransfer" = true ->
  ToBoolean (Get v "toAccount") = true ->
  ToBoolean (Get v "amount") = true ->
  Json.ToString (Get v "amount") = Some amount ->
  Json.ToString (Get v "toAccount") = Some account ->
  let r := Math_random env (random_calls st) in
  let err := sendBatch_error env (send_calls st) in
  let event := deposit_outcome r (Get v "toAccount") (Get v "amount") in
  DepositFunds.loop_body message env st =
  (Normal Continue,
   {| trace := trace st ++
        [Log Info ("DepositFunds: Initiating deposit of " ++ amount ++ " to " ++ account)%string [];
         SendBatch [event] err;
         match err with
         | Some eventError =>
             Log Error ("DepositFunds: Error sending event for account " ++ account ++ ":")%string
                 [eventError]
         | None =>
             if PrimFloat.ltb threshold r
             then Log Info "DepositFunds: Deposit succeeded." []
             else Log Error "DepositFunds: Deposit failed. Compensation event emitted." []
         end];
      random_calls := S (random_calls st);
      send_calls := S (send_calls st);
      res := res st |}).
Proof.
  intros Ht Ha Hm Sa Sb r err event. unfold DepositFunds.loop_body, bind.
  rewrite (decode_parsed _ _ _ _ _ message_truthy message_parsed).
  rewrite (destructure3_present _ _ _ _ _ _ (strict_eq_string_present _ _ _ Ht)).
  unfold js_not. rewrite Ht, Ha, Hm. cbn [negb orb].
  rewrite (template_two _ _ _ _ _ _ _ _ Sa Sb).
  subst event r err. unfold deposit_outcome.
  generalize st; intros [tr rc sc rs].
  unfold try_catch, bind.
  cbv beta iota zeta delta
    [sendBatch context_log context_log_error emit
     Math_random_call ret trace random_calls send_calls res].
  destruct (PrimFloat.ltb threshold (Math_random env rc));
    destruct (sendBatch_error env sc);
    cbv beta iota; rewrite ?(template_one _ _ _ _ _ _ Sb);
    cbv beta iota; repeat rewrite <- app_assoc; reflexivity.
Qed.

(** The same for the withdraw processor. *)
Lemma withdraw_iteration_valid amount account :
  strict_eq_string (Get v "type") "StartTransfer" = true ->
  ToBoolean (Get v "fromAccount") = true ->
  ToBoolean (Get v "amount") = true ->
  Json.ToString (Get v "amount") = Some amount ->
  Json.ToString (Get v "fromAccount") = Some account ->
  let r := Math_random env (random_calls st) in
  let err := sendBatch_error env (send_calls st) in
  let event := withdraw_outcome r (Get v "fromAccount") (Get v "amount") in
  WithdrawFunds.loop_body message env st =
  (Normal Continue,
   {| trace := trace st ++
        [Log Info ("WithdrawFunds: Initiating withdrawal of " ++ amount ++ " from " ++ account)%string [];
         SendBatch [event] err;
         match err with
         | Some eventError =>
             Log Error ("WithdrawFunds: Error sending event for account " ++ account ++ ":")%string
                 [eventError]
         | None =>
             if PrimFloat.ltb threshold r
             then Log Info "WithdrawFunds: Withdrawal succeeded." []
             else Log Error "WithdrawFunds: Withdrawal failed. Compensation event emitted." []
         end];
      random_calls := S (random_calls st);
      send_calls := S (send_calls st);
      res := res st |}).
Proof.
  intros Ht Ha Hm Sa Sb r err event. unfold WithdrawFunds.loop_body, bind.
  rewrite (decode_parsed _ _ _ _ _ message_truthy message_parsed).
  rewrite (destructure3_present _ _ _ _ _ _ (strict_eq_string_present _ _ _ Ht)).
  unfold js_not. rewrite Ht, Ha, Hm. cbn [negb orb].
  rewrite (template_two _ _ _ _ _ _ _ _ Sa Sb).
  subst event r err. unfold withdraw_outcome.
  generalize st; intros [tr rc sc rs].
  unfold try_catch, bind.
  cbv beta iota zeta delta
    [sendBatch context_log context_log_error emit
     Math_random_call ret trace random_calls send_calls res].
  destruct (PrimFloat.ltb threshold (Math_random env rc));
    destruct (sendBatch_error env sc);
    cbv beta iota; rewrite ?(template_one _ _ _ _ _ _ Sb);
    cbv beta iota; repeat rewrite <- app_assoc; reflexivity.
Qed.

End Iterations.

(* ===================================================================== *)
(** ** The step processors as whole handlers *)
(* ===================================================================== *)

(** The handler once the producer exists: the loop, the outer [catch] when
    the loop threw, and [close] in the [finally]. *)
Lemma deposit_handler_run msgs env st :
  new_error env = None ->
  DepositFunds.eventHubTrigger msgs env st =
  (let '(c, st1) := for_of DepositFunds.loop_body msgs env st in
   let st2 := match c with
              | Normal _ => st1
              | Throw error =>
                  add_trace st1 [Log Error "DepositFunds: Error processing messages:" [error]]
              end in
   (match close_error env with None => Normal tt | Some e => Throw e end,
    add_trace st2 [Close (close_error env)])).
Proof.
  intros Hn.
  unfold DepositFunds.eventHubTrigger, bind, new_EventHubProducerClient,
    try_finally, try_catch, close, ret.
  rewrite Hn.
  destruct (for_of DepositFunds.loop_body msgs env st) as [[c|e] st1];
    destruct (close_error env); reflexivity.
Qed.

Lemma withdraw_handler_run msgs env st :
  new_error env = None ->
  WithdrawFunds.eventHubTrigger msgs env st =
  (let '(c, st1) := for_of WithdrawFunds.loop_body msgs env st in
   let st2 := match c with
              | Normal _ => st1
              | Throw error =>
                  add_trace st1 [Log Error "WithdrawFunds: Error processing messages:" [error]]
              end in
   (match close_error env with None => Normal tt | Some e => Throw e end,
    add_trace st2 [Close (close_error env)])).
Proof.
  intros Hn.
  unfold WithdrawFunds.eventHubTrigger, bind, new_EventHubProducerClient,
    try_finally, try_catch, close, ret.
  rewrite Hn.
  destruct (for_of WithdrawFunds.loop_body msgs env st) as [[c|e] st1];
    destruct (close_error env); reflexivity.
Qed.

(** When the constructor throws there is no producer: the handler ends by
    that exception and does nothing else. *)
Lemma deposit_handler_no_producer msgs env st e :
  new_error env = Some e ->
  DepositFunds.eventHubTrigger msgs env st = (Throw e, st).
Proof.
  intros Hn. unfold DepositFunds.eventHubTrigger, bind, new_EventHubProducerClient.
  rewrite Hn. reflexivity.
Qed.

(** *** Nothing but the [finally] closes the producer *)

Lemma quiet_ret A (a : A) : quiet (ret a).
Proof. intros env st. exists []. simpl. now rewrite app_nil_r. Qed.

Lemma quiet_throw A e : quiet (@throw A e).
Proof. intros env st. exists []. simpl. now rewrite app_nil_r. Qed.

Lemma quiet_bind A B (m : M A) (k : A -> M B) :
  quiet m -> (forall a, quiet (k a)) -> quiet (bind m k).
Proof.
  intros Hm Hk env st. unfold bind.
  destruct (Hm env st) as [t1 [E1 C1]].
  destruct (m env st) as [[a|e] st1]; simpl in E1.
  - destruct (Hk a env st1) as [t2 [E2 C2]].
    exists (t1 ++ t2). rewrite E2, E1, app_assoc, closes_app, C1, C2. now split.
  - exists t1. simpl. now split.
Qed.

Lemma quiet_try_catch A (m : M A) (h : JsVal -> M A) :
  quiet m -> (forall e, quiet (h e)) -> quiet (try_catch m h).
Proof.
  intros Hm Hh env st. unfold try_catch.
  destruct (Hm env st) as [t1 [E1 C1]].
  destruct (m env st) as [[a|e] st1]; simpl in E1.
  - exists t1. simpl. now split.
  - destruct (Hh e env st1) as [t2 [E2 C2]].
    exists (t1 ++ t2). rewrite E2, E1, app_assoc, closes_app, C1, C2. now split.
Qed.

Lemma quiet_emit e : is_close e = false -> quiet (emit e).
Proof.
  intros He env st. exists [e]. simpl. split; [reflexivity|].
  unfold closes. simpl. now rewrite He.
Qed.

Lemma quiet_context_log text args : quiet (context_log text args).
Proof. now apply quiet_emit. Qed.

Lemma quiet_context_log_error text args : quiet (context_log_error text args).
Proof. now apply quiet_emit. Qed.

Lemma quiet_sendBatch evs : quiet (sendBatch evs).
Proof.
  intros env st. exists [SendBatch evs (sendBatch_error env (send_calls st))].
  unfold sendBatch. destruct (sendBatch_error env (send_calls st)); simpl; now split.
Qed.

Lemma quiet_Math_random_call : quiet Math_random_call.
Proof. intros env st. exists []. simpl. now rewrite app_nil_r. Qed.

Lemma quiet_JSON_parse_call v : quiet (JSON_parse_call v).
Proof.
  intros env st. exists []. unfold JSON_parse_call.
  destruct (JSON_parse env v); simpl; now rewrite app_nil_r.
Qed.

Lemma quiet_destructure3 v a b c : quiet (destructure3 v a b c).
Proof. destruct v; simpl; first [apply quiet_throw | apply quiet_ret]. Qed.

Lemma quiet_template parts : quiet (template parts).
Proof.
  unfold template. destruct (Json.render parts); [apply quiet_ret | apply quiet_throw].
Qed.

Lemma quiet_for_of body l : (forall m, quiet (body m)) -> quiet (for_of body l).
Proof.
  intros Hb. induction l as [|m l IH]; simpl.
  - apply quiet_ret.
  - apply quiet_bind; [apply Hb|]. intros [|]; [exact IH | apply quiet_ret].
Qed.

(** Decompose a handler body along its syntax. *)
Ltac quiet_step :=
  first
    [ apply quiet_ret
    | apply quiet_throw
    | apply quiet_context_log
    | apply quiet_context_log_error
    | apply quiet_sendBatch
    | apply quiet_Math_random_call
    | apply quiet_JSON_parse_call
    | apply quiet_destructure3
    | apply quiet_template
    | apply quiet_bind; [| intros ?]
    | apply quiet_try_catch; [| intros ?]
    | match goal with
      | |- quiet (match ?x with _ => _ end) => destruct x
      end ].

Lemma quiet_decode tag message : quiet (decode tag message).
Proof. unfold decode. repeat quiet_step. Qed.

Lemma quiet_deposit_loop_body message : quiet (DepositFunds.loop_body message).
Proof.
  unfold DepositFunds.loop_body.
  apply quiet_bind; [apply quiet_decode|]. intros [parsed|]; repeat quiet_step.
Qed.

Lemma quiet_withdraw_loop_body message : quiet (WithdrawFunds.loop_body message).
Proof.
  unfold WithdrawFunds.loop_body.
  apply quiet_bind; [apply quiet_decode|]. intros [parsed|]; repeat quiet_step.
Qed.

(** C8.  In the deposit and in the withdraw processor, once the producer has
    been created, [producerClient.close()] is called exactly once on every
    run, as the last effect of the invocation: whatever the batch, the draws
    and the outcomes of the sendBatch calls, and whether the loop ended
    normally, by [return], or by an exception caught by the outer [catch],
    the trace is the earlier trace, then effects none of which is a close,
    then the close. *)
Theorem step_processors_always_close_producer :
  forall (env : Env) (msgs : list JsVal) (st : State),
    new_error env = None ->
    (exists t,
        trace (snd (DepositFunds.eventHubTrigger msgs env st)) =
        trace st ++ t ++ [Close (close_error env)] /\ closes t = 0) /\
    (exists t,
        trace (snd (WithdrawFunds.eventHubTrigger msgs env st)) =
        trace st ++ t ++ [Close (close_error env)] /\ closes t = 0).
Proof.
  intros env msgs st Hn. split.
  - rewrite (deposit_handler_run msgs env st Hn).
    destruct (quiet_for_of _ msgs quiet_deposit_loop_body env st) as [t [E C]].
    destruct (for_of DepositFunds.loop_body msgs env st) as [[c|e] st1];
      simpl in E; simpl; rewrite E.
    + exists t. rewrite <- app_assoc. now split.
    + exists (t ++ [Log Error "DepositFunds: Error processing messages:" [e]]).
      rewrite <- !app_assoc. split; [reflexivity|].
      rewrite closes_app, C. reflexivity.
  - rewrite (withdraw_handler_run msgs env st Hn).
    destruct (quiet_for_of _ msgs quiet_withdraw_loop_body env st) as [t [E C]].
    destruct (for_of WithdrawFunds.loop_body msgs env st) as [[c|e] st1];
      simpl in E; simpl; rewrite E.
    + exists t. rewrite <- app_assoc. now split.
    + exists (t ++ [Log Error "WithdrawFunds: Error processing messages:" [e]]).
      rewrite <- !app_assoc. split; [reflexivity|].
      rewrite closes_app, C. reflexivity.
Qed.

Lemma step_processors_always_close_producer_witness :
  let env := calm 0.5 in
  let msgs := [JString "null"; wire (StartTransfer "A" "B" 100)] in
  (exists t,
      trace (snd (DepositFunds.eventHubTrigger msgs env initial)) =
      trace initial ++ t ++ [Close (close_error env)] /\ closes t = 0) /\
  (exists t,
      trace (snd (WithdrawFunds.eventHubTrigger msgs env initial)) =
      trace initial ++ t ++ [Close (close_error env)] /\ closes t = 0).
Proof.
  apply (step_processors_always_close_producer (calm 0.5)
           [JString "null"; wire (StartTransfer "A" "B" 100)] initial).
  reflexivity.
Defined.

(** C4.  In the withdraw processor a StartTransfer message that fails the
    required-field check ([fromAccount] or [amount] falsy) ends the
    iteration by [return]: the iteration writes one error log and nothing
    else, and the handler behaves on the whole batch exactly as on the batch
    cut after that message, so no later message is looked at.  The deposit
    processor, on a StartTransfer that fails its check ([toAccount] or
    [amount] falsy), ends the iteration by [continue] and runs the rest of
    the batch from the state it reached. *)
Theorem withdraw_missing_field_aborts_batch :
  forall (env : Env) (st : State) (pre post : list JsVal) (message v : JsVal),
    ToBoolean message = true ->
    JSON_parse env message = inl v ->
    strict_eq_string (Get v "type") "StartTransfer" = true ->
    ToBoolean (Get v "fromAccount") = false \/ ToBoolean (Get v "amount") = false ->
    (forall s,
        WithdrawFunds.loop_body message env s =
        (Normal Return,
         add_trace s [Log Error "WithdrawFunds: Missing required properties in message:"
                          [message]])) /\
    WithdrawFunds.eventHubTrigger (pre ++ message :: post) env st =
    WithdrawFunds.eventHubTrigger (pre ++ [message]) env st /\
    (ToBoolean (Get v "toAccount") = false \/ ToBoolean (Get v "amount") = false ->
     forall s,
       for_of DepositFunds.loop_body (message :: post) env s =
       for_of DepositFunds.loop_body post env
         (add_trace s [Log Error "DepositFunds: Missing required properties in message:"
                           [v]])).
Proof.
  intros env st pre post message v Hm Hp Ht Hf.
  assert (Hw : forall s,
             WithdrawFunds.loop_body message env s =
             (Normal Return,
              add_trace s [Log Error "WithdrawFunds: Missing required properties in message:"
                               [message]])).
  { intros s. apply withdraw_iteration_missing with (v := v); try assumption.
    unfold js_not. destruct Hf as [H|H]; rewrite H; simpl;
      rewrite ?orb_true_r; reflexivity. }
  split; [exact Hw|]. split.
  - unfold WithdrawFunds.eventHubTrigger, bind, try_finally, try_catch.
    destruct (new_EventHubProducerClient env st) as [[[]|e] st0]; [|reflexivity].
    rewrite !for_of_app.
    destruct (for_of WithdrawFunds.loop_body pre env st0) as [[[|]|e] st1];
      try reflexivity.
    simpl. unfold bind. rewrite Hw. reflexivity.
  - intros Hd s. simpl. unfold bind.
    rewrite (deposit_iteration_missing env s message v Hm Hp Ht).
    + reflexivity.
    + unfold js_not. destruct Hd as [H|H]; rewrite H; simpl;
        rewrite ?orb_true_r; reflexivity.
Qed.

Lemma withdraw_missing_field_aborts_batch_witness :
  let env := calm 0.5 in
  let v := JObject [("type", JString "StartTransfer"); ("amount", JNumber 100)] in
  let message := wire v in
  let pre := [wire (StartTransfer "A" "B" 100)] in
  let post := [wire (StartTransfer "C" "D" 7)] in
  (forall s,
      WithdrawFunds.loop_body message env s =
      (Normal Return,
       add_trace s [Log Error "WithdrawFunds: Missing required properties in message:"
                        [message]])) /\
  WithdrawFunds.eventHubTrigger (pre ++ message :: post) env initial =
  WithdrawFunds.eventHubTrigger (pre ++ [message]) env initial /\
  (ToBoolean (Get v "toAccount") = false \/ ToBoolean (Get v "amount") = false ->
   forall s,
     for_of DepositFunds.loop_body (message :: post) env s =
     for_of DepositFunds.loop_body post env
       (add_trace s [Log Error "DepositFunds: Missing required properties in message:"
                         [v]])).
Proof.
  apply (withdraw_missing_field_aborts_batch (calm 0.5) initial
           [wire (StartTransfer "A" "B" 100)] [wire (StartTransfer "C" "D" 7)]
           (wire (JObject [("type", JString "StartTransfer"); ("amount", JNumber 100)]))
           (JObject [("type", JString "StartTransfer"); ("amount", JNumber 100)])).
  - vm_compute. reflexivity.
  - vm_compute. reflexivity.
  - reflexivity.
  - left. reflexivity.
Defined.

(** C10.  Presence is tested by truthiness.  In the initiator a body whose
    [amount] is the number zero, or one of whose accounts is the empty
    string, gets status 400 and no sendBatch call.  In the deposit processor
    a StartTransfer whose [amount] is zero is passed over with one error
    log: no draw, no sendBatch call, and the loop goes on.  The other three
    consumers test in the same way: on a zero [amount] the withdraw
    processor writes its error log and returns, and each compensator writes
    its error log and no reversal line. *)
Theorem falsy_field_counts_as_missing :
  forall (env : Env) (st : State),
    (forall req_body n,
        (Get req_body "amount" = JNumber n /\ PrimFloat.is_zero n = true) \/
        Get req_body "fromAccount" = JString "" \/
        Get req_body "toAccount" = JString "" ->
        exists st',
          ClientFunction.httpTrigger req_body env st = (Normal tt, st') /\
          option_map status (res st') = Some 400%Z /\
          send_attempts (trace st') = send_attempts (trace st) /\
          send_calls st' = send_calls st) /\
    (forall message v n,
        ToBoolean message = true ->
        JSON_parse env message = inl v ->
        Get v "amount" = JNumber n -> PrimFloat.is_zero n = true ->
        (strict_eq_string (Get v "type") "StartTransfer" = true ->
         DepositFunds.loop_body message env st =
         (Normal Continue,
          add_trace st [Log Error "DepositFunds: Missing required properties in message:"
                            [v]]) /\
         WithdrawFunds.loop_body message env st =
         (Normal Return,
          add_trace st [Log Error "WithdrawFunds: Missing required properties in message:"
                            [message]])) /\
        (strict_eq_string (Get v "type") "DepositCompensation" = true ->
         CompensateDeposit.loop_body message env st =
         (Normal Continue,
          add_trace st [Log Error "CompensateDeposit: Missing required properties in message:"
                            [v]])) /\
        (strict_eq_string (Get v "type") "WithdrawCompensation" = true ->
         CompensateWithdraw.loop_body message env st =
         (Normal Continue,
          add_trace st [Log Error "CompensateWithdraw: Missing required properties in message:"
                            [v]]))).
Proof.
  intros env st. split.
  - intros b n H.
    assert (Hb : nullish b = false).
    { destruct b; simpl in *; try reflexivity;
        destruct H as [[H _]|[H|H]]; discriminate H. }
    eexists. split.
    + apply httpTrigger_incomplete; [exact Hb|].
      unfold js_not. destruct H as [[H Z]|[H|H]]; rewrite H; simpl;
        rewrite ?Z; simpl; rewrite ?orb_true_r; reflexivity.
    + simpl. rewrite send_attempts_app. simpl. rewrite app_nil_r.
      repeat split; reflexivity.
  - intros message v n Hm Hp Ha Z.
    assert (F : forall x, js_not x || js_not (Get v "amount") = true).
    { intros x. unfold js_not. rewrite Ha. simpl. rewrite Z. simpl. apply orb_true_r. }
    split; [|split].
    + intros Ht. split.
      * apply deposit_iteration_missing; auto.
      * apply withdraw_iteration_missing with (v := v); auto.
    + intros Ht. apply compensate_deposit_iteration_missing; auto.
    + intros Ht. apply compensate_withdraw_iteration_missing; auto.
Qed.

Lemma falsy_field_counts_as_missing_witness :
  (exists st',
      ClientFunction.httpTrigger
        (JObject [("fromAccount", JString "A"); ("toAccount", JString "B");
                  ("amount", JNumber 0)])
        (calm 0.5) initial = (Normal tt, st') /\
      option_map status (res st') = Some 400%Z /\
      send_attempts (trace st') = send_attempts (trace initial) /\
      send_calls st' = send_calls initial) /\
  DepositFunds.loop_body (wire (StartTransfer "A" "B" 0)) (calm 0.5) initial =
  (Normal Continue,
   add_trace initial [Log Error "DepositFunds: Missing required properties in message:"
                          [StartTransfer "A" "B" 0]]) /\
  WithdrawFunds.loop_body (wire (StartTransfer "A" "B" 0)) (calm 0.5) initial =
  (Normal Return,
   add_trace initial [Log Error "WithdrawFunds: Missing required properties in message:"
                          [wire (StartTransfer "A" "B" 0)]]).
Proof.
  split.
  - apply (proj1 (falsy_field_counts_as_missing (calm 0.5) initial)
             (JObject [("fromAccount", JString "A"); ("toAccount", JString "B");
                       ("amount", JNumber 0)]) 0%float).
    left. split; reflexivity.
  - apply (proj1 (proj2 (falsy_field_counts_as_missing (calm 0.5) initial)
                    (wire (StartTransfer "A" "B" 0)) (StartTransfer "A" "B" 0) 0%float
                    ltac:(vm_compute; reflexivity) ltac:(vm_compute; reflexivity)
                    eq_refl eq_refl)).
    reflexivity.
Defined.

(* ===================================================================== *)
(** ** Whole batches: what the loop reaches, and what stops it *)
(* ===================================================================== *)

(** A valid StartTransfer that the deposit loop reaches, with a sendBatch
    call that resolves: the published events grow by exactly the outcome
    event of the draw, carrying the message's own [toAccount] and [amount],
    and the loop goes on. *)
Lemma deposit_one_outcome_when_reached env st st1 pre message v amount account :
  for_of DepositFunds.loop_body pre env st = (Normal Continue, st1) ->
  ToBoolean message = true ->
  JSON_parse env message = inl v ->
  strict_eq_string (Get v "type") "StartTransfer" = true ->
  ToBoolean (Get v "toAccount") = true ->
  ToBoolean (Get v "amount") = true ->
  Json.ToString (Get v "amount") = Some amount ->
  Json.ToString (Get v "toAccount") = Some account ->
  sendBatch_error env (send_calls st1) = None ->
  exists st2,
    for_of DepositFunds.loop_body (pre ++ [message]) env st = (Normal Continue, st2) /\
    published (trace st2) =
    published (trace st1) ++
    [deposit_outcome (Math_random env (random_calls st1))
                     (Get v "toAccount") (Get v "amount")] /\
    send_attempts (trace st2) =
    send_attempts (trace st1) ++
    [[deposit_outcome (Math_random env (random_calls st1))
                      (Get v "toAccount") (Get v "amount")]].
Proof.
  intros Hpre Hm Hp Ht Ha Hv Sa Sb Hs.
  eexists. split.
  - rewrite for_of_app, Hpre. simpl. unfold bind.
    rewrite (deposit_iteration_valid env st1 message v Hm Hp amount account
               Ht Ha Hv Sa Sb).
    reflexivity.
  - cbn [trace]. rewrite Hs, published_app, send_attempts_app.
    cbn [published send_attempts].
    destruct (PrimFloat.ltb threshold (Math_random env (random_calls st1)));
      split; reflexivity.
Qed.

(** What can stop the deposit loop at a message: nothing, as long as the
    parsed value is not null or undefined and the interpolated fields
    convert to strings.  A falsy message, malformed JSON, another event type
    and a missing field all end the iteration by [continue]. *)
Lemma deposit_iteration_continues env st message :
  (forall v, JSON_parse env message = inl v ->
             nullish v = false /\
             renders (Get v "amount") = true /\ renders (Get v "toAccount") = true) ->
  exists st', DepositFunds.loop_body message env st = (Normal Continue, st').
Proof.
  intros H.
  destruct (ToBoolean message) eqn:Hm.
  2:{ eexists. unfold DepositFunds.loop_body, bind.
      rewrite (decode_falsy _ _ _ _ Hm). reflexivity. }
  destruct (JSON_parse env message) as [v|e] eqn:Hp.
  2:{ eexists. unfold DepositFunds.loop_body, bind.
      rewrite (decode_malformed _ _ _ _ _ Hm Hp). reflexivity. }
  destruct (H v eq_refl) as [Hn [Ra Rt]].
  destruct (strict_eq_string (Get v "type") "StartTransfer") eqn:Ht.
  2:{ eexists. apply (deposit_iteration_foreign env st message v Hm Hp Hn Ht). }
  destruct (js_not (Get v "toAccount") || js_not (Get v "amount")) eqn:Hf.
  { eexists. apply (deposit_iteration_missing env st message v Hm Hp Ht Hf). }
  apply orb_false_elim in Hf. destruct Hf as [Hto Ham].
  unfold js_not in Hto, Ham. apply negb_false_iff in Hto, Ham.
  unfold renders in Ra, Rt.
  destruct (Json.ToString (Get v "amount")) as [sa|] eqn:Sa; [|discriminate Ra].
  destruct (Json.ToString (Get v "toAccount")) as [sb|] eqn:Sb; [|discriminate Rt].
  eexists.
  apply (deposit_iteration_valid env st message v Hm Hp sa sb Ht Hto Ham Sa Sb).
Qed.

(** Hence a deposit batch with no such message is processed to its end. *)
Lemma deposit_loop_completes env msgs :
  (forall message v, In message msgs -> JSON_parse env message = inl v ->
                     nullish v = false /\
                     renders (Get v "amount") = true /\
                     renders (Get v "toAccount") = true) ->
  forall st, exists st', for_of DepositFunds.loop_body msgs env st = (Normal Continue, st').
Proof.
  induction msgs as [|m msgs IH]; intros H st.
  - eexists. reflexivity.
  - destruct (deposit_iteration_continues env st m) as [st1 E].
    { intros v Hp. apply (H m v); [left; reflexivity | exact Hp]. }
    destruct (IH (fun m' v' Hin => H m' v' (or_intror Hin)) st1) as [st2 E2].
    exists st2. simpl. unfold bind. rewrite E. exact E2.
Qed.

(** C1.  The deposit processor on the batch made of the JSON document
    [null] followed by a valid StartTransfer: parsing the first message gives
    [null], destructuring it throws, the outer [catch] ends the loop, and
    the StartTransfer gets no outcome event (no sendBatch call at all).  The
    same StartTransfer alone in its batch gets exactly one. *)
Theorem deposit_null_document_starves_valid_message :
  let start := wire (StartTransfer "A" "B" 100) in
  let env := calm 0.5 in
  DepositFunds.eventHubTrigger [JString "null"; start] env initial =
  (Normal tt,
   add_trace initial
     [Log Error "DepositFunds: Error processing messages:"
          [TypeError "Cannot destructure 'null' as it is null."];
      Close None]) /\
  send_attempts (trace (snd (DepositFunds.eventHubTrigger [JString "null"; start]
                               env initial))) = [] /\
  published (trace (snd (DepositFunds.eventHubTrigger [start] env initial))) =
  [{| body := JObject [("type", JString "DepositCompleted");
                       ("toAccount", JString "B"); ("amount", JNumber 100)] |}].
Proof. vm_compute. repeat split; reflexivity. Qed.

(** C2.  The withdraw compensator on a WithdrawCompensation event of the
    wire format, [{type, fromAccount: "A", amount: 100}]: it reads
    [toAccount], finds it undefined, and logs the message as missing required
    properties; no reversal line is written.  That event is the one the
    withdraw processor itself publishes when the draw fails. *)
Theorem compensate_withdraw_rejects_wire_event :
  let event := WithdrawCompensation "A" 100 in
  CompensateWithdraw.eventHubTrigger [wire event] (calm 0.5) initial =
  (Normal tt,
   add_trace initial
     [Log Error "CompensateWithdraw: Missing required properties in message:"
          [event]]) /\
  published (trace (snd (WithdrawFunds.eventHubTrigger
                           [wire (StartTransfer "A" "B" 100)] (calm 0.125) initial))) =
  [{| body := event |}] /\
  CompensateDeposit.eventHubTrigger [wire (DepositCompensation "B" 100)]
                                    (calm 0.5) initial =
  (Normal tt,
   add_trace initial
     [Log Info "CompensateDeposit: Reverting deposit of 100 from B" []]).
Proof. vm_compute. repeat split; reflexivity. Qed.

(** C3.  Two batches in which a bad message stops the messages after it.
    In the withdraw processor a StartTransfer without [fromAccount] ends the
    handler by [return]: the valid StartTransfer behind it is never
    processed, while the deposit processor, given the same batch, processes
    it.  In every consumer a message that is the JSON document [null] throws
    at the destructuring and the outer [catch] ends the loop: the valid
    compensation event behind it is never acted on. *)
Theorem bad_message_stops_siblings :
  let incomplete := wire (JObject [("type", JString "StartTransfer");
                                   ("amount", JNumber 100)]) in
  let start := wire (StartTransfer "A" "B" 100) in
  let env := calm 0.5 in
  WithdrawFunds.eventHubTrigger [incomplete; start] env initial =
  (Normal tt,
   add_trace initial
     [Log Error "WithdrawFunds: Missing required properties in message:" [incomplete];
      Close None]) /\
  send_attempts (trace (snd (DepositFunds.eventHubTrigger [incomplete; start]
                               env initial))) =
  [[{| body := JObject [("type", JString "DepositCompleted");
                        ("toAccount", JString "B"); ("amount", JNumber 100)] |}]] /\
  send_attempts (trace (snd (WithdrawFunds.eventHubTrigger [start] env initial))) =
  [[{| body := JObject [("type", JString "WithdrawCompleted");
                        ("fromAccount", JString "A"); ("amount", JNumber 100)] |}]] /\
  CompensateDeposit.eventHubTrigger
    [JString "null"; wire (DepositCompensation "B" 100)] env initial =
  (Normal tt,
   add_trace initial
     [Log Error "CompensateDeposit: Error processing messages:"
          [TypeError "Cannot destructure 'null' as it is null."]]) /\
  send_attempts (trace (snd (WithdrawFunds.eventHubTrigger [JString "null"; start]
                               env initial))) = [].
Proof. vm_compute. repeat split; reflexivity. Qed.

(* ===================================================================== *)
(** ** The decode step and the transport wrapping *)
(* ===================================================================== *)

(** The serialisation of an object is never the empty string, and neither
    is a quoted string: both are truthy messages. *)
Lemma wire_object_truthy props : ToBoolean (wire (JObject props)) = true.
Proof. reflexivity. Qed.

Lemma transport_wrap_object_truthy props :
  ToBoolean (transport_wrap (JObject props)) = true.
Proof. reflexivity. Qed.

(** In the reference model a pass of [JSON.parse] over a quoted string gives
    the string back: the first pass over a wrapped document only strips the
    wrapping. *)
Lemma encode_items_low n items :
  Json.is_high n = false ->
  Json.encode_items (Json.Unit16 n :: items) =
  String.append (Json.utf8 n) (Json.encode_items items).
Proof.
  intros H. cbn [Json.encode_items]. destruct items as [|[c|lo] rest]; try reflexivity.
  rewrite H. reflexivity.
Qed.

Lemma string_items_quote_body s :
  exists items,
    Json.string_items (Json.quote_body s) = Some (items, "") /\
    Json.encode_items items = s.
Proof.
  induction s as [|c s [items [IH1 IH2]]].
  - exists []. split; reflexivity.
  - destruct c as [[] [] [] [] [] [] [] []];
      cbn -[Json.encode_items]; rewrite IH1;
      (eexists; split; [reflexivity|]);
      first [ rewrite encode_items_low by reflexivity; cbn; rewrite IH2; reflexivity
            | cbn [Json.encode_items]; rewrite IH2; reflexivity ].
Qed.

Lemma parse_quote s : Json.parse (JString (Json.quote s)) = inl (JString s).
Proof.
  unfold Json.parse. cbn [Json.ToString]. unfold Json.parse_text.
  destruct (2 * String.length (Json.quote s) + 2) as [|fuel] eqn:E; [lia|].
  unfold Json.quote. cbn -[Json.string_items Json.quote_body].
  unfold Json.parse_string.
  destruct (string_items_quote_body s) as [items [H1 H2]].
  rewrite H1, H2. reflexivity.
Qed.

Lemma parse_transport_wrap_object props :
  Json.parse (transport_wrap (JObject props)) = inl (wire (JObject props)).
Proof. unfold transport_wrap, wire. cbn [Json.stringify]. apply parse_quote. Qed.

(** A string has none of the properties the consumers read. *)
Lemma Get_string s k : Get (JString s) k = JUndefined.
Proof. reflexivity. Qed.

(** C5, as stated, fails: the consumers' decode step applied to the
    two-pass wrapping of [{type: "StartTransfer", fromAccount: "A",
    toAccount: "B", amount: 100}] does not yield that event.  It yields the
    inner JSON document as a string, on which [type], [fromAccount],
    [toAccount] and [amount] all read undefined. *)
Lemma two_pass_wrapping_is_not_decoded :
  let event := StartTransfer "A" "B" 100 in
  let decoded := decode "DepositFunds" (transport_wrap event) (calm 0.5) initial in
  decoded <> (Normal (Some event), initial) /\
  decoded = (Normal (Some (wire event)), initial) /\
  Get (wire event) "type" = JUndefined /\
  Get (wire event) "fromAccount" = JUndefined /\
  Get (wire event) "toAccount" = JUndefined /\
  Get (wire event) "amount" = JUndefined /\
  Get event "type" = JString "StartTransfer".
Proof.
  vm_compute. split; [intros H; discriminate H|]. repeat split; reflexivity.
Qed.

(* ===================================================================== *)
(** ** Rounding to binary64, after [SpecFloat.binary_round] *)
(* ===================================================================== *)

Section Rounding.

Import SpecFloat.
Local Open Scope Z_scope.

Lemma iter_pos_nat A (f : A -> A) p x :
  iter_pos f p x = Nat.iter (Pos.to_nat p) f x.
Proof.
  revert x. induction p as [p IH|p IH|]; intros x; cbn [iter_pos].
  - rewrite !IH, Pos2Nat.inj_xI.
    replace (S (2 * Pos.to_nat p))%nat with (Pos.to_nat p + (Pos.to_nat p + 1))%nat by lia.
    rewrite !Nat.iter_add. reflexivity.
  - rewrite !IH, Pos2Nat.inj_xO.
    replace (2 * Pos.to_nat p)%nat with (Pos.to_nat p + Pos.to_nat p)%nat by lia.
    rewrite Nat.iter_add. reflexivity.
  - reflexivity.
Qed.

Lemma shr_1_nonneg m r s :
  0 <= m ->
  shr_1 (Build_shr_record m r s) = Build_shr_record (m / 2) (Z.odd m) (r || s).
Proof.
  intros H. rewrite <- Z.div2_div.
  destruct m as [|[p|p|]|p]; try reflexivity; lia.
Qed.

Lemma sticky_step m k :
  0 <= m -> 0 <= k ->
  Z.odd (m / 2 ^ k) || negb (m mod 2 ^ k =? 0) = negb (m mod 2 ^ (k + 1) =? 0).
Proof.
  intros Hm Hk.
  assert (P : 0 < 2 ^ k) by (apply Z.pow_pos_nonneg; lia).
  rewrite Z.pow_add_r, Z.pow_1_r by lia.
  rewrite Z.rem_mul_r by lia.
  rewrite Zmod_odd.
  pose proof (Z.mod_pos_bound m (2 ^ k) P) as Hb.
  destruct (Z.odd (m / 2 ^ k)); cbn [orb].
  - symmetry. apply negb_true_iff, Z.eqb_neq. lia.
  - f_equal. f_equal. lia.
Qed.

Lemma shr_iter m n :
  0 <= m ->
  Nat.iter (S n) shr_1 (Build_shr_record m false false) =
  Build_shr_record (m / 2 ^ Z.of_nat (S n)) (Z.odd (m / 2 ^ Z.of_nat n))
                   (negb (m mod 2 ^ Z.of_nat n =? 0)).
Proof.
  intros Hm. induction n as [|n IH].
  - cbn [Nat.iter]. rewrite shr_1_nonneg by lia.
    change (2 ^ Z.of_nat 0) with 1. change (2 ^ Z.of_nat 1) with 2.
    rewrite Z.div_1_r, Z.mod_1_r. reflexivity.
  - rewrite Nat.iter_succ, IH.
    assert (P : 0 < 2 ^ Z.of_nat n) by (apply Z.pow_pos_nonneg; lia).
    assert (P' : 0 < 2 ^ Z.of_nat (S n)) by (apply Z.pow_pos_nonneg; lia).
    rewrite shr_1_nonneg by (apply Z.div_pos; lia).
    f_equal.
    + rewrite Z.div_div by lia. f_equal.
      rewrite (Nat2Z.inj_succ (S n)), Z.pow_succ_r by lia. lia.
    + rewrite (Nat2Z.inj_succ n), <- Z.add_1_r. apply sticky_step; lia.
Qed.

Lemma shr_big m e n :
  0 <= m -> 0 < n ->
  shr (Build_shr_record m false false) e n =
  (Build_shr_record (m / 2 ^ n) (Z.odd (m / 2 ^ (n - 1)))
                    (negb (m mod 2 ^ (n - 1) =? 0)), e + n).
Proof.
  intros Hm Hn. destruct n as [|p|p]; try lia.
  unfold shr. rewrite iter_pos_nat.
  destruct (Pos.to_nat p) as [|k] eqn:E; [lia|].
  rewrite shr_iter by lia.
  assert (Z.pos p = Z.of_nat (S k)) by lia.
  rewrite H. repeat f_equal; lia.
Qed.

Lemma digits2_pos_size p : digits2_pos p = Pos.size p.
Proof. induction p; cbn; congruence. Qed.

Lemma digits2_log2 p : Z.pos (digits2_pos p) = Z.log2 (Z.pos p) + 1.
Proof.
  rewrite digits2_pos_size. destruct p; cbn [Z.log2 Pos.size]; lia.
Qed.

Lemma fexp_64 e : fexp 53 1024 e = Z.max (e - 53) (-1074).
Proof. reflexivity. Qed.

Lemma shl_align_none mx ex e' : ex <= e' -> shl_align mx ex e' = (mx, ex).
Proof. intros H. unfold shl_align. destruct (e' - ex) eqn:E; try reflexivity; lia. Qed.

Lemma binary_round_big sx (mx : positive) ex :
  ex <= -1076 ->
  let d := Z.log2 (Zpos mx) + 1 in
  let e1 := Z.max (d + ex - 53) (-1074) in
  let n := e1 - ex in
  binary_round 53 1024 sx mx ex =
  round_state sx (Zpos mx / 2 ^ n) (Z.odd (Zpos mx / 2 ^ (n - 1)))
              (negb (Zpos mx mod 2 ^ (n - 1) =? 0)) e1.
Proof.
  intros Hex d e1 n.
  unfold binary_round. rewrite fexp_64, digits2_log2. fold d. fold e1.
  rewrite shl_align_none by lia.
  unfold binary_round_aux.
  unfold shr_fexp at 1. cbn [Zdigits2 shr_record_of_loc].
  rewrite fexp_64, digits2_log2. fold d. fold e1. fold n.
  rewrite shr_big by lia.
  replace (ex + n) with e1 by lia.
  reflexivity.
Qed.

Lemma round_state_keep sx m1 r s e1 (M : positive) :
  round_nearest_even m1 (loc_of_shr_record (Build_shr_record m1 r s)) = Zpos M ->
  Zpos M < 2 ^ 53 -> -1074 <= e1 <= 971 ->
  round_state sx m1 r s e1 = S754_finite sx M e1.
Proof.
  intros Hr HM He. unfold round_state. rewrite Hr.
  unfold shr_fexp. cbn [Zdigits2 shr_record_of_loc]. rewrite fexp_64, digits2_log2.
  assert (Z.log2 (Zpos M) < 53) by (apply Z.log2_lt_pow2; lia).
  unfold shr.
  destruct (Z.max (Z.log2 (Z.pos M) + 1 + e1 - 53) (-1074) - e1) eqn:E; try lia;
    cbn [shr_m]; destruct (e1 <=? 1024 - 53) eqn:L;
    try reflexivity; apply Z.leb_gt in L; lia.
Qed.

Lemma round_state_carry sx m1 r s e1 :
  round_nearest_even m1 (loc_of_shr_record (Build_shr_record m1 r s)) = 2 ^ 53 ->
  -1074 <= e1 <= 970 ->
  round_state sx m1 r s e1 = S754_finite sx (2 ^ 52)%positive (e1 + 1).
Proof.
  intros Hr He. unfold round_state. rewrite Hr.
  change (2 ^ 53) with (Zpos (2 ^ 53)).
  unfold shr_fexp. cbn [Zdigits2 shr_record_of_loc]. rewrite fexp_64.
  replace (Z.max (Z.pos (digits2_pos (2 ^ 53)) + e1 - 53) (-1074) - e1) with 1
    by (change (Z.pos (digits2_pos (2 ^ 53))) with 54; lia).
  cbn [shr iter_pos]. 
  change (shr_1 {| shr_m := Z.pos (2 ^ 53); shr_r := false; shr_s := false |})
    with {| shr_m := Z.pos (2 ^ 52); shr_r := false; shr_s := false |}.
  cbn [shr_m].
  destruct (e1 + 1 <=? 1024 - 53) eqn:L; [reflexivity|apply Z.leb_gt in L; lia].
Qed.

Lemma with_sticky_half N Q : with_sticky N Q / 2 = N / Q.
Proof.
  unfold with_sticky. destruct (N mod Q =? 0).
  - rewrite Z.add_0_r, Z.mul_comm. apply Z.div_mul. lia.
  - symmetry. apply Z.div_unique with 1; lia.
Qed.

Lemma with_sticky_div N Q k :
  0 < Q -> 0 < k ->
  with_sticky N Q / 2 ^ k = (2 * N) / (Q * 2 ^ k).
Proof.
  intros HQ Hk.
  assert (P : 0 < 2 ^ (k - 1)) by (apply Z.pow_pos_nonneg; lia).
  replace (2 ^ k) with (2 * 2 ^ (k - 1))
    by (rewrite <- Z.pow_succ_r by lia; f_equal; lia).
  rewrite <- Z.div_div by lia. rewrite with_sticky_half.
  replace (Q * (2 * 2 ^ (k - 1))) with (2 * Q * 2 ^ (k - 1)) by ring.
  rewrite <- (Z.div_div (2 * N)) by lia.
  rewrite Z.div_mul_cancel_l by lia. reflexivity.
Qed.

Lemma with_sticky_mod0 N Q k :
  0 < Q -> 0 < k ->
  (with_sticky N Q mod 2 ^ k =? 0) = ((2 * N) mod (Q * 2 ^ k) =? 0).
Proof.
  intros HQ Hk.
  assert (P : 0 < 2 ^ (k - 1)) by (apply Z.pow_pos_nonneg; lia).
  assert (E2 : 2 ^ k = 2 * 2 ^ (k - 1))
    by (rewrite <- Z.pow_succ_r by lia; f_equal; lia).
  apply Bool.eq_iff_eq_true. rewrite !Z.eqb_eq.
  rewrite !Z.mod_divide by lia.
  pose proof (Z.div_mod N Q ltac:(lia)) as DM.
  pose proof (Z.mod_pos_bound N Q HQ) as Hb.
  unfold with_sticky. split; intros [t Ht].
  - rewrite E2 in Ht.
    assert (S0 : (if N mod Q =? 0 then 0 else 1) = 0).
    { destruct (N mod Q =? 0); [reflexivity|]. set (z := t * 2 ^ (k - 1)) in *.
      assert (2 * (N / Q) + 1 = 2 * z) by (subst z; lia). lia. }
    assert (R0 : N mod Q = 0).
    { destruct (N mod Q =? 0) eqn:E; [apply Z.eqb_eq in E; exact E|discriminate S0]. }
    rewrite S0 in Ht. exists t. rewrite E2.
    rewrite DM at 1. rewrite R0.
    replace (2 * (Q * (N / Q) + 0)) with (Q * (2 * (N / Q) + 0)) by ring.
    rewrite Ht. ring.
  - rewrite E2 in Ht.
    assert (EN : N = (t * 2 ^ (k - 1)) * Q) by lia.
    rewrite EN at 2. rewrite Z.mod_mul by lia. cbn [Z.eqb].
    rewrite EN. rewrite Z.div_mul by lia.
    exists t. rewrite E2. ring.
Qed.

Lemma with_sticky_log2 N Q :
  0 < Q -> Q <= N -> Z.log2 (with_sticky N Q) = Z.log2 ((2 * N) / Q).
Proof.
  intros HQ HN.
  pose proof (Z.div_mod N Q ltac:(lia)) as DM.
  pose proof (Z.mod_pos_bound N Q HQ) as Hb.
  assert (Hq : 0 < N / Q) by (apply Z.div_str_pos; lia).
  assert (L : forall x, x = 2 * (N / Q) \/ x = 2 * (N / Q) + 1 ->
                        Z.log2 x = Z.succ (Z.log2 (N / Q))).
  { intros x [->| ->].
    - apply Z.log2_double; lia.
    - apply Z.log2_succ_double; lia. }
  rewrite (L (with_sticky N Q)), (L (2 * N / Q)); [reflexivity| |].
  - assert (2 * N = Q * (2 * (N / Q)) + 2 * (N mod Q)) by lia.
    destruct (Z_lt_le_dec (2 * (N mod Q)) Q).
    + left. symmetry. apply Z.div_unique with (2 * (N mod Q)); lia.
    + right. symmetry. apply Z.div_unique with (2 * (N mod Q) - Q); lia.
  - unfold with_sticky. destruct (N mod Q =? 0); [left|right]; lia.
Qed.

Lemma binary_round_sticky sx P Q u (w : positive) :
  0 < P -> 0 < Q -> 1075 <= u -> Q <= P * 2 ^ u ->
  Zpos w = with_sticky (P * 2 ^ u) Q ->
  let A := P * 2 ^ (u + 1) in
  let d := Z.log2 (A / Q) + 1 in
  let e1 := Z.max (d - u - 1 - 53) (-1074) in
  let B := Q * 2 ^ (e1 + u) in
  binary_round 53 1024 sx w (- u - 1) =
  round_state sx (A / (2 * B)) (Z.odd (A / B)) (negb (A mod B =? 0)) e1.
Proof.
  intros HP HQ Hu HN Hw A d e1 B.
  assert (EA : A = 2 * (P * 2 ^ u)).
  { unfold A. rewrite Z.pow_add_r by lia. ring. }
  rewrite binary_round_big by lia.
  rewrite Hw, with_sticky_log2 by lia. rewrite <- EA. fold d.
  replace (d + (- u - 1) - 53) with (d - u - 1 - 53) by lia. fold e1.
  assert (He1 : -1074 <= e1) by (unfold e1; lia).
  replace (e1 - (- u - 1)) with (e1 + u + 1) by lia.
  replace (e1 + u + 1 - 1) with (e1 + u) by lia.
  rewrite !with_sticky_div, with_sticky_mod0 by lia.
  rewrite <- EA. fold B.
  replace (Q * 2 ^ (e1 + u + 1)) with (2 * B)
    by (unfold B; rewrite (Z.pow_add_r 2 (e1 + u) 1) by lia; ring).
  reflexivity.
Qed.

Lemma div_bounds A Q :
  0 < Q -> Q <= A ->
  let b := Z.log2 (A / Q) in
  0 <= b /\ Q * 2 ^ b <= A < Q * 2 ^ (b + 1).
Proof.
  intros HQ HA b.
  assert (Hq : 0 < A / Q) by (apply Z.div_str_pos; lia).
  pose proof (Z.log2_spec (A / Q) Hq) as [L U]. fold b in L, U.
  pose proof (Z.log2_nonneg (A / Q)) as Hb. fold b in Hb.
  pose proof (Z.div_mod A Q ltac:(lia)) as DM.
  pose proof (Z.mod_pos_bound A Q HQ) as Hm.
  replace (Z.succ b) with (b + 1) in U by lia.
  split; [exact Hb|]. split; nia.
Qed.

Lemma log2_div_unique A Q b :
  0 < Q -> 0 <= b -> Q * 2 ^ b <= A < Q * 2 ^ (b + 1) -> Z.log2 (A / Q) = b.
Proof.
  intros HQ Hb [L U]. apply Z.log2_unique; [exact Hb|]. split.
  - apply Z.div_le_lower_bound; lia.
  - apply Z.div_lt_upper_bound; [lia|]. replace (Z.succ b) with (b + 1) by lia. lia.
Qed.

Lemma binary_round_scale sx P Q c u u' (w w' : positive) :
  0 < P -> 0 < Q -> 0 < c -> 1075 <= u -> u <= u' -> Q <= P * 2 ^ u ->
  Zpos w = with_sticky (P * 2 ^ u) Q ->
  Zpos w' = with_sticky (c * P * 2 ^ u') (c * Q) ->
  binary_round 53 1024 sx w' (- u' - 1) = binary_round 53 1024 sx w (- u - 1).
Proof.
  intros HP HQ Hc Hu Hu' HN Hw Hw'.
  assert (P2 : 0 < 2 ^ u) by (apply Z.pow_pos_nonneg; lia).
  assert (Pt : 0 < 2 ^ (u' - u)) by (apply Z.pow_pos_nonneg; lia).
  assert (Eu' : 2 ^ u' = 2 ^ (u' - u) * 2 ^ u).
  { rewrite <- Z.pow_add_r by lia. f_equal. lia. }
  assert (HN' : c * Q <= c * P * 2 ^ u').
  { rewrite Eu'. set (x := P * 2 ^ u) in *. set (t := 2 ^ (u' - u)) in *.
    assert (c * Q <= c * x) by (apply Z.mul_le_mono_nonneg_l; lia).
    assert (c * x * 1 <= c * x * t) by (apply Z.mul_le_mono_nonneg_l; nia).
    replace (c * P * (t * 2 ^ u)) with (c * x * t) by (unfold x; ring). lia. }
  rewrite (binary_round_sticky sx P Q u w HP HQ Hu HN Hw).
  rewrite (binary_round_sticky sx (c * P) (c * Q) u' w' ltac:(lia) ltac:(lia) ltac:(lia)
             HN' Hw').
  set (A := P * 2 ^ (u + 1)).
  set (k := c * 2 ^ (u' - u)).
  assert (Hk : 0 < k) by (unfold k; lia).
  assert (EA : c * P * 2 ^ (u' + 1) = k * A).
  { unfold k, A. rewrite !Z.pow_add_r by lia. rewrite Eu'. ring. }
  rewrite EA.
  assert (HA : Q <= A).
  { unfold A. rewrite Z.pow_add_r by lia. lia. }
  destruct (div_bounds A Q HQ HA) as [Hb [L U]].
  set (b := Z.log2 (A / Q)) in *.
  assert (Ed : Z.log2 (k * A / (c * Q)) = b + (u' - u)).
  { apply log2_div_unique; [lia|lia|].
    replace (b + (u' - u) + 1) with ((u' - u) + (b + 1)) by lia.
    replace (b + (u' - u)) with ((u' - u) + b) by lia.
    unfold k. rewrite !Z.pow_add_r by lia.
    set (t := 2 ^ (u' - u)) in *.
    assert (0 < c * t) by lia.
    replace (c * Q * (t * 2 ^ b)) with (c * t * (Q * 2 ^ b)) by ring.
    replace (c * Q * (t * (2 ^ b * 2 ^ 1))) with (c * t * (Q * (2 ^ b * 2 ^ 1))) by ring.
    rewrite Z.pow_add_r in U by lia.
    split.
    - apply Z.mul_le_mono_nonneg_l; lia.
    - apply Z.mul_lt_mono_pos_l; lia. }
  rewrite Ed.
  replace (b + (u' - u) + 1 - u' - 1 - 53) with (b + 1 - u - 1 - 53) by lia.
  set (e1 := Z.max (b + 1 - u - 1 - 53) (-1074)).
  assert (He1 : -1074 <= e1) by (unfold e1; lia).
  set (B := Q * 2 ^ (e1 + u)).
  assert (HB : 0 < B) by (unfold B; apply Z.mul_pos_pos; [lia|apply Z.pow_pos_nonneg; lia]).
  assert (EB : c * Q * 2 ^ (e1 + u') = k * B).
  { unfold k, B. replace (e1 + u') with ((u' - u) + (e1 + u)) by lia.
    rewrite Z.pow_add_r by lia. ring. }
  rewrite EB.
  replace (2 * (k * B)) with (k * (2 * B)) by ring.
  rewrite !Z.div_mul_cancel_l by lia.
  rewrite Z.mul_mod_distr_l by lia.
  replace (k * (A mod B) =? 0) with (A mod B =? 0); [reflexivity|].
  apply Bool.eq_iff_eq_true. rewrite !Z.eqb_eq. nia.
Qed.

Lemma bounded_64 (M : positive) E :
  bounded 53 1024 M E = true ->
  Z.max (Z.log2 (Zpos M) + 1 + E - 53) (-1074) = E /\ E <= 971.
Proof.
  unfold bounded, canonical_mantissa. rewrite fexp_64, digits2_log2.
  intros H. apply andb_true_iff in H. destruct H as [H1 H2].
  apply Z.eqb_eq in H1. apply Z.leb_le in H2. split; [exact H1|lia].
Qed.

Lemma round_up m1 :
  round_nearest_even m1 (loc_of_shr_record (Build_shr_record m1 true true)) = m1 + 1.
Proof. reflexivity. Qed.

Lemma round_down m1 s :
  round_nearest_even m1 (loc_of_shr_record (Build_shr_record m1 false s)) = m1.
Proof. destruct s; reflexivity. Qed.

Lemma binary_round_close sx P Q u (w M : positive) E :
  0 < P -> 0 < Q -> 1075 <= u ->
  Zpos w = with_sticky (P * 2 ^ u) Q ->
  bounded 53 1024 M E = true ->
  let A := P * 2 ^ (u + 1) in
  let T := Q * 2 ^ (E + u + 1) in
  (2 * Zpos M - 1) * T < 2 * A < (2 * Zpos M + 1) * T ->
  (Zpos M = 2 ^ 52 -> -1074 < E -> (4 * Zpos M - 1) * T < 4 * A) ->
  binary_round 53 1024 sx w (- u - 1) = S754_finite sx M E.
Proof.
  intros HP HQ Hu Hw Hbd A T [CL CU] CQ.
  destruct (bounded_64 M E Hbd) as [Hcan HE].
  set (dM := Z.log2 (Zpos M) + 1) in *.
  assert (HdM : 1 <= dM) by (pose proof (Z.log2_nonneg (Zpos M)); lia).
  assert (HElo : -1074 <= E) by lia.
  assert (HdM53 : dM <= 53) by lia.
  pose proof (Z.log2_spec (Zpos M) ltac:(lia)) as [ML MU].
  replace (Z.log2 (Zpos M)) with (dM - 1) in ML by lia.
  replace (Z.succ (Z.log2 (Zpos M))) with dM in MU by lia.
  assert (P2 : 0 < 2 ^ u) by (apply Z.pow_pos_nonneg; lia).
  set (pE := 2 ^ (E + u)).
  assert (HpE : 2 <= pE).
  { unfold pE. change 2 with (2 ^ 1) at 1. apply Z.pow_le_mono_r; lia. }
  assert (ET : T = 2 * (Q * pE)).
  { unfold T, pE. rewrite (Z.pow_add_r 2 (E + u) 1) by lia. ring. }
  assert (EA : A = 2 * (P * 2 ^ u)).
  { unfold A. rewrite Z.pow_add_r by lia. ring. }
  assert (HT : 0 < T) by nia.
  assert (HN : Q <= P * 2 ^ u) by nia.
  rewrite (binary_round_sticky sx P Q u w HP HQ Hu HN Hw). fold A.
  assert (HA : Q <= A) by lia.
  destruct (div_bounds A Q HQ HA) as [Hb [L U]].
  set (b := Z.log2 (A / Q)) in *.
  (* the binary exponent of the quotient *)
  assert (Pd : 0 < 2 ^ (dM - 1)) by (apply Z.pow_pos_nonneg; lia).
  assert (EdM : 2 ^ dM = 2 * 2 ^ (dM - 1)).
  { rewrite <- Z.pow_succ_r by lia. f_equal. lia. }
  assert (Bhi : b < dM + (E + u + 1)).
  { apply Z.nle_gt. intros C.
    assert (2 ^ (dM + (E + u + 1)) <= 2 ^ b) by (apply Z.pow_le_mono_r; lia).
    rewrite Z.pow_add_r in H by lia.
    assert (Q * (2 ^ dM * 2 ^ (E + u + 1)) <= Q * 2 ^ b)
      by (apply Z.mul_le_mono_nonneg_l; lia).
    replace (Q * (2 ^ dM * 2 ^ (E + u + 1))) with (2 ^ dM * T) in H0 by (unfold T; ring).
    nia. }
  assert (Blo : dM + (E + u + 1) - 2 <= b).
  { apply Z.nlt_ge. intros C.
    assert (2 ^ (b + 1) <= 2 ^ (dM - 1 + (E + u))) by (apply Z.pow_le_mono_r; lia).
    rewrite (Z.pow_add_r 2 (dM - 1) (E + u)) in H by lia. fold pE in H.
    assert (Q * 2 ^ (b + 1) <= Q * (2 ^ (dM - 1) * pE))
      by (apply Z.mul_le_mono_nonneg_l; lia).
    nia. }
  destruct (Z.eq_dec (Z.max (b + 1 - u - 1 - 53) (-1074)) E) as [Ee|Ne].
  - (* same binade *)
    rewrite Ee. fold pE. set (B := Q * pE) in *.
    assert (HB : 0 < B) by (unfold B; nia).
    assert (CL' : (2 * Zpos M - 1) * B < A) by nia.
    assert (CU' : A < (2 * Zpos M + 1) * B) by nia.
    assert (HM53 : Zpos M < 2 ^ 53).
    { assert (2 ^ dM <= 2 ^ 53) by (apply Z.pow_le_mono_r; lia). lia. }
    apply round_state_keep; [|exact HM53|lia].
    destruct (Z_lt_le_dec A (2 * Zpos M * B)) as [Lt|Ge].
    + assert (E1 : A / B = 2 * (Zpos M - 1) + 1).
      { symmetry. apply Z.div_unique with (A - (2 * Zpos M - 1) * B); nia. }
      assert (E2 : A mod B = A - (2 * Zpos M - 1) * B).
      { symmetry. apply Z.mod_unique with (2 * Zpos M - 1); nia. }
      assert (E3 : A / (2 * B) = Zpos M - 1).
      { symmetry. apply Z.div_unique with (A - (Zpos M - 1) * (2 * B)); nia. }
      rewrite E1, E2, E3, Z.odd_odd.
      replace (A - (2 * Z.pos M - 1) * B =? 0) with false
        by (symmetry; apply Z.eqb_neq; lia).
      cbn [negb]. rewrite round_up. lia.
    + assert (E1 : A / B = 2 * Zpos M).
      { symmetry. apply Z.div_unique with (A - 2 * Zpos M * B); nia. }
      assert (E3 : A / (2 * B) = Zpos M).
      { symmetry. apply Z.div_unique with (A - Zpos M * (2 * B)); nia. }
      rewrite E1, E3, Z.odd_even. apply round_down.
  - (* the quotient is just below a power of two *)
    assert (Eb : b = dM + (E + u + 1) - 2) by lia.
    assert (EdM53 : dM = 53) by lia.
    assert (HE1 : -1074 < E) by lia.
    replace (Z.max (b + 1 - u - 1 - 53) (-1074)) with (E - 1) by lia.
    set (pE' := 2 ^ (E - 1 + u)).
    assert (EpE : pE = 2 * pE').
    { unfold pE, pE'. rewrite <- Z.pow_succ_r by lia. f_equal. lia. }
    assert (HpE' : 0 < pE') by lia.
    set (B := Q * pE') in *.
    assert (HB : 0 < B) by (unfold B; nia).
    assert (ETB : T = 4 * B) by (unfold B; lia).
    assert (AU : A < 2 ^ 52 * T).
    { replace (b + 1) with (52 + (E + u + 1)) in U by lia.
      rewrite Z.pow_add_r in U by lia. unfold T. lia. }
    assert (EM : Zpos M = 2 ^ 52).
    { rewrite EdM53 in ML. change (53 - 1) with 52 in ML. nia. }
    specialize (CQ EM HE1).
    assert (CL' : (4 * Zpos M - 1) * B < A) by nia.
    assert (CU' : A < 4 * Zpos M * B) by nia.
    assert (E1 : A / B = 2 * (2 * Zpos M - 1) + 1).
    { symmetry. apply Z.div_unique with (A - (4 * Zpos M - 1) * B); nia. }
    assert (E2 : A mod B = A - (4 * Zpos M - 1) * B).
    { symmetry. apply Z.mod_unique with (4 * Zpos M - 1); nia. }
    assert (E3 : A / (2 * B) = 2 * Zpos M - 1).
    { symmetry. apply Z.div_unique with (A - (2 * Zpos M - 1) * (2 * B)); nia. }
    rewrite E1, E2, E3, Z.odd_odd.
    replace (A - (4 * Z.pos M - 1) * B =? 0) with false
      by (symmetry; apply Z.eqb_neq; lia).
    cbn [negb].
    rewrite round_state_carry.
    + replace (E - 1 + 1) with E by lia. f_equal.
      apply Pos2Z.inj. rewrite EM. reflexivity.
    + rewrite round_up, EM. reflexivity.
    + lia.
Qed.

End Rounding.

(* ===================================================================== *)
(** ** [Json.of_decimal]: the value decides the result *)
(* ===================================================================== *)

Section Decimals.

Import SpecFloat.
Local Open Scope Z_scope.

Lemma div_eucl_eq a b : Z.div_eucl a b = (a / b, a mod b).
Proof. unfold Z.div, Z.modulo. destruct (Z.div_eucl a b); reflexivity. Qed.

Lemma dec_den_pos e : 0 < dec_den e.
Proof. unfold dec_den. destruct (0 <=? e) eqn:H; [lia|]. apply Z.leb_gt in H. apply Z.pow_pos_nonneg; lia. Qed.

Lemma dec_num_pos m e : 0 < m -> 0 < dec_num m e.
Proof.
  intros H. unfold dec_num. destruct (0 <=? e) eqn:He; [|lia].
  apply Z.leb_le in He. apply Z.mul_pos_pos; [lia|apply Z.pow_pos_nonneg; lia].
Qed.

Lemma den_le_shift P Q : 0 < P -> 0 < Q -> Q <= P * 2 ^ (1100 + Z.log2 Q).
Proof.
  intros HP HQ.
  pose proof (Z.log2_spec Q HQ) as [_ U].
  pose proof (Z.log2_nonneg Q) as Hl.
  assert (2 ^ Z.succ (Z.log2 Q) <= 2 ^ (1100 + Z.log2 Q)) by (apply Z.pow_le_mono_r; lia).
  assert (0 < 2 ^ (1100 + Z.log2 Q)) by (apply Z.pow_pos_nonneg; lia).
  nia.
Qed.

Lemma with_sticky_pos N Q : 0 < Q -> Q <= N -> 0 < with_sticky N Q.
Proof.
  intros HQ HN. unfold with_sticky.
  assert (0 < N / Q) by (apply Z.div_str_pos; lia).
  destruct (N mod Q =? 0); lia.
Qed.

Lemma of_decimal_round neg m e :
  in_range m e ->
  let P := dec_num m e in
  let Q := dec_den e in
  let u := 1100 + Z.log2 Q in
  exists w : positive,
    Zpos w = with_sticky (P * 2 ^ u) Q /\
    Json.of_decimal neg m e =
    FloatOps.SF2Prim (binary_round 53 1024 neg w (- u - 1)).
Proof.
  intros [Hm [G1 G2]] P Q u.
  assert (HQ : 0 < Q) by apply dec_den_pos.
  assert (HP : 0 < P) by (apply dec_num_pos; exact Hm).
  pose proof (den_le_shift P Q HP HQ) as HN. fold u in HN.
  pose proof (with_sticky_pos _ _ HQ HN) as HW.
  destruct (with_sticky (P * 2 ^ u) Q) as [|w|w] eqn:EW; try lia.
  exists w. split; [reflexivity|].
  unfold Json.of_decimal.
  replace (m =? 0) with false by (symmetry; apply Z.eqb_neq; lia).
  replace ((0 <=? e) && (1030 <? Z.log2 m + 3 * e)) with false.
  2:{ symmetry. apply andb_false_iff. destruct (Z.leb_spec 0 e); [right|left; reflexivity].
      apply Z.ltb_ge. auto. }
  replace ((e <? 0) && (Z.log2 m + 1 + 3 * e <? -1080)) with false.
  2:{ symmetry. apply andb_false_iff. destruct (Z.ltb_spec e 0); [right|left; reflexivity].
      apply Z.ltb_ge. auto. }
  replace (if 0 <=? e then (m * 10 ^ e, 1) else (m, 10 ^ (- e))) with (P, Q)
    by (unfold P, Q, dec_num, dec_den; destruct (0 <=? e); reflexivity).
  cbv beta iota. fold u.
  pose proof (Z.log2_nonneg Q).
  rewrite div_eucl_eq, Z.shiftl_mul_pow2 by lia.
  unfold with_sticky in EW. rewrite EW.
  replace (- u - 1) with (- u - 1) by reflexivity.
  destruct neg; reflexivity.
Qed.

Lemma float_eqb_finite f v sg m e :
  PrimFloat.eqb f v = true ->
  FloatOps.Prim2SF v = S754_finite sg m e ->
  f = v.
Proof.
  intros H Hv. rewrite FloatAxioms.eqb_spec, Hv in H.
  apply FloatAxioms.Prim2SF_inj. rewrite Hv.
  unfold SFeqb, SFcompare in H.
  destruct (FloatOps.Prim2SF f) as [s|s| |s1 m1 e1]; try discriminate H.
  - destruct sg; discriminate H.
  - destruct s, sg; discriminate H.
  - destruct s1, sg; try discriminate H;
      destruct (e1 ?= e) eqn:Ec; try discriminate H;
      apply Z.compare_eq in Ec; subst e1;
      destruct (PosDef.Pos.compare_cont Eq m1 m) eqn:Em; try discriminate H;
      apply Pos.compare_eq in Em; subst m1; reflexivity.
Qed.

Lemma float_eqb_refl v sg m e :
  FloatOps.Prim2SF v = S754_finite sg m e -> PrimFloat.eqb v v = true.
Proof.
  intros Hv. rewrite FloatAxioms.eqb_spec, Hv. unfold SFeqb, SFcompare.
  rewrite Z.compare_refl.
  replace (PosDef.Pos.compare_cont Eq m m) with Eq
    by (symmetry; apply Pos.compare_refl).
  destruct sg; reflexivity.
Qed.

Lemma of_decimal_close c e v (M : positive) E :
  in_range c e ->
  FloatOps.Prim2SF v = S754_finite false M E ->
  let P := dec_num c e in
  let Q := dec_den e in
  let p := bin_num M E in
  let q := bin_den E in
  let U := bin_ulp E in
  (2 * p - U) * Q < 2 * (P * q) < (2 * p + U) * Q ->
  (Zpos M = 2 ^ 52 -> (4 * p - U) * Q < 4 * (P * q)) ->
  Json.of_decimal false c e = v.
Proof.
  intros Hr Hv P Q p q U [CL CU] CQ.
  destruct (of_decimal_round false c e Hr) as [w [Hw ->]].
  fold P Q in Hw |- *. set (u := 1100 + Z.log2 Q) in *.
  pose proof (FloatAxioms.Prim2SF_valid v) as Hval. rewrite Hv in Hval.
  cbn [valid_binary] in Hval.
  destruct (bounded_64 M E Hval) as [Hcan HE].
  assert (HQ : 0 < Q) by apply dec_den_pos.
  assert (HP : 0 < P) by (apply dec_num_pos; apply Hr).
  pose proof (Z.log2_nonneg Q) as HlQ.
  assert (Hu : 1100 <= u) by (unfold u; lia).
  assert (HElo : -1074 <= E) by lia.
  rewrite (binary_round_close false P Q u w M E HP HQ ltac:(lia) Hw Hval).
  - rewrite <- Hv. apply FloatAxioms.SF2Prim_Prim2SF.
  - assert (P1 : 0 < 2 ^ (u + 1)) by (apply Z.pow_pos_nonneg; lia).
    unfold p, q, U, bin_num, bin_den, bin_ulp in CL, CU.
    destruct (Z.leb_spec 0 E) as [H0|H0].
    + assert (0 < 2 ^ E) by (apply Z.pow_pos_nonneg; lia).
      replace (2 ^ (E + u + 1)) with (2 ^ E * 2 ^ (u + 1))
        by (rewrite <- Z.pow_add_r by lia; f_equal; lia).
      split; nia.
    + assert (0 < 2 ^ (- E)) by (apply Z.pow_pos_nonneg; lia).
      assert (0 < 2 ^ (E + u + 1)) by (apply Z.pow_pos_nonneg; lia).
      replace (2 ^ (u + 1)) with (2 ^ (- E) * 2 ^ (E + u + 1))
        by (rewrite <- Z.pow_add_r by lia; f_equal; lia).
      split; nia.
  - intros EM _. specialize (CQ EM).
    assert (P1 : 0 < 2 ^ (u + 1)) by (apply Z.pow_pos_nonneg; lia).
    unfold p, q, U, bin_num, bin_den, bin_ulp in CQ.
    destruct (Z.leb_spec 0 E) as [H0|H0].
    + assert (0 < 2 ^ E) by (apply Z.pow_pos_nonneg; lia).
      replace (2 ^ (E + u + 1)) with (2 ^ E * 2 ^ (u + 1))
        by (rewrite <- Z.pow_add_r by lia; f_equal; lia).
      nia.
    + assert (0 < 2 ^ (- E)) by (apply Z.pow_pos_nonneg; lia).
      assert (0 < 2 ^ (E + u + 1)) by (apply Z.pow_pos_nonneg; lia).
      replace (2 ^ (u + 1)) with (2 ^ (- E) * 2 ^ (E + u + 1))
        by (rewrite <- Z.pow_add_r by lia; f_equal; lia).
      nia.
Qed.

Lemma of_decimal_scale neg m e j :
  0 <= j -> in_range m e -> in_range (m * 10 ^ j) (e - j) ->
  Json.of_decimal neg (m * 10 ^ j) (e - j) = Json.of_decimal neg m e.
Proof.
  intros Hj Hr Hr'.
  destruct (of_decimal_round neg m e Hr) as [w [Hw ->]].
  destruct (of_decimal_round neg _ _ Hr') as [w' [Hw' ->]].
  f_equal.
  assert (Hm : 0 < m) by apply Hr.
  assert (Pj : 0 < 10 ^ j) by (apply Z.pow_pos_nonneg; lia).
  unfold dec_num, dec_den in *.
  destruct (Z.leb_spec 0 (e - j)) as [H1|H1]; destruct (Z.leb_spec 0 e) as [H2|H2]; try lia.
  - replace (m * 10 ^ j * 10 ^ (e - j)) with (m * 10 ^ e) in Hw'.
    + rewrite <- Hw in Hw'. injection Hw' as ->. reflexivity.
    + replace e with (j + (e - j)) at 1 by lia. rewrite Z.pow_add_r by lia. ring.
  - set (c := 10 ^ (- (e - j))) in *.
    assert (Hc : 0 < c) by (apply Z.pow_pos_nonneg; lia).
    assert (Pe : 0 < 10 ^ e) by (apply Z.pow_pos_nonneg; lia).
    pose proof (Z.log2_nonneg c).
    change (Z.log2 1) with 0 in *. rewrite Z.add_0_r in *.
    assert (HN : 1 <= m * 10 ^ e * 2 ^ 1100).
    { assert (0 < m * 10 ^ e * 2 ^ 1100); [|lia].
      apply Z.mul_pos_pos; [apply Z.mul_pos_pos; lia|apply Z.pow_pos_nonneg; lia]. }
    assert (Hw2 : Z.pos w' =
                  with_sticky (c * (m * 10 ^ e) * 2 ^ (1100 + Z.log2 c)) (c * 1)).
    { rewrite Hw'. f_equal; [|ring]. f_equal.
      unfold c. replace j with (- (e - j) + e) at 1 by lia.
      rewrite Z.pow_add_r by lia. ring. }
    apply (binary_round_scale neg (m * 10 ^ e) 1 c 1100 (1100 + Z.log2 c) w w');
      try assumption; lia.
  - set (Q := 10 ^ (- e)) in *.
    assert (HQ : 0 < Q) by (apply Z.pow_pos_nonneg; lia).
    assert (EQ : 10 ^ (- (e - j)) = 10 ^ j * Q).
    { unfold Q. rewrite <- Z.pow_add_r by lia. f_equal. lia. }
    rewrite EQ in *.
    pose proof (Z.log2_nonneg Q).
    assert (Hl : Z.log2 Q <= Z.log2 (10 ^ j * Q)) by (apply Z.log2_le_mono; nia).
    assert (HN : Q <= m * 2 ^ (1100 + Z.log2 Q)) by (apply den_le_shift; lia).
    assert (Hw2 : Z.pos w' =
                  with_sticky (10 ^ j * m * 2 ^ (1100 + Z.log2 (10 ^ j * Q))) (10 ^ j * Q)).
    { rewrite Hw'. f_equal. f_equal. ring. }
    apply (binary_round_scale neg m Q (10 ^ j) (1100 + Z.log2 Q)
             (1100 + Z.log2 (10 ^ j * Q)) w w'); try assumption; lia.
Qed.

Lemma of_decimal_sign m e :
  in_range m e ->
  Json.of_decimal true m e = PrimFloat.opp (Json.of_decimal false m e).
Proof.
  intros Hr.
  destruct (of_decimal_round true m e Hr) as [w [Hw ->]].
  destruct (of_decimal_round false m e Hr) as [w' [Hw' ->]].
  rewrite <- Hw in Hw'. injection Hw' as ->.
  unfold binary_round, binary_round_aux.
  destruct (shl_align _ _ _) as [mz ez].
  destruct (shr_fexp _ _ _ _ _) as [mrs e'].
  destruct (shr_fexp _ _ _ _ _) as [mrs' e''].
  destruct (shr_m mrs'); try reflexivity.
  destruct (e'' <=? _); reflexivity.
Qed.

End Decimals.

(* ===================================================================== *)
(** ** Digit strings *)
(* ===================================================================== *)

Section DigitStrings.

Import SpecFloat.
Local Open Scope string_scope.
Local Open Scope Z_scope.

Lemma append_nil_r s : (s ++ "")%string = s.
Proof. induction s; cbn; congruence. Qed.

Lemma append_assoc a b c : ((a ++ b) ++ c = a ++ (b ++ c))%string.
Proof. induction a; cbn; congruence. Qed.

Lemma length_append a b : String.length (a ++ b) = (String.length a + String.length b)%nat.
Proof. induction a; cbn; congruence. Qed.

Lemma all_digits_app a b : all_digits (a ++ b) = all_digits a && all_digits b.
Proof. induction a; cbn; [reflexivity|]. rewrite IHa. apply andb_assoc. Qed.

Lemma take_digits_app a rest :
  all_digits a = true -> no_digit_ahead rest = true ->
  Json.take_digits (a ++ rest) = (a, rest).
Proof.
  intros Ha Hr. induction a as [|c a IH]; cbn in *.
  - destruct rest as [|c r]; [reflexivity|]. cbn in Hr.
    apply negb_true_iff in Hr. cbn. rewrite Hr. reflexivity.
  - apply andb_true_iff in Ha. destruct Ha as [Hc Ha].
    rewrite Hc, (IH Ha). reflexivity.
Qed.

Lemma digits_value_app acc a b :
  Json.digits_value acc (a ++ b) = Json.digits_value (Json.digits_value acc a) b.
Proof. revert acc. induction a; intros acc; cbn; [reflexivity|apply IHa]. Qed.

Lemma digits_value_shift acc s :
  Json.digits_value acc s =
  acc * 10 ^ Z.of_nat (String.length s) + Json.digits_value 0 s.
Proof.
  revert acc. induction s as [|c s IH]; intros acc.
  - cbn. lia.
  - cbn [Json.digits_value String.length]. rewrite IH, (IH (0 * 10 + _)).
    rewrite Nat2Z.inj_succ, Z.pow_succ_r by lia. ring.
Qed.

Lemma all_digits_zeros n : all_digits (Json.zeros n) = true.
Proof. induction n; cbn; [reflexivity|exact IHn]. Qed.

Lemma length_zeros n : String.length (Json.zeros n) = n.
Proof. induction n; cbn; congruence. Qed.

Lemma digits_value_zeros acc n :
  Json.digits_value acc (Json.zeros n) = acc * 10 ^ Z.of_nat n.
Proof.
  revert acc. induction n as [|n IH]; intros acc.
  - cbn. lia.
  - cbn [Json.zeros Json.digits_value]. rewrite IH.
    rewrite Nat2Z.inj_succ, Z.pow_succ_r by lia.
    change (Json.code "0") with 48. ring.
Qed.

Lemma digits_value_bound s :
  all_digits s = true ->
  0 <= Json.digits_value 0 s < 10 ^ Z.of_nat (String.length s).
Proof.
  induction s as [|c s IH]; intros H.
  - cbn. lia.
  - cbn in H. apply andb_true_iff in H. destruct H as [Hc Hs].
    specialize (IH Hs).
    cbn [Json.digits_value String.length]. rewrite digits_value_shift.
    rewrite Nat2Z.inj_succ, Z.pow_succ_r by lia.
    unfold Json.is_digit in Hc. apply andb_true_iff in Hc. destruct Hc as [C1 C2].
    apply Z.leb_le in C1, C2.
    assert (0 < 10 ^ Z.of_nat (String.length s)) by (apply Z.pow_pos_nonneg; lia).
    nia.
Qed.

(** A digit string without a leading zero has as many digits as its value. *)
Lemma digits_value_lower c s :
  Json.is_digit c = true -> (Json.code c =? 48) = false -> all_digits s = true ->
  10 ^ Z.of_nat (String.length s) <= Json.digits_value 0 (String c s).
Proof.
  intros Hc Hz Hs.
  pose proof (digits_value_bound s Hs) as Hb.
  cbn [Json.digits_value]. rewrite digits_value_shift.
  unfold Json.is_digit in Hc. apply andb_true_iff in Hc. destruct Hc as [C1 C2].
  apply Z.leb_le in C1, C2. apply Z.eqb_neq in Hz.
  assert (0 < 10 ^ Z.of_nat (String.length s)) by (apply Z.pow_pos_nonneg; lia).
  nia.
Qed.

Lemma all_digits_uint d : all_digits (NilEmpty.string_of_uint d) = true.
Proof. induction d; cbn; try reflexivity; exact IHd. Qed.

Lemma digits_value_uint_acc d acc :
  Json.digits_value (Zpos acc) (NilEmpty.string_of_uint d) = Zpos (Pos.of_uint_acc d acc).
Proof.
  revert acc. induction d; intros acc;
    cbn [NilEmpty.string_of_uint Json.digits_value Pos.of_uint_acc];
    try reflexivity; rewrite <- IHd; f_equal;
    match goal with
    | |- context [Json.code ?c] =>
        let v := eval vm_compute in (Json.code c) in change (Json.code c) with v
    end; lia.
Qed.

Lemma digits_value_uint d :
  Json.digits_value 0 (NilEmpty.string_of_uint d) = Z.of_N (Pos.of_uint d).
Proof.
  induction d; cbn [NilEmpty.string_of_uint Json.digits_value Pos.of_uint];
    try reflexivity; try exact IHd;
    cbn [Z.of_N]; rewrite <- digits_value_uint_acc; f_equal.
Qed.

Lemma to_uint_head p :
  exists c s, NilEmpty.string_of_uint (Pos.to_uint p) = String c s /\
              Json.is_digit c = true /\ (Json.code c =? 48) = false.
Proof.
  pose proof (DecimalPos.Unsigned.to_of (Pos.to_uint p)) as H.
  rewrite DecimalPos.Unsigned.of_to in H. cbn [N.to_uint] in H.
  pose proof (DecimalPos.Unsigned.to_uint_nonzero p) as Hz.
  unfold Decimal.unorm in H.
  destruct (Decimal.nzhead (Pos.to_uint p)) eqn:E.
  - exfalso. apply Hz. rewrite H. reflexivity.
  - exfalso. apply (DecimalFacts.nzhead_nonzero _ _ E).
  - rewrite H; cbn; eexists; eexists; repeat split.
  - rewrite H; cbn; eexists; eexists; repeat split.
  - rewrite H; cbn; eexists; eexists; repeat split.
  - rewrite H; cbn; eexists; eexists; repeat split.
  - rewrite H; cbn; eexists; eexists; repeat split.
  - rewrite H; cbn; eexists; eexists; repeat split.
  - rewrite H; cbn; eexists; eexists; repeat split.
  - rewrite H; cbn; eexists; eexists; repeat split.
  - rewrite H; cbn; eexists; eexists; repeat split.
Qed.

Lemma digits_of_pos z :
  0 < z ->
  exists c s, Json.digits_of z = String c s /\
              Json.is_digit c = true /\ (Json.code c =? 48) = false /\
              all_digits s = true /\
              Json.digits_value 0 (String c s) = z.
Proof.
  intros Hz. destruct z as [|p|p]; try lia.
  unfold Json.digits_of. cbn [Z.to_N N.to_uint].
  destruct (to_uint_head p) as [c [s [E [Hc Hn]]]].
  assert (E' : NilZero.string_of_uint (Pos.to_uint p) = String c s).
  { unfold NilZero.string_of_uint. destruct (Pos.to_uint p); try exact E. discriminate E. }
  exists c, s. rewrite E'. repeat split; try assumption.
  - pose proof (all_digits_uint (Pos.to_uint p)) as A. rewrite E in A.
    cbn in A. apply andb_true_iff in A. apply A.
  - rewrite <- E, digits_value_uint, DecimalPos.Unsigned.of_to. reflexivity.
Qed.

Lemma digits_of_all_digits z : 0 <= z -> all_digits (Json.digits_of z) = true.
Proof.
  intros Hz. destruct (Z.eq_dec z 0) as [->|Hn]; [reflexivity|].
  destruct (digits_of_pos z ltac:(lia)) as [c [s [E [Hc [_ [Hs _]]]]]].
  rewrite E. cbn. rewrite Hc, Hs. reflexivity.
Qed.

Lemma digits_of_value z : 0 <= z -> Json.digits_value 0 (Json.digits_of z) = z.
Proof.
  intros Hz. destruct (Z.eq_dec z 0) as [->|Hn]; [reflexivity|].
  destruct (digits_of_pos z ltac:(lia)) as [c [s [E [_ [_ [_ Hv]]]]]].
  rewrite E. exact Hv.
Qed.

Lemma digits_of_length z :
  0 < z ->
  let k := Z.of_nat (String.length (Json.digits_of z)) in
  1 <= k /\ 10 ^ (k - 1) <= z < 10 ^ k.
Proof.
  intros Hz k.
  destruct (digits_of_pos z Hz) as [c [s [E [Hc [Hn [Hs Hv]]]]]].
  assert (Ek : k = Z.of_nat (String.length s) + 1).
  { unfold k. rewrite E. cbn [String.length]. lia. }
  split; [lia|]. rewrite Ek.
  replace (Z.of_nat (String.length s) + 1 - 1) with (Z.of_nat (String.length s)) by lia.
  split.
  - rewrite <- Hv. apply digits_value_lower; assumption.
  - assert (A : all_digits (String c s) = true) by (cbn; rewrite Hc, Hs; reflexivity).
    pose proof (digits_value_bound _ A) as B. rewrite Hv in B.
    cbn [String.length] in B. rewrite Nat2Z.inj_succ in B.
    replace (Z.succ (Z.of_nat (String.length s))) with (Z.of_nat (String.length s) + 1) in B by lia.
    lia.
Qed.

End DigitStrings.

(* ===================================================================== *)
(** ** [Json.Number_toString]: the digits chosen denote the number *)
(* ===================================================================== *)

Section Printing.

Import SpecFloat.
Local Open Scope Z_scope.

Lemma up10_pos e : 0 < up10 e.
Proof. unfold up10. destruct (Z.leb_spec 0 e); [apply Z.pow_pos_nonneg|]; lia. Qed.

Lemma dec_num_up10 m e : dec_num m e = m * up10 e.
Proof. unfold dec_num, up10. destruct (0 <=? e); lia. Qed.

Lemma pow10_add a b :
  up10 (a + b) * (dec_den a * dec_den b) = up10 a * up10 b * dec_den (a + b).
Proof.
  unfold up10, dec_den.
  destruct (Z.leb_spec 0 a) as [Ha|Ha]; destruct (Z.leb_spec 0 b) as [Hb|Hb];
    destruct (Z.leb_spec 0 (a + b)) as [Hc|Hc]; try lia.
  - rewrite Z.pow_add_r by lia. ring.
  - assert (E : 10 ^ a = 10 ^ (a + b) * 10 ^ (- b))
      by (rewrite <- Z.pow_add_r by lia; f_equal; lia).
    rewrite E. ring.
  - assert (E : 10 ^ (- b) = 10 ^ a * 10 ^ (- (a + b)))
      by (rewrite <- Z.pow_add_r by lia; f_equal; lia).
    rewrite E. ring.
  - assert (E : 10 ^ b = 10 ^ (a + b) * 10 ^ (- a))
      by (rewrite <- Z.pow_add_r by lia; f_equal; lia).
    rewrite E. ring.
  - assert (E : 10 ^ (- a) = 10 ^ b * 10 ^ (- (a + b)))
      by (rewrite <- Z.pow_add_r by lia; f_equal; lia).
    rewrite E. ring.
  - assert (E : 10 ^ (- (a + b)) = 10 ^ (- a) * 10 ^ (- b))
      by (rewrite <- Z.pow_add_r by lia; f_equal; lia).
    rewrite E. ring.
Qed.

Lemma first_scale_spec fuel p q j :
  0 < p -> 1 <= j -> p * 10 ^ (j - 1) < q -> q <= p * 10 ^ (j + Z.of_nat fuel - 1) ->
  let r := Json.first_scale fuel p q j in
  j <= r /\ q <= p * 10 ^ r /\ p * 10 ^ (r - 1) < q.
Proof.
  revert j. induction fuel as [|fuel IH]; intros j Hp Hj Hlo Hhi.
  - exfalso. replace (j + Z.of_nat 0 - 1) with (j - 1) in Hhi by lia. lia.
  - cbn [Json.first_scale]. destruct (Z.leb_spec q (p * 10 ^ j)) as [H|H].
    + cbv zeta. repeat split; try lia; assumption.
    + specialize (IH (j + 1) Hp ltac:(lia)).
      replace (j + 1 - 1) with j in IH by lia.
      replace (j + 1 + Z.of_nat fuel - 1) with (j + Z.of_nat (S fuel) - 1) in IH by lia.
      specialize (IH H Hhi). cbv zeta in IH |- *. lia.
Qed.

Lemma decimal_exponent_spec p q :
  0 < p -> 0 < q -> q <= p * 10 ^ 400 ->
  let n := Json.decimal_exponent p q in
  up10 (n - 1) * q <= p * dec_den (n - 1) /\ p * dec_den n < up10 n * q.
Proof.
  intros Hp Hq Hb n. unfold Json.decimal_exponent in n.
  destruct (Z.leb_spec q p) as [H|H].
  - assert (Hd : 0 < p / q) by (apply Z.div_str_pos; lia).
    destruct (digits_of_length (p / q) Hd) as [Hk [L U]]. fold n in Hk, L, U.
    pose proof (Z.div_mod p q ltac:(lia)) as DM.
    pose proof (Z.mod_pos_bound p q Hq) as Hm.
    unfold up10, dec_den.
    replace (0 <=? n - 1) with true by (symmetry; apply Z.leb_le; lia).
    replace (0 <=? n) with true by (symmetry; apply Z.leb_le; lia).
    split; nia.
  - pose proof (first_scale_spec 400 p q 1 Hp ltac:(lia)) as F.
    change (10 ^ (1 - 1)) with 1 in F. rewrite Z.mul_1_r in F.
    specialize (F H Hb). cbv zeta in F.
    set (j := Json.first_scale 400 p q 1) in *.
    destruct F as [F1 [F2 F3]].
    unfold up10, dec_den.
    replace (0 <=? n - 1) with false by (symmetry; apply Z.leb_gt; lia).
    replace (- (n - 1)) with j by lia.
    destruct (Z.leb_spec 0 n) as [Hn|Hn].
    + assert (j = 1) by lia. replace n with 0 by lia. change (10 ^ 0) with 1. lia.
    + replace (- n) with (j - 1) by lia. lia.
Qed.

Lemma shortest_eq fuel v p q n k :
  Json.shortest fuel v p q n k =
  let scale := n - k in
  let num := cnum p scale in
  let den := cden q scale in
  let lo := num / den in
  let rem := num mod den in
  match fuel with
  | O => (lo, scale)
  | S fuel' =>
      match accepts v lo scale, accepts v (lo + 1) scale with
      | true, true => if 2 * rem <=? den then (lo, scale) else (lo + 1, scale)
      | true, false => (lo, scale)
      | false, true => (lo + 1, scale)
      | false, false => Json.shortest fuel' v p q n (k + 1)
      end
  end.
Proof.
  unfold cnum, cden, dec_den, up10, accepts.
  destruct fuel; cbn [Json.shortest]; destruct (0 <=? n - k);
    rewrite ?Z.mul_1_r; rewrite div_eucl_eq; reflexivity.
Qed.

Lemma shortest_spec fuel v p q n k :
  (exists j, (j < fuel)%nat /\
     let sc := n - (k + Z.of_nat j) in
     let lo := cnum p sc / cden q sc in
     accepts v lo sc = true \/ accepts v (lo + 1) sc = true) ->
  exists j c, (j < fuel)%nat /\
     let sc := n - (k + Z.of_nat j) in
     let lo := cnum p sc / cden q sc in
     (c = lo \/ c = lo + 1) /\
     Json.shortest fuel v p q n k = (c, sc) /\
     accepts v c sc = true.
Proof.
  revert k. induction fuel as [|fuel IH]; intros k [j [Hj H]]; [lia|].
  rewrite shortest_eq. cbv zeta.
  set (lo0 := cnum p (n - k) / cden q (n - k)).
  destruct (accepts v lo0 (n - k)) eqn:A1; destruct (accepts v (lo0 + 1) (n - k)) eqn:A2.
  - exists 0%nat. replace (k + Z.of_nat 0) with k by lia. fold lo0.
    destruct (2 * (cnum p (n - k) mod cden q (n - k)) <=? cden q (n - k)).
    + exists lo0. split; [lia|]. cbv zeta. fold lo0. auto.
    + exists (lo0 + 1). split; [lia|]. cbv zeta. fold lo0. auto.
  - exists 0%nat, lo0. replace (k + Z.of_nat 0) with k by lia.
    split; [lia|]. cbv zeta. fold lo0. auto.
  - exists 0%nat, (lo0 + 1). replace (k + Z.of_nat 0) with k by lia.
    split; [lia|]. cbv zeta. fold lo0. auto.
  - destruct j as [|j].
    + exfalso. cbv zeta in H. replace (k + Z.of_nat 0) with k in H by lia.
      fold lo0 in H. rewrite A1, A2 in H. destruct H; discriminate.
    + destruct (IH (k + 1)) as [j' [c [Hj' Hc]]].
      { exists j. split; [lia|].
        replace (k + 1 + Z.of_nat j) with (k + Z.of_nat (S j)) by lia. exact H. }
      exists (S j'), c. split; [lia|].
      replace (k + Z.of_nat (S j')) with (k + 1 + Z.of_nat j') by lia. exact Hc.
Qed.

Lemma normalise_spec fuel s e :
  0 < s ->
  exists j, 0 <= j /\
    Json.normalise fuel s e = (fst (Json.normalise fuel s e), e + j) /\
    0 < fst (Json.normalise fuel s e) /\
    s = fst (Json.normalise fuel s e) * 10 ^ j.
Proof.
  revert s e. induction fuel as [|fuel IH]; intros s e Hs.
  - exists 0. cbn. repeat split; try lia. f_equal. lia.
  - cbn [Json.normalise].
    destruct ((s mod 10 =? 0) && negb (s =? 0)) eqn:C.
    + apply andb_true_iff in C. destruct C as [C _]. apply Z.eqb_eq in C.
      pose proof (Z.div_mod s 10 ltac:(lia)) as DM.
      assert (Hs' : 0 < s / 10) by lia.
      destruct (IH (s / 10) (e + 1) Hs') as [j [Hj [E1 [E2 E3]]]].
      exists (j + 1). split; [lia|]. split; [|split].
      * rewrite E1 at 1. cbn [fst]. f_equal. lia.
      * exact E2.
      * rewrite Z.pow_add_r by lia. change (10 ^ 1) with 10. lia.
    + exists 0. cbn [fst]. repeat split; try lia. f_equal. lia.
Qed.

Lemma bin_num_ulp M E : bin_num M E = Zpos M * bin_ulp E.
Proof. unfold bin_num, bin_ulp. destruct (0 <=? E); lia. Qed.

Lemma bin_den_pos E : 0 < bin_den E.
Proof. unfold bin_den. destruct (Z.leb_spec 0 E); [lia|apply Z.pow_pos_nonneg; lia]. Qed.

Lemma bin_ulp_pos E : 0 < bin_ulp E.
Proof. unfold bin_ulp. destruct (Z.leb_spec 0 E); [apply Z.pow_pos_nonneg; lia|lia]. Qed.

Lemma finite_mantissa v sg (M : positive) E :
  FloatOps.Prim2SF v = S754_finite sg M E ->
  Zpos M < 2 ^ 53 /\ -1074 <= E <= 971.
Proof.
  intros Hv.
  pose proof (FloatAxioms.Prim2SF_valid v) as Hval. rewrite Hv in Hval.
  cbn [valid_binary] in Hval.
  destruct (bounded_64 M E Hval) as [Hcan HE].
  pose proof (Z.log2_nonneg (Zpos M)).
  split; [|lia].
  apply Z.log2_lt_pow2; lia.
Qed.

Lemma finite_range (M : positive) E :
  Zpos M < 2 ^ 53 -> -1074 <= E <= 971 ->
  let p := bin_num M E in
  let q := bin_den E in
  0 < p /\ 0 < q /\ q <= p * 2 ^ 1074 /\ p < 2 ^ 1024 * q.
Proof.
  intros HM HE p q. unfold p, q, bin_num, bin_den.
  destruct (Z.leb_spec 0 E) as [H|H].
  - assert (0 < 2 ^ E) by (apply Z.pow_pos_nonneg; lia).
    assert (2 ^ E <= 2 ^ 971) by (apply Z.pow_le_mono_r; lia).
    assert (0 < 2 ^ 1074) by (apply Z.pow_pos_nonneg; lia).
    assert (E1 : 2 ^ 1024 = 2 ^ 53 * 2 ^ 971) by (rewrite <- Z.pow_add_r by lia; reflexivity).
    rewrite E1.
    set (a := 2 ^ E) in *. set (b := 2 ^ 971) in *. set (c := 2 ^ 53) in *.
    set (d := 2 ^ 1074) in *.
    repeat split; try nia.
  - assert (0 < 2 ^ (- E)) by (apply Z.pow_pos_nonneg; lia).
    assert (2 ^ (- E) <= 2 ^ 1074) by (apply Z.pow_le_mono_r; lia).
    assert (2 ^ 53 <= 2 ^ 1024) by (apply Z.pow_le_mono_r; lia).
    set (a := 2 ^ (- E)) in *. set (b := 2 ^ 1074) in *. set (c := 2 ^ 53) in *.
    set (d := 2 ^ 1024) in *.
    repeat split; try nia.
Qed.

Lemma pow2_1074_le : 2 ^ 1074 <= 10 ^ 400.
Proof. apply Z.leb_le. vm_compute. reflexivity. Qed.

Lemma pow2_1024_lt : 2 ^ 1024 < 10 ^ 309.
Proof. apply Z.ltb_lt. vm_compute. reflexivity. Qed.

Lemma pow2_1074_lt : 2 ^ 1074 < 10 ^ 324.
Proof. apply Z.ltb_lt. vm_compute. reflexivity. Qed.

Lemma exponent_range p q :
  0 < p -> 0 < q -> q <= p * 2 ^ 1074 -> p < 2 ^ 1024 * q ->
  let n := Json.decimal_exponent p q in
  (up10 (n - 1) * q <= p * dec_den (n - 1) /\ p * dec_den n < up10 n * q) /\
  -323 <= n <= 309.
Proof.
  intros Hp Hq Hlo Hhi n.
  assert (Hb : q <= p * 10 ^ 400).
  { pose proof pow2_1074_le. set (a := 2 ^ 1074) in *. set (b := 10 ^ 400) in *. nia. }
  destruct (decimal_exponent_spec p q Hp Hq Hb) as [L U]. fold n in L, U.
  split; [split; assumption|].
  split.
  - apply Z.nlt_ge. intros C.
    unfold up10, dec_den in U.
    replace (0 <=? n) with false in U by (symmetry; apply Z.leb_gt; lia).
    assert (10 ^ 324 <= 10 ^ (- n)) by (apply Z.pow_le_mono_r; lia).
    pose proof pow2_1074_lt.
    set (a := 2 ^ 1074) in *. set (b := 10 ^ 324) in *. set (c := 10 ^ (- n)) in *.
    nia.
  - apply Z.nlt_ge. intros C.
    unfold up10, dec_den in L.
    replace (0 <=? n - 1) with true in L by (symmetry; apply Z.leb_le; lia).
    assert (10 ^ 309 <= 10 ^ (n - 1)) by (apply Z.pow_le_mono_r; lia).
    pose proof pow2_1024_lt.
    set (a := 2 ^ 1024) in *. set (b := 10 ^ 309) in *. set (c := 10 ^ (n - 1)) in *.
    nia.
Qed.

Lemma cand_bounds p q n kk :
  0 < p -> 0 < q -> 1 <= kk ->
  up10 (n - 1) * q <= p * dec_den (n - 1) -> p * dec_den n < up10 n * q ->
  let sc := n - kk in
  10 ^ (kk - 1) * cden q sc <= cnum p sc /\ cnum p sc < 10 ^ kk * cden q sc.
Proof.
  intros Hp Hq Hk L U sc. unfold cnum, cden.
  pose proof (pow10_add (kk - 1) sc) as A1.
  pose proof (pow10_add kk sc) as A2.
  replace (kk - 1 + sc) with (n - 1) in A1 by (unfold sc; lia).
  replace (kk + sc) with n in A2 by (unfold sc; lia).
  assert (D1 : dec_den (kk - 1) = 1).
  { unfold dec_den. replace (0 <=? kk - 1) with true; [reflexivity|symmetry; apply Z.leb_le; lia]. }
  assert (D2 : dec_den kk = 1).
  { unfold dec_den. replace (0 <=? kk) with true; [reflexivity|symmetry; apply Z.leb_le; lia]. }
  assert (U1 : up10 (kk - 1) = 10 ^ (kk - 1)).
  { unfold up10. replace (0 <=? kk - 1) with true; [reflexivity|symmetry; apply Z.leb_le; lia]. }
  assert (U2 : up10 kk = 10 ^ kk).
  { unfold up10. replace (0 <=? kk) with true; [reflexivity|symmetry; apply Z.leb_le; lia]. }
  rewrite D1, U1 in A1. rewrite D2, U2 in A2.
  pose proof (dec_den_pos (n - 1)). pose proof (dec_den_pos n).
  pose proof (dec_den_pos sc). pose proof (up10_pos sc).
  pose proof (up10_pos (n - 1)). pose proof (up10_pos n).
  assert (0 < 10 ^ (kk - 1)) by (apply Z.pow_pos_nonneg; lia).
  assert (0 < 10 ^ kk) by (apply Z.pow_pos_nonneg; lia).
  set (a1 := up10 (n - 1)) in *. set (b1 := dec_den (n - 1)) in *.
  set (a0 := up10 n) in *. set (b0 := dec_den n) in *.
  set (as_ := up10 sc) in *. set (bs := dec_den sc) in *.
  set (t1 := 10 ^ (kk - 1)) in *. set (t0 := 10 ^ kk) in *.
  split.
  - apply (Z.mul_le_mono_pos_r _ _ b1); [lia|].
    replace (t1 * (q * as_) * b1) with (q * (t1 * as_ * b1)) by ring.
    rewrite <- A1.
    replace (q * (a1 * (1 * bs))) with (a1 * q * bs) by ring.
    replace (p * bs * b1) with (p * b1 * bs) by ring.
    apply Z.mul_le_mono_nonneg_r; lia.
  - apply (Z.mul_lt_mono_pos_r b0); [lia|].
    replace (t0 * (q * as_) * b0) with (q * (t0 * as_ * b0)) by ring.
    rewrite <- A2.
    replace (q * (a0 * (1 * bs))) with (a0 * q * bs) by ring.
    replace (p * bs * b0) with (p * b0 * bs) by ring.
    apply Z.mul_lt_mono_pos_r; lia.
Qed.

Lemma in_range_cand c e :
  1 <= c <= 10 ^ 17 -> -340 <= e <= 308 -> in_range c e.
Proof.
  intros Hc He.
  assert (L : Z.log2 c < 57).
  { apply Z.log2_lt_pow2; [lia|].
    assert (10 ^ 17 < 2 ^ 57) by (apply Z.ltb_lt; vm_compute; reflexivity). lia. }
  pose proof (Z.log2_nonneg c).
  repeat split; intros; lia.
Qed.

Lemma log2_pow10 s j : 0 < s -> 0 <= j -> Z.log2 s + 3 * j <= Z.log2 (s * 10 ^ j).
Proof.
  intros Hs Hj.
  rewrite Z.add_comm, <- Z.log2_mul_pow2 by lia.
  apply Z.log2_le_mono.
  rewrite Z.pow_mul_r by lia. change (2 ^ 3) with 8.
  assert (8 ^ j <= 10 ^ j) by (apply Z.pow_le_mono_l; lia).
  assert (0 < 8 ^ j) by (apply Z.pow_pos_nonneg; lia).
  nia.
Qed.

(** Seventeen significant digits: one of the two candidates converts back
    to the number. *)
Lemma cand17_accepts v (M : positive) E :
  FloatOps.Prim2SF v = S754_finite false M E ->
  let p := bin_num M E in
  let q := bin_den E in
  let n := Json.decimal_exponent p q in
  let sc := n - 17 in
  let lo := cnum p sc / cden q sc in
  accepts v lo sc = true \/ accepts v (lo + 1) sc = true.
Proof.
  intros Hv p q n sc lo.
  destruct (finite_mantissa v false M E Hv) as [HM HE].
  destruct (finite_range M E HM HE) as [Hp [Hq [Rlo Rhi]]]. fold p q in Hp, Hq, Rlo, Rhi.
  destruct (exponent_range p q Hp Hq Rlo Rhi) as [[L U] Hn]. fold n in L, U, Hn.
  destruct (cand_bounds p q n 17 Hp Hq ltac:(lia) L U) as [CL CU]. fold sc in CL, CU.
  change (17 - 1) with 16 in CL.
  set (num := cnum p sc) in *. set (den := cden q sc) in *.
  assert (Hden : 0 < den).
  { unfold den, cden. apply Z.mul_pos_pos; [lia|apply up10_pos]. }
  pose proof (Z.div_mod num den ltac:(lia)) as DM. fold lo in DM.
  pose proof (Z.mod_pos_bound num den Hden) as Hrem.
  set (rem := num mod den) in *.
  assert (T16 : 2 ^ 53 < 10 ^ 16) by (apply Z.ltb_lt; vm_compute; reflexivity).
  assert (P16 : 0 < 10 ^ 16) by (apply Z.pow_pos_nonneg; lia).
  assert (P17 : 10 ^ 17 = 10 * 10 ^ 16) by reflexivity.
  assert (Llo : 10 ^ 16 <= lo).
  { set (t := 10 ^ 16) in *. apply Z.nlt_ge. intros C. nia. }
  assert (Lhi : lo < 10 ^ 17).
  { set (t := 10 ^ 17) in *. apply Z.nle_gt. intros C. nia. }
  set (dd := dec_den sc) in *.
  assert (Hdd : 0 < dd) by apply dec_den_pos.
  set (U0 := bin_ulp E) in *.
  assert (HU : 0 < U0) by apply bin_ulp_pos.
  assert (Enum : num = Zpos M * (U0 * dd)).
  { unfold num, cnum, p. rewrite bin_num_ulp. fold U0 dd. ring. }
  assert (K1 : den < U0 * dd).
  { set (t := 10 ^ 16) in *. set (t2 := 2 ^ 53) in *. set (X := U0 * dd) in *. nia. }
  assert (K2 : Zpos M = 2 ^ 52 -> 2 * den < U0 * dd).
  { intros EM. rewrite EM in Enum.
    assert (E53 : 2 ^ 53 = 2 * 2 ^ 52) by reflexivity.
    set (t := 10 ^ 16) in *. set (t2 := 2 ^ 53) in *. set (t3 := 2 ^ 52) in *.
    set (X := U0 * dd) in *. nia. }
  assert (Rsc : -340 <= sc <= 308) by (unfold sc; lia).
  assert (EP : forall c, dec_num c sc * q = c * den).
  { intros c. rewrite dec_num_up10. unfold den, cden. ring. }
  assert (Ep : p * dd = num) by reflexivity.
  destruct (Z_le_gt_dec (2 * rem) den) as [Hr|Hr].
  - left. unfold accepts.
    rewrite (of_decimal_close lo sc v M E); [exact (float_eqb_refl v _ _ _ Hv)| |exact Hv| |].
    + apply in_range_cand; lia.
    + fold p q U0 dd. rewrite EP. split; nia.
    + intros EM. specialize (K2 EM). fold p q U0 dd. rewrite EP. nia.
  - right. unfold accepts.
    rewrite (of_decimal_close (lo + 1) sc v M E); [exact (float_eqb_refl v _ _ _ Hv)| |exact Hv| |].
    + apply in_range_cand; lia.
    + fold p q U0 dd. rewrite EP. split; nia.
    + intros EM. fold p q U0 dd. rewrite EP. nia.
Qed.

(** The digits chosen by [Number_toString] denote the number. *)
Lemma shortest_result v (M : positive) E :
  FloatOps.Prim2SF v = S754_finite false M E ->
  let p := bin_num M E in
  let q := bin_den E in
  let n := Json.decimal_exponent p q in
  exists s0 e0 s sc,
    Json.shortest 17 v p q n 1 = (s0, e0) /\
    Json.normalise 400 s0 e0 = (s, sc) /\
    in_range s sc /\
    Json.of_decimal false s sc = v.
Proof.
  intros Hv p q n.
  destruct (finite_mantissa v false M E Hv) as [HM HE].
  destruct (finite_range M E HM HE) as [Hp [Hq [Rlo Rhi]]]. fold p q in Hp, Hq, Rlo, Rhi.
  destruct (exponent_range p q Hp Hq Rlo Rhi) as [[L U] Hn]. fold n in L, U, Hn.
  destruct (shortest_spec 17 v p q n 1) as [j [c [Hj Hc]]].
  { exists 16%nat. split; [lia|]. change (1 + Z.of_nat 16) with 17.
    exact (cand17_accepts v M E Hv). }
  cbv zeta in Hc. destruct Hc as [Hc [Hs Ha]].
  set (kk := 1 + Z.of_nat j) in *.
  assert (Hkk : 1 <= kk <= 17) by (unfold kk; lia).
  set (e0 := n - kk) in *.
  destruct (cand_bounds p q n kk Hp Hq ltac:(lia) L U) as [CL CU]. fold e0 in CL, CU.
  set (num := cnum p e0) in *. set (den := cden q e0) in *.
  assert (Hden : 0 < den).
  { unfold den, cden. apply Z.mul_pos_pos; [lia|apply up10_pos]. }
  pose proof (Z.div_mod num den ltac:(lia)) as DM.
  pose proof (Z.mod_pos_bound num den Hden) as Hrem.
  set (lo := num / den) in *. set (rem := num mod den) in *.
  assert (Pk1 : 1 <= 10 ^ (kk - 1)).
  { assert (0 < 10 ^ (kk - 1)) by (apply Z.pow_pos_nonneg; lia). lia. }
  assert (Pk : 10 ^ kk <= 10 ^ 17) by (apply Z.pow_le_mono_r; lia).
  assert (Llo : 1 <= lo).
  { set (t := 10 ^ (kk - 1)) in *. apply Z.nlt_ge. intros C. nia. }
  assert (Lhi : lo < 10 ^ kk).
  { set (t := 10 ^ kk) in *. apply Z.nle_gt. intros C. nia. }
  assert (Rc : 1 <= c <= 10 ^ 17) by lia.
  assert (Re : -340 <= e0 <= 308) by (unfold e0; lia).
  pose proof (in_range_cand c e0 Rc Re) as IR0.
  unfold accepts in Ha.
  pose proof (float_eqb_finite _ _ _ _ _ Ha Hv) as Hval.
  destruct (normalise_spec 400 c e0 ltac:(lia)) as [j' [Hj' [N1 [N2 N3]]]].
  set (s := fst (Json.normalise 400 c e0)) in *.
  exists c, e0, s, (e0 + j'). split; [exact Hs|]. split; [exact N1|].
  assert (IR : in_range s (e0 + j')).
  { pose proof (log2_pow10 s j' N2 Hj') as Lg. rewrite <- N3 in Lg.
    assert (Z.log2 c < 57).
    { apply Z.log2_lt_pow2; [lia|].
      assert (10 ^ 17 < 2 ^ 57) by (apply Z.ltb_lt; vm_compute; reflexivity). lia. }
    pose proof (Z.log2_nonneg s).
    repeat split; intros; lia. }
  split; [exact IR|].
  rewrite <- Hval.
  transitivity (Json.of_decimal false (s * 10 ^ j') (e0 + j' - j')).
  - symmetry. apply of_decimal_scale; [lia|exact IR|].
    rewrite <- N3. replace (e0 + j' - j') with e0 by lia. exact IR0.
  - rewrite <- N3. f_equal. lia.
Qed.

End Printing.

(* ===================================================================== *)
(** ** [Json.parse_number] reads the text of a number back *)
(* ===================================================================== *)

Section Reading.

Import SpecFloat.
Local Open Scope string_scope.
Local Open Scope Z_scope.

Lemma digit_not_minus c : Json.is_digit c = true -> (Json.code c =? 45) = false.
Proof.
  unfold Json.is_digit. intros H. apply andb_true_iff in H. destruct H as [H1 H2].
  apply Z.leb_le in H1. apply Z.eqb_neq. lia.
Qed.

Lemma int_ok_head int :
  all_digits int = true -> int_ok int = true ->
  exists c r, int = String c r /\ Json.is_digit c = true.
Proof.
  intros Hd Hok. destruct int as [|c r]; [discriminate Hok|].
  exists c, r. split; [reflexivity|]. cbn in Hd. apply andb_true_iff in Hd. apply Hd.
Qed.

Lemma sign_absent s c r :
  s = String c r -> (Json.code c =? 45) = false ->
  match s with
  | String c r => if Json.code c =? 45 then (true, r) else (false, s)
  | EmptyString => (false, s)
  end = (false, s).
Proof. intros -> H. rewrite H. reflexivity. Qed.

Lemma parse_number_int (neg : bool) int s2 :
  all_digits int = true -> int_ok int = true -> no_digit_ahead s2 = true ->
  Json.parse_number ((if neg then "-" else "") ++ int ++ s2) = number_tail neg int s2.
Proof.
  intros Hd Hok Hn.
  unfold Json.parse_number.
  destruct neg.
  - cbn [append]. change (Json.code "-" =? 45) with true. cbv iota.
    rewrite (take_digits_app int s2 Hd Hn). fold (int_ok int). rewrite Hok.
    reflexivity.
  - destruct (int_ok_head int Hd Hok) as [c [r [E Hc]]].
    cbn [append].
    rewrite (sign_absent (int ++ s2) c (r ++ s2));
      [|rewrite E; reflexivity|exact (digit_not_minus c Hc)].
    rewrite (take_digits_app int s2 Hd Hn). fold (int_ok int). rewrite Hok.
    reflexivity.
Qed.

Lemma number_ends_no_digit rest : number_ends rest = true -> no_digit_ahead rest = true.
Proof.
  destruct rest as [|c r]; [reflexivity|]. cbn. intros H.
  apply andb_true_iff in H. destruct H as [H _].
  apply andb_true_iff in H. apply H.
Qed.

(** No fraction, no exponent. *)
Lemma number_tail_plain neg int rest :
  number_ends rest = true ->
  number_tail neg int rest =
  Some (Json.of_decimal neg (Json.digits_value 0 int) 0, rest).
Proof.
  intros H. unfold number_tail. destruct rest as [|c r].
  - rewrite append_nil_r. reflexivity.
  - cbn in H. apply andb_true_iff in H. destruct H as [H H3].
    apply andb_true_iff in H. destruct H as [H1 H2].
    apply negb_true_iff in H2, H3. rewrite H2, H3. rewrite append_nil_r. reflexivity.
Qed.

Lemma nonempty_digits frac rest :
  frac <> EmptyString -> all_digits frac = true -> no_digit_ahead rest = true ->
  match Json.take_digits (frac ++ rest) with
  | (EmptyString, _) => None
  | (String _ _ as fr, rest') => Some (fr, rest')
  end = Some (frac, rest).
Proof.
  intros Hne Hd Hn. rewrite (take_digits_app frac rest Hd Hn).
  destruct frac; [contradiction|reflexivity].
Qed.

(** A fraction, no exponent. *)
Lemma number_tail_fraction neg int frac rest :
  frac <> EmptyString -> all_digits frac = true -> number_ends rest = true ->
  number_tail neg int ("." ++ frac ++ rest) =
  Some (Json.of_decimal neg (Json.digits_value 0 (int ++ frac))
          (0 - Z.of_nat (String.length frac)), rest).
Proof.
  intros Hne Hd He. unfold number_tail. cbn [append].
  change (Json.code "." =? 46) with true. cbv iota.
  rewrite (nonempty_digits frac rest Hne Hd (number_ends_no_digit _ He)).
  destruct rest as [|c r]; [reflexivity|].
  cbn in He. apply andb_true_iff in He. destruct He as [H H3].
  apply negb_true_iff in H3. rewrite H3. reflexivity.
Qed.

Lemma exponent_read (eneg : bool) exs rest :
  exs <> EmptyString -> all_digits exs = true -> no_digit_ahead rest = true ->
  (let '(eneg', r1) :=
     match (if eneg then "-" else "+") ++ exs ++ rest with
     | EmptyString => (false, (if eneg then "-" else "+") ++ exs ++ rest)
     | String sg r' =>
         if Json.code sg =? 45 then (true, r')
         else if Json.code sg =? 43 then (false, r')
              else (false, (if eneg then "-" else "+") ++ exs ++ rest)
     end in
   match Json.take_digits r1 with
   | (EmptyString, _) => None
   | (String _ _ as ex, rest') =>
       Some (if eneg' then - Json.digits_value 0 ex else Json.digits_value 0 ex, rest')
   end) =
  Some (if eneg then - Json.digits_value 0 exs else Json.digits_value 0 exs, rest).
Proof.
  intros Hne Hd Hn.
  destruct eneg; cbn [append].
  - change (Json.code "-" =? 45) with true. cbv iota.
    rewrite (take_digits_app exs rest Hd Hn). destruct exs; [contradiction|reflexivity].
  - change (Json.code "+" =? 45) with false. change (Json.code "+" =? 43) with true.
    cbv iota.
    rewrite (take_digits_app exs rest Hd Hn). destruct exs; [contradiction|reflexivity].
Qed.

(** An exponent, no fraction. *)
Lemma number_tail_exponent neg int (eneg : bool) exs rest :
  exs <> EmptyString -> all_digits exs = true -> number_ends rest = true ->
  number_tail neg int (exponent_text eneg exs ++ rest) =
  Some (Json.of_decimal neg (Json.digits_value 0 int)
          (if eneg then - Json.digits_value 0 exs else Json.digits_value 0 exs), rest).
Proof.
  intros Hne Hd He. unfold number_tail, exponent_text.
  rewrite !append_assoc. cbn [append].
  change (Json.code "e" =? 46) with false. cbv iota.
  change ((Json.code "e" =? 101) || (Json.code "e" =? 69)) with true. cbv iota.
  pose proof (exponent_read eneg exs rest Hne Hd (number_ends_no_digit _ He)) as R.
  cbn [append] in R.
  rewrite R. rewrite append_nil_r. cbn [String.length Z.of_nat]. rewrite Z.sub_0_r.
  reflexivity.
Qed.

(** A fraction and an exponent. *)
Lemma number_tail_fraction_exponent neg int frac (eneg : bool) exs rest :
  frac <> EmptyString -> all_digits frac = true ->
  exs <> EmptyString -> all_digits exs = true -> number_ends rest = true ->
  number_tail neg int ("." ++ frac ++ exponent_text eneg exs ++ rest) =
  Some (Json.of_decimal neg (Json.digits_value 0 (int ++ frac))
          ((if eneg then - Json.digits_value 0 exs else Json.digits_value 0 exs)
           - Z.of_nat (String.length frac)), rest).
Proof.
  intros Hnf Hdf Hne Hd He. unfold number_tail, exponent_text.
  rewrite !append_assoc. cbn [append].
  change (Json.code "." =? 46) with true. cbv iota.
  rewrite (nonempty_digits frac _ Hnf Hdf); [|reflexivity].
  change ((Json.code "e" =? 101) || (Json.code "e" =? 69)) with true. cbv iota.
  pose proof (exponent_read eneg exs rest Hne Hd (number_ends_no_digit _ He)) as R.
  cbn [append] in R.
  rewrite R. reflexivity.
Qed.

Lemma substring_all s : substring 0 (String.length s) s = s.
Proof. induction s; cbn; congruence. Qed.

Lemma substring_split a s :
  (a <= String.length s)%nat ->
  substring 0 a s ++ substring a (String.length s - a) s = s.
Proof.
  revert s. induction a as [|a IH]; intros s H.
  - rewrite Nat.sub_0_r, substring_all. destruct s; reflexivity.
  - destruct s as [|c s]; [cbn in H; lia|].
    cbn [String.length] in *. cbn [substring append Nat.sub].
    rewrite IH by lia. reflexivity.
Qed.

Lemma length_prefix a s :
  (a <= String.length s)%nat -> String.length (substring 0 a s) = a.
Proof.
  revert s. induction a as [|a IH]; intros s H.
  - destruct s; reflexivity.
  - destruct s as [|c s]; [cbn in H; lia|].
    cbn [String.length substring] in *. rewrite IH by lia. reflexivity.
Qed.

Lemma length_suffix a s :
  (a <= String.length s)%nat ->
  String.length (substring a (String.length s - a) s) = (String.length s - a)%nat.
Proof.
  intros H. pose proof (f_equal String.length (substring_split a s H)) as E.
  rewrite length_append, length_prefix in E by exact H. lia.
Qed.

Lemma all_digits_substring a b s :
  all_digits s = true -> all_digits (substring a b s) = true.
Proof.
  revert a b. induction s as [|c s IH]; intros a b H.
  - destruct a, b; reflexivity.
  - cbn in H. apply andb_true_iff in H. destruct H as [Hc Hs].
    destruct a as [|a].
    + destruct b as [|b]; [reflexivity|]. cbn. rewrite Hc. apply IH. exact Hs.
    + cbn. apply IH. exact Hs.
Qed.

Lemma int_ok_prefix a c r :
  (Json.code c =? 48) = false -> int_ok (substring 0 (S a) (String c r)) = true.
Proof.
  intros H. cbn [substring]. unfold int_ok. rewrite H.
  destruct (substring 0 a r); reflexivity.
Qed.

Lemma concat3 a b c : String.concat "" (a :: b :: c :: nil) = a ++ b ++ c.
Proof. reflexivity. Qed.

Lemma concat5 a b c d e : String.concat "" (a :: b :: c :: d :: e :: nil) = a ++ b ++ c ++ d ++ e.
Proof. reflexivity. Qed.

Lemma of_decimal_integer neg s sc :
  0 < s -> 0 <= sc -> s * 10 ^ sc < 10 ^ 21 -> in_range s sc ->
  Json.of_decimal neg (s * 10 ^ sc) 0 = Json.of_decimal neg s sc.
Proof.
  intros Hs Hsc Hb Hr.
  replace 0 with (sc - sc) at 1 by lia.
  apply of_decimal_scale; [exact Hsc|exact Hr|].
  replace (sc - sc) with 0 by lia.
  assert (0 < s * 10 ^ sc).
  { apply Z.mul_pos_pos; [lia|apply Z.pow_pos_nonneg; lia]. }
  assert (Z.log2 (s * 10 ^ sc) < 70).
  { apply Z.log2_lt_pow2; [lia|].
    assert (10 ^ 21 < 2 ^ 70) by (apply Z.ltb_lt; vm_compute; reflexivity). lia. }
  repeat split; intros; lia.
Qed.

Lemma format_reads_back (neg : bool) s sc rest :
  0 < s -> in_range s sc -> number_ends rest = true ->
  let ds := Json.digits_of s in
  let k := Z.of_nat (String.length ds) in
  Json.parse_number ((if neg then "-" else "") ++ Json.format_decimal ds k (sc + k) ++ rest)
  = Some (Json.of_decimal neg s sc, rest).
Proof.
  intros Hs Hr He ds k.
  destruct (digits_of_pos s Hs) as [c [r [E [Hc [Hn [Hdr Hv]]]]]]. fold ds in E.
  assert (Hd : all_digits ds = true) by (apply digits_of_all_digits; lia).
  destruct (digits_of_length s Hs) as [Hk [Llo Lhi]]. fold ds k in Hk, Llo, Lhi.
  assert (Hv' : Json.digits_value 0 ds = s) by (rewrite E; exact Hv).
  set (n := sc + k).
  unfold Json.format_decimal.
  destruct ((k <=? n) && (n <=? 21)) eqn:C1.
  { (* digits and zeros *)
    apply andb_true_iff in C1. destruct C1 as [C1 C1']. apply Z.leb_le in C1, C1'.
    rewrite parse_number_int.
    - rewrite number_tail_plain by exact He.
      rewrite digits_value_app, Hv', digits_value_zeros.
      replace (Z.of_nat (Z.to_nat (n - k))) with sc by (unfold n; lia).
      f_equal. f_equal. apply of_decimal_integer; try lia; [|exact Hr].
      assert (10 ^ (k + sc) <= 10 ^ 21) by (apply Z.pow_le_mono_r; lia).
      rewrite Z.pow_add_r in H by lia.
      assert (0 < 10 ^ sc) by (apply Z.pow_pos_nonneg; lia).
      nia.
    - rewrite all_digits_app, Hd, all_digits_zeros. reflexivity.
    - rewrite E. cbn [append]. unfold int_ok. rewrite Hn.
      destruct (r ++ Json.zeros (Z.to_nat (n - k))); reflexivity.
    - apply number_ends_no_digit. exact He. }
  destruct ((0 <? n) && (n <=? 21)) eqn:C2.
  { (* digits with a point inside *)
    apply andb_true_iff in C2. destruct C2 as [C2 C2']. apply Z.ltb_lt in C2.
    apply Z.leb_le in C2'.
    assert (Hnk : n < k).
    { apply andb_false_iff in C1. destruct C1 as [C1|C1];
        [apply Z.leb_gt in C1; lia|apply Z.leb_gt in C1; lia]. }
    rewrite concat3.
    assert (Hle : (Z.to_nat n <= String.length ds)%nat) by (unfold k in Hnk; lia).
    pose proof (substring_split (Z.to_nat n) ds Hle) as Sp.
    pose proof (length_suffix (Z.to_nat n) ds Hle) as Ls.
    replace (Z.to_nat (k - n)) with (String.length ds - Z.to_nat n)%nat by (unfold k; lia).
    set (int := substring 0 (Z.to_nat n) ds) in *.
    set (frac := substring (Z.to_nat n) (String.length ds - Z.to_nat n) ds) in *.
    rewrite !append_assoc.
    rewrite parse_number_int.
    - rewrite number_tail_fraction.
      + rewrite Sp, Hv', Ls. f_equal. f_equal. f_equal. unfold n, k in *. lia.
      + intros Ef. rewrite Ef in Ls. cbn in Ls. unfold k in Hnk. lia.
      + apply all_digits_substring. exact Hd.
      + exact He.
    - apply all_digits_substring. exact Hd.
    - unfold int. rewrite E. destruct (Z.to_nat n) as [|a] eqn:En; [lia|].
      apply int_ok_prefix. exact Hn.
    - reflexivity. }
  destruct ((-6 <? n) && (n <=? 0)) eqn:C3.
  { (* zero, point, zeros, digits *)
    apply andb_true_iff in C3. destruct C3 as [C3 C3']. apply Z.ltb_lt in C3.
    apply Z.leb_le in C3'.
    rewrite concat3.
    change ((if neg then "-" else "") ++ ("0." ++ Json.zeros (Z.to_nat (- n)) ++ ds) ++ rest)
      with ((if neg then "-" else "") ++ "0" ++ "." ++ ((Json.zeros (Z.to_nat (- n)) ++ ds) ++ rest)).
    rewrite parse_number_int; try reflexivity.
    rewrite number_tail_fraction.
    - cbn [append Json.digits_value]. change (0 * 10 + (Json.code "0" - 48)) with 0.
      rewrite digits_value_app, digits_value_zeros, Z.mul_0_l, Hv'.
      rewrite length_append, length_zeros.
      f_equal. f_equal. f_equal. unfold n, k in *. lia.
    - rewrite E. destruct (Json.zeros (Z.to_nat (- n))); discriminate.
    - rewrite all_digits_app, all_digits_zeros, Hd. reflexivity.
    - exact He. }
  (* exponent form *)
  assert (Hex : n - 1 <> 0).
  { apply andb_false_iff in C2. apply andb_false_iff in C3.
    destruct C2 as [C2|C2]; destruct C3 as [C3|C3];
      try apply Z.ltb_ge in C2; try apply Z.leb_gt in C2;
      try apply Z.ltb_ge in C3; try apply Z.leb_gt in C3; lia. }
  cbv zeta.
  set (eneg := n - 1 <? 0).
  set (exs := Json.digits_of (Z.abs (n - 1))).
  assert (Hxd : all_digits exs = true) by (apply digits_of_all_digits; lia).
  assert (Hxv : Json.digits_value 0 exs = Z.abs (n - 1)) by (apply digits_of_value; lia).
  assert (Hxn : exs <> EmptyString).
  { destruct (digits_of_pos (Z.abs (n - 1)) ltac:(lia)) as [c' [r' [E' _]]].
    unfold exs. rewrite E'. discriminate. }
  assert (Hxe : (if eneg then - Z.abs (n - 1) else Z.abs (n - 1)) = n - 1).
  { unfold eneg. destruct (Z.ltb_spec (n - 1) 0); lia. }
  destruct (k =? 1) eqn:C4.
  - apply Z.eqb_eq in C4.
    assert (Er : r = EmptyString).
    { unfold k in C4. rewrite E in C4. cbn [String.length] in C4.
      destruct r; [reflexivity|cbn [String.length] in C4; lia]. }
    rewrite concat3.
    change (ds ++ "e" ++ (if eneg then "-" else "+") ++ exs)
      with (ds ++ exponent_text eneg exs).
    rewrite !append_assoc.
    rewrite parse_number_int.
    + rewrite number_tail_exponent by assumption.
      rewrite Hv', Hxv, Hxe. f_equal. f_equal. f_equal. unfold n. lia.
    + exact Hd.
    + rewrite E, Er. reflexivity.
    + reflexivity.
  - apply Z.eqb_neq in C4.
    rewrite concat5.
    assert (Hle : (1 <= String.length ds)%nat) by (unfold k in Hk; lia).
    pose proof (substring_split 1 ds Hle) as Sp.
    pose proof (length_suffix 1 ds Hle) as Ls.
    replace (Z.to_nat (k - 1)) with (String.length ds - 1)%nat by (unfold k; lia).
    set (int := substring 0 1 ds) in *.
    set (frac := substring 1 (String.length ds - 1) ds) in *.
    change (int ++ "." ++ frac ++ "e" ++ (if eneg then "-" else "+") ++ exs)
      with (int ++ "." ++ frac ++ exponent_text eneg exs).
    rewrite !append_assoc.
    rewrite parse_number_int.
    + rewrite number_tail_fraction_exponent; try assumption.
      * rewrite Sp, Hv', Ls, Hxv, Hxe. f_equal. f_equal. f_equal. unfold n, k in *. lia.
      * intros Ef. rewrite Ef in Ls. cbn in Ls. unfold k in C4, Hk. lia.
      * apply all_digits_substring. exact Hd.
    + apply all_digits_substring. exact Hd.
    + unfold int. rewrite E. apply int_ok_prefix. exact Hn.
    + reflexivity.
Qed.

Lemma finite_abs x sg (M : positive) E :
  FloatOps.Prim2SF x = S754_finite sg M E ->
  FloatOps.Prim2SF (PrimFloat.abs x) = S754_finite false M E.
Proof. intros H. rewrite FloatAxioms.abs_spec, H. reflexivity. Qed.

Lemma finite_sign x sg (M : positive) E :
  FloatOps.Prim2SF x = S754_finite sg M E ->
  x = if sg then PrimFloat.opp (PrimFloat.abs x) else PrimFloat.abs x.
Proof.
  intros H. apply FloatAxioms.Prim2SF_inj.
  destruct sg.
  - rewrite FloatAxioms.opp_spec, FloatAxioms.abs_spec, H. reflexivity.
  - rewrite FloatAxioms.abs_spec, H. reflexivity.
Qed.

(** Every finite number other than zero is read back from its decimal
    text. *)
Lemma finite_number_reads_back x sg (M : positive) E rest :
  FloatOps.Prim2SF x = S754_finite sg M E ->
  number_ends rest = true ->
  Json.parse_number (Json.Number_toString x ++ rest) = Some (x, rest).
Proof.
  intros Hx He.
  pose proof (finite_abs x sg M E Hx) as Hv.
  destruct (finite_mantissa x sg M E Hx) as [HM HE].
  destruct (shortest_result (PrimFloat.abs x) M E Hv) as [s0 [e0 [s [sc [S1 [S2 [IR Hval]]]]]]].
  unfold Json.Number_toString. rewrite Hx.
  replace (if 0 <=? E then (Z.shiftl (Z.pos M) E, 1) else (Z.pos M, Z.shiftl 1 (- E)))
    with (bin_num M E, bin_den E).
  2:{ unfold bin_num, bin_den. destruct (Z.leb_spec 0 E).
      - rewrite Z.shiftl_mul_pow2 by lia. reflexivity.
      - rewrite Z.shiftl_mul_pow2 by lia. rewrite Z.mul_1_l. reflexivity. }
  cbv zeta. rewrite S1, S2.
  rewrite append_assoc.
  assert (Hs : 0 < s) by apply IR.
  rewrite (format_reads_back sg s sc rest Hs IR He).
  f_equal. f_equal.
  rewrite (finite_sign x sg M E Hx).
  destruct sg.
  - rewrite (of_decimal_sign s sc IR), Hval. reflexivity.
  - exact Hval.
Qed.

End Reading.

(* ===================================================================== *)
(** ** [Json.parse] reads the text of an object back *)
(* ===================================================================== *)

Section Documents.

Import SpecFloat.
Local Open Scope string_scope.
Local Open Scope list_scope.

Lemma string_items_quote_body_app s rest :
  exists items,
    Json.string_items (Json.quote_body s ++ rest)%string = Some (items, rest) /\
    Json.encode_items items = s.
Proof.
  induction s as [|c s [items [IH1 IH2]]].
  - exists []. split; reflexivity.
  - destruct c as [[] [] [] [] [] [] [] []];
      cbn -[Json.encode_items]; rewrite IH1;
      (eexists; split; [reflexivity|]);
      first [ rewrite encode_items_low by reflexivity; cbn; rewrite IH2; reflexivity
            | cbn [Json.encode_items]; rewrite IH2; reflexivity ].
Qed.

Lemma parse_string_quote s rest :
  Json.parse_string (Json.quote_body s ++ rest)%string = Some (s, rest).
Proof.
  unfold Json.parse_string.
  destruct (string_items_quote_body_app s rest) as [items [H1 H2]].
  rewrite H1, H2. reflexivity.
Qed.

Lemma is_finite_spec n :
  Json.is_finite n =
  match FloatOps.Prim2SF n with
  | S754_finite _ _ _ | S754_zero _ => true
  | _ => false
  end.
Proof.
  unfold Json.is_finite, PrimFloat.is_nan, PrimFloat.is_infinity.
  rewrite !FloatAxioms.eqb_spec, FloatAxioms.abs_spec.
  change (FloatOps.Prim2SF infinity) with (S754_infinity false).
  destruct (FloatOps.Prim2SF n) as [sg|sg| |sg m e].
  - reflexivity.
  - destruct sg; reflexivity.
  - reflexivity.
  - unfold SFeqb, SFcompare, SFabs. rewrite Z.compare_refl.
    replace (PosDef.Pos.compare_cont Eq m m) with Eq by (symmetry; apply Pos.compare_refl).
    destruct sg; reflexivity.
Qed.

Lemma json_exact_number n : json_exact n = true -> json_number n = JNumber n.
Proof.
  unfold json_exact, json_number.
  destruct (FloatOps.Prim2SF n) as [sg|sg| |sg m e] eqn:E; try discriminate; intros H.
  - destruct sg; [discriminate H|]. f_equal.
    apply FloatAxioms.Prim2SF_inj. rewrite E. reflexivity.
  - reflexivity.
Qed.

Lemma json_inexact_number n : json_exact n = false -> json_number n <> JNumber n.
Proof.
  unfold json_exact, json_number.
  destruct (FloatOps.Prim2SF n) as [sg|sg| |sg m e] eqn:E; try discriminate; intros H C;
    try discriminate C.
  destruct sg; [|discriminate H]. injection C as C. rewrite <- C in E. discriminate E.
Qed.

Lemma number_reads_back n rest :
  json_exact n = true -> number_ends rest = true ->
  Json.parse_number (Json.Number_toString n ++ rest)%string = Some (n, rest).
Proof.
  unfold json_exact. intros H He.
  destruct (FloatOps.Prim2SF n) as [sg|sg| |sg m e] eqn:E; try discriminate H.
  - destruct sg; [discriminate H|].
    assert (n = zero).
    { apply FloatAxioms.Prim2SF_inj. rewrite E. reflexivity. }
    subst n. unfold Json.Number_toString. rewrite E.
    change (Json.parse_number ((if false then "-" else "") ++ "0" ++ rest)%string
            = Some (zero, rest)).
    rewrite parse_number_int; try reflexivity; [|apply number_ends_no_digit; exact He].
    rewrite number_tail_plain by exact He. reflexivity.
  - exact (finite_number_reads_back n sg m e rest E He).
Qed.

Lemma wire_field_stringify v :
  wire_field v = true -> Json.stringify v = Some (field_text v).
Proof. destruct v; try discriminate; intros _; reflexivity. Qed.

Lemma stringify_object props :
  forallb (fun kv => wire_field (snd kv)) props = true ->
  Json.stringify (JObject props) =
  Some ("{" ++ String.concat "," (member_texts props) ++ "}")%string.
Proof.
  intros H. cbn [Json.stringify]. f_equal. f_equal. f_equal. f_equal.
  induction props as [|[k x] rest IH]; [reflexivity|].
  cbn [forallb snd] in H. apply andb_true_iff in H. destruct H as [Hx Hr].
  cbn [member_texts]. rewrite (wire_field_stringify x Hx).
  f_equal. apply IH. exact Hr.
Qed.

Lemma member_ends_number_ends s : member_ends s = true -> number_ends s = true.
Proof.
  destruct s as [|c r]; [discriminate|]. cbn. unfold Json.is_digit. intros H.
  apply orb_true_iff in H. destruct H as [H|H]; apply Z.eqb_eq in H; rewrite H; reflexivity.
Qed.

Lemma member_ends_skip_ws s : member_ends s = true -> Json.skip_ws s = s.
Proof.
  destruct s as [|c r]; [discriminate|]. cbn. unfold Json.is_ws. intros H.
  apply orb_true_iff in H. destruct H as [H|H]; apply Z.eqb_eq in H; rewrite H; reflexivity.
Qed.

Lemma parse_number_head s r :
  Json.parse_number s = Some r ->
  exists c s', s = String c s' /\ ((Json.code c =? 45)%Z || Json.is_digit c) = true.
Proof.
  destruct s as [|c s']; [discriminate|]. intros H. exists c, s'. split; [reflexivity|].
  destruct (Json.code c =? 45)%Z eqn:E; [reflexivity|].
  unfold Json.parse_number in H. rewrite E in H.
  cbn [Json.take_digits] in H.
  destruct (Json.is_digit c); [reflexivity|]. discriminate H.
Qed.

Lemma parse_value_number fuel n tail :
  json_exact n = true -> number_ends tail = true ->
  Json.parse_value (S fuel) (Json.Number_toString n ++ tail)%string = Some (JNumber n, tail).
Proof.
  intros Hn Ht.
  pose proof (number_reads_back n tail Hn Ht) as R.
  destruct (parse_number_head _ _ R) as [c [s' [E Hc]]].
  rewrite E in *.
  assert (Hw : Json.is_ws c = false /\ (Json.code c =? 123)%Z = false /\
               (Json.code c =? 91)%Z = false /\ (Json.code c =? 34)%Z = false).
  { unfold Json.is_ws, Json.is_digit in *.
    apply orb_true_iff in Hc. destruct Hc as [Hc|Hc].
    - apply Z.eqb_eq in Hc. rewrite Hc. repeat split; reflexivity.
    - apply andb_true_iff in Hc. destruct Hc as [H1 H2].
      apply Z.leb_le in H1, H2.
      repeat split; repeat (apply orb_false_iff; split); apply Z.eqb_neq; lia. }
  destruct Hw as [W1 [W2 [W3 W4]]].
  cbn [Json.parse_value Json.skip_ws]. rewrite W1, W2, W3, W4, Hc, R. reflexivity.
Qed.

Lemma parse_value_null fuel tail :
  Json.parse_value (S fuel) ("null" ++ tail)%string = Some (JNull, tail).
Proof. reflexivity. Qed.

Lemma parse_value_field fuel v tail :
  wire_field v = true -> member_ends tail = true ->
  Json.parse_value (S fuel) (field_text v ++ tail)%string = Some (carried v, tail).
Proof.
  intros Hv Ht. destruct v; try discriminate Hv.
  - unfold field_text, carried. cbn [Json.stringify].
    pose proof (member_ends_number_ends _ Ht) as Hn.
    rewrite is_finite_spec. unfold json_number.
    destruct (FloatOps.Prim2SF n) as [sg|sg| |sg m e] eqn:E.
    + destruct sg.
      * assert (n = neg_zero).
        { apply FloatAxioms.Prim2SF_inj. rewrite E. reflexivity. }
        subst n. change (Json.Number_toString neg_zero) with (Json.Number_toString zero).
        apply parse_value_number; [reflexivity|exact Hn].
      * assert (n = zero).
        { apply FloatAxioms.Prim2SF_inj. rewrite E. reflexivity. }
        subst n. apply parse_value_number; [reflexivity|exact Hn].
    + apply parse_value_null.
    + apply parse_value_null.
    + apply parse_value_number; [|exact Hn]. unfold json_exact. rewrite E. reflexivity.
  - unfold field_text, carried. cbn [Json.stringify]. unfold Json.quote.
    cbn [append Json.parse_value Json.skip_ws].
    change (Json.is_ws (Json.char_of 34)) with false.
    change (Json.code (Json.char_of 34) =? 123)%Z with false.
    change (Json.code (Json.char_of 34) =? 91)%Z with false.
    change (Json.code (Json.char_of 34) =? 34)%Z with true.
    cbv iota. rewrite parse_string_quote. reflexivity.
Qed.

Lemma parse_value_field_pos fuel v tail :
  (0 < fuel)%nat -> wire_field v = true -> member_ends tail = true ->
  Json.parse_value fuel (field_text v ++ tail)%string = Some (carried v, tail).
Proof.
  intros Hf. destruct fuel as [|fuel]; [lia|]. apply parse_value_field.
Qed.

Lemma replace_prop_fresh k v acc :
  existsb (String.eqb k) (map fst acc) = false -> Json.replace_prop k v acc = None.
Proof.
  induction acc as [|[k' v'] rest IH]; [reflexivity|].
  cbn [map fst existsb Json.replace_prop]. intros H.
  apply orb_false_iff in H. destruct H as [H1 H2].
  rewrite H1, (IH H2). reflexivity.
Qed.

Lemma set_prop_fresh k v acc :
  existsb (String.eqb k) (map fst acc) = false -> Json.array_index k = None ->
  Json.set_prop k v acc = acc ++ [(k, v)].
Proof.
  intros H1 H2. unfold Json.set_prop. rewrite (replace_prop_fresh k v acc H1), H2.
  reflexivity.
Qed.

Lemma member_texts_head k x rest tail :
  exists r, (String.concat "," (member_texts ((k, x) :: rest)) ++ tail)%string =
            String (Json.char_of 34) r.
Proof.
  cbn [member_texts String.concat]. unfold Json.quote.
  destruct (member_texts rest); cbn [append]; eexists; reflexivity.
Qed.

Lemma skip_ws_quote r :
  Json.skip_ws (String (Json.char_of 34) r) = String (Json.char_of 34) r.
Proof. reflexivity. Qed.

Lemma member_texts_split k x rest tail :
  exists sep after,
    (String.concat "," (member_texts ((k, x) :: rest)) ++ "}" ++ tail)%string =
    String (Json.char_of 34)
      (Json.quote_body k ++ ":" ++ field_text x ++ String sep after)%string /\
    ((rest = [] /\ sep = "}"%char /\ after = tail) \/
     (rest <> [] /\ sep = ","%char /\
      after = (String.concat "," (member_texts rest) ++ "}" ++ tail)%string)).
Proof.
  cbn [member_texts String.concat]. unfold Json.quote.
  destruct rest as [|[k2 x2] rest2].
  - exists "}"%char, tail. split.
    + cbn [member_texts append]. rewrite !append_assoc. reflexivity.
    + left. auto.
  - exists ","%char,
      (String.concat "," (member_texts ((k2, x2) :: rest2)) ++ "}" ++ tail)%string.
    split.
    + cbn [member_texts append]. rewrite !append_assoc. reflexivity.
    + right. repeat split. discriminate.
Qed.

Lemma parse_members_fields fields :
  forall fuel acc tail,
    fields <> [] -> (length fields < fuel)%nat ->
    plain_keys (map fst acc) fields = true ->
    forallb (fun kv => wire_field (snd kv)) fields = true ->
    Json.parse_members fuel acc
      (String.concat "," (member_texts fields) ++ "}" ++ tail)%string =
    Some (JObject (acc ++ carry_all fields), tail).
Proof.
  induction fields as [|[k x] rest IH]; intros fuel acc tail Hne Hf Hk He;
    [contradiction|].
  cbn [plain_keys] in Hk. apply andb_true_iff in Hk. destruct Hk as [Hk Hk3].
  apply andb_true_iff in Hk. destruct Hk as [Hk1 Hk2].
  apply negb_true_iff in Hk1.
  destruct (Json.array_index k) eqn:Hidx; [discriminate Hk2|].
  cbn [forallb snd] in He. apply andb_true_iff in He. destruct He as [Hx Her].
  destruct fuel as [|fuel]; cbn [length] in Hf; try lia.
  destruct (member_texts_split k x rest tail) as [sep [after [Etext Hcase]]].
  rewrite Etext.
  cbn [Json.parse_members].
  change (Json.code (Json.char_of 34) =? 34)%Z with true. cbv iota.
  rewrite parse_string_quote.
  cbn [append Json.skip_ws].
  change (Json.is_ws ":") with false. cbv iota.
  change (Json.code ":" =? 58)%Z with true. cbv iota.
  assert (Hme : member_ends (String sep after) = true).
  { destruct Hcase as [[_ [-> _]]|[_ [-> _]]]; reflexivity. }
  rewrite (parse_value_field_pos fuel x (String sep after) ltac:(lia) Hx Hme).
  rewrite (member_ends_skip_ws _ Hme).
  rewrite (set_prop_fresh k (carried x) acc Hk1 Hidx).
  unfold carry_all. cbn [map fst snd].
  destruct Hcase as [[-> [-> ->]]|[Hr [-> ->]]].
  - change (Json.code "}" =? 44)%Z with false. change (Json.code "}" =? 125)%Z with true.
    cbv iota. reflexivity.
  - change (Json.code "," =? 44)%Z with true. cbv iota.
    destruct rest as [|[k2 x2] rest2]; [contradiction|].
    destruct (member_texts_head k2 x2 rest2 ("}" ++ tail)%string) as [r Er].
    rewrite Er, skip_ws_quote, <- Er.
    rewrite (IH fuel (acc ++ [(k, carried x)]) tail).
    + rewrite <- app_assoc. reflexivity.
    + discriminate.
    + cbn [length] in *. lia.
    + rewrite map_app. cbn [map fst]. exact Hk3.
    + exact Her.
Qed.

Lemma concat_length (l : list string) tail :
  Forall (fun m => m <> EmptyString) l ->
  (length l <= String.length (String.concat "," l ++ tail))%nat.
Proof.
  induction l as [|m l IH]; intros H; [cbn; lia|].
  inversion H as [|? ? Hm Hl]; subst.
  specialize (IH Hl).
  destruct l as [|m2 l2].
  - cbn [String.concat length]. rewrite length_append.
    destruct m; [contradiction|]. cbn [String.length]. lia.
  - change (String.concat "," (m :: m2 :: l2))
      with (m ++ "," ++ String.concat "," (m2 :: l2))%string.
    rewrite !append_assoc, length_append. cbn [append String.length].
    cbn [length] in *. lia.
Qed.

Lemma member_texts_nonempty props :
  Forall (fun m => m <> EmptyString) (member_texts props).
Proof.
  induction props as [|[k x] rest IH]; cbn [member_texts]; constructor.
  - unfold Json.quote. discriminate.
  - exact IH.
Qed.

Lemma member_texts_count props : length (member_texts props) = length props.
Proof. induction props as [|[k x] rest IH]; cbn; congruence. Qed.

Lemma member_texts_length props tail :
  (length props <= String.length (String.concat "," (member_texts props) ++ tail))%nat.
Proof.
  rewrite <- member_texts_count. apply concat_length, member_texts_nonempty.
Qed.

(** One pass of [JSON.parse] over the serialisation of an object whose
    fields are strings and numbers gives the object with each field as JSON
    text carries it. *)
Lemma parse_wire_object props :
  plain_keys [] props = true ->
  forallb (fun kv => wire_field (snd kv)) props = true ->
  Json.parse (wire (JObject props)) = inl (JObject (carry_all props)).
Proof.
  intros Hk He. unfold wire. rewrite (stringify_object props He).
  unfold Json.parse. cbn [Json.ToString]. unfold Json.parse_text.
  destruct props as [|[k x] rest]; [reflexivity|].
  set (body := String.concat "," (member_texts ((k, x) :: rest))).
  assert (Hlen : (length ((k, x) :: rest) <= String.length (body ++ "}"))%nat)
    by apply member_texts_length.
  set (doc := ("{" ++ body ++ "}")%string).
  assert (Hdoc : String.length doc = S (String.length (body ++ "}"))) by reflexivity.
  destruct (2 * String.length doc + 2)%nat as [|fuel] eqn:Ef; [lia|].
  unfold doc. cbn [append Json.parse_value Json.skip_ws].
  change (Json.is_ws "{") with false. cbv iota.
  change (Json.code "{" =? 123)%Z with true. cbv iota.
  destruct (member_texts_head k x rest "}") as [r Er]. fold body in Er.
  rewrite Er, skip_ws_quote.
  change (Json.code (Json.char_of 34) =? 125)%Z with false. cbv iota.
  rewrite <- Er.
  change (body ++ "}")%string with (body ++ "}" ++ "")%string.
  unfold body. rewrite (parse_members_fields ((k, x) :: rest) fuel [] "").
  - reflexivity.
  - discriminate.
  - lia.
  - exact Hk.
  - exact He.
Qed.

End Documents.

(* ===================================================================== *)
(** ** The decode step on the events of the wire format *)
(* ===================================================================== *)

Lemma saga_object_amount type fromAccount toAccount amount :
  Get (saga_object type fromAccount toAccount amount) "amount" = amount.
Proof. destruct fromAccount, toAccount; reflexivity. Qed.

(** One pass of [JSON.parse] over the serialised SagaEvent: the event with
    its amount as JSON text carries it. *)
Lemma parse_wire_saga_event type fromAccount toAccount amount :
  Json.parse (wire (SagaEvent type fromAccount toAccount amount)) =
  inl (saga_object type fromAccount toAccount (json_number amount)).
Proof.
  unfold SagaEvent, saga_object.
  rewrite parse_wire_object; destruct fromAccount, toAccount; reflexivity.
Qed.

(** The events of the examples are SagaEvents. *)
Lemma StartTransfer_is_SagaEvent fromAccount toAccount amount :
  StartTransfer fromAccount toAccount amount =
  SagaEvent "StartTransfer" (Some fromAccount) (Some toAccount) amount.
Proof. reflexivity. Qed.

(** The amounts JSON text does not carry, and two it does, on one event:
    the infinities and NaN come back as null, negative zero as zero. *)
Lemma amounts_through_json :
  let back amount v :=
    Json.parse (wire (StartTransfer "A" "B" amount)) =
    inl (JObject [("type", JString "StartTransfer"); ("fromAccount", JString "A");
                  ("toAccount", JString "B"); ("amount", v)]) in
  back infinity JNull /\ back neg_infinity JNull /\ back nan JNull /\
  back neg_zero (JNumber zero) /\
  back 0x1.999999999999ap-4%float (JNumber 0x1.999999999999ap-4) /\
  back 100%float (JNumber 100).
Proof. vm_compute. repeat split; reflexivity. Qed.

(** C5, amended.  The decode step is one JSON-parse pass, and the round
    trip holds for the one-pass encoding.  For every SagaEvent (any type and
    account strings, any number as amount), decoding its serialised
    document yields the event with its amount as JSON text carries it:
    field for field the event itself when the amount is finite and not
    negative zero, and only then; an infinite or NaN amount comes back as
    null and negative zero as zero.  Decoding the two-pass wrapping of the
    event yields the inner JSON document, a string, on which every field
    reads undefined, and each of the four consumers passes over that message
    without any effect; a second decode applied to that result gives what
    decoding the document gives. *)
Theorem decode_is_one_parse_pass :
  forall (draws : nat -> float) (fails : nat -> option JsVal)
         (tag : string) (st : State)
         (type : string) (fromAccount toAccount : option string) (amount : float),
    let env := platform draws fails in
    let event := SagaEvent type fromAccount toAccount amount in
    decode tag (wire event) env st =
    (Normal (Some (saga_object type fromAccount toAccount (json_number amount))), st) /\
    (json_exact amount = true ->
     decode tag (wire event) env st = (Normal (Some event), st)) /\
    (json_exact amount = false ->
     decode tag (wire event) env st <> (Normal (Some event), st)) /\
    decode tag (transport_wrap event) env st = (Normal (Some (wire event)), st) /\
    (forall k, Get (wire event) k = JUndefined) /\
    DepositFunds.loop_body (transport_wrap event) env st = (Normal Continue, st) /\
    WithdrawFunds.loop_body (transport_wrap event) env st = (Normal Continue, st) /\
    CompensateDeposit.loop_body (transport_wrap event) env st = (Normal Continue, st) /\
    CompensateWithdraw.loop_body (transport_wrap event) env st = (Normal Continue, st) /\
    (d <- decode tag (transport_wrap event) ;;
     match d with
     | Some inner => decode tag inner
     | None => ret None
     end) env st = decode tag (wire event) env st.
Proof.
  intros draws fails tag st type fromAccount toAccount amount env event.
  assert (T1 : ToBoolean (wire event) = true) by reflexivity.
  assert (T2 : ToBoolean (transport_wrap event) = true) by reflexivity.
  assert (H1 : JSON_parse env (wire event) =
               inl (saga_object type fromAccount toAccount (json_number amount)))
    by apply parse_wire_saga_event.
  assert (H2 : JSON_parse env (transport_wrap event) = inl (wire event))
    by apply parse_transport_wrap_object.
  assert (D1 : decode tag (wire event) env st =
               (Normal (Some (saga_object type fromAccount toAccount (json_number amount))),
                st))
    by (apply decode_parsed; assumption).
  assert (D2 : decode tag (transport_wrap event) env st = (Normal (Some (wire event)), st))
    by (apply decode_parsed; assumption).
  split; [exact D1|].
  split.
  { intros He. rewrite D1. unfold event, SagaEvent.
    rewrite (json_exact_number amount He). reflexivity. }
  split.
  { intros He C. rewrite D1 in C.
    assert (E : saga_object type fromAccount toAccount (json_number amount) = event)
      by congruence.
    apply (json_inexact_number amount He).
    apply (f_equal (fun v => Get v "amount")) in E.
    unfold event, SagaEvent in E. rewrite !saga_object_amount in E. exact E. }
  split; [exact D2|].
  split; [intros k; reflexivity|].
  split; [apply (deposit_iteration_foreign env st _ (wire event) T2 H2); reflexivity|].
  split; [apply (withdraw_iteration_foreign env st _ (wire event) T2 H2); reflexivity|].
  split; [apply (compensate_deposit_iteration_foreign env st _ (wire event) T2 H2);
          reflexivity|].
  split; [apply (compensate_withdraw_iteration_foreign env st _ (wire event) T2 H2);
          reflexivity|].
  unfold bind. rewrite D2. reflexivity.
Qed.

Lemma decode_is_one_parse_pass_witness :
  let env := calm 0.5 in
  let tag := "DepositFunds" in
  let event := SagaEvent "StartTransfer" (Some "A") (Some "B") 1234.5 in
  json_exact 1234.5 = true /\
  decode tag (wire event) env initial = (Normal (Some event), initial).
Proof.
  split; [reflexivity|].
  apply (proj1 (proj2 (decode_is_one_parse_pass (fun _ => 0.5%float) (fun _ => None)
                         "DepositFunds" initial
                         "StartTransfer" (Some "A") (Some "B") 1234.5%float))).
  reflexivity.
Defined.

(* ===================================================================== *)
(** ** Further properties of the handlers *)
(* ===================================================================== *)

(** *** Every iteration of a step processor, case by case *)

Lemma render_two_fails t1 a t2 b :
  renders a = false \/ renders b = false ->
  Json.render [inl t1; inr a; inl t2; inr b] = None.
Proof.
  unfold renders, Json.render. cbn [Json.pieces]. intros [H|H].
  - destruct (Json.ToString a); [discriminate H | reflexivity].
  - destruct (Json.ToString b); [discriminate H|].
    destruct (Json.ToString a); reflexivity.
Qed.

(** A valid StartTransfer one of whose fields does not convert to a string:
    the template literal of the first log line throws, before any draw. *)
Lemma deposit_iteration_unrenderable env st message v :
  ToBoolean message = true ->
  JSON_parse env message = inl v ->
  strict_eq_string (Get v "type") "StartTransfer" = true ->
  ToBoolean (Get v "toAccount") = true ->
  ToBoolean (Get v "amount") = true ->
  renders (Get v "amount") = false \/ renders (Get v "toAccount") = false ->
  DepositFunds.loop_body message env st =
  (Throw (TypeError "Cannot convert object to primitive value"), st).
Proof.
  intros Hm Hp Ht Ha Hv Hr. unfold DepositFunds.loop_body, bind.
  rewrite (decode_parsed _ _ _ _ _ Hm Hp).
  rewrite (destructure3_present _ _ _ _ _ _ (strict_eq_string_present _ _ _ Ht)).
  unfold js_not. rewrite Ht, Ha, Hv. cbn [negb orb].
  unfold template. rewrite (render_two_fails _ _ _ _ Hr). reflexivity.
Qed.

Lemma withdraw_iteration_unrenderable env st message v :
  ToBoolean message = true ->
  JSON_parse env message = inl v ->
  strict_eq_string (Get v "type") "StartTransfer" = true ->
  ToBoolean (Get v "fromAccount") = true ->
  ToBoolean (Get v "amount") = true ->
  renders (Get v "amount") = false \/ renders (Get v "fromAccount") = false ->
  WithdrawFunds.loop_body message env st =
  (Throw (TypeError "Cannot convert object to primitive value"), st).
Proof.
  intros Hm Hp Ht Ha Hv Hr. unfold WithdrawFunds.loop_body, bind.
  rewrite (decode_parsed _ _ _ _ _ Hm Hp).
  rewrite (destructure3_present _ _ _ _ _ _ (strict_eq_string_present _ _ _ Ht)).
  unfold js_not. rewrite Ht, Ha, Hv. cbn [negb orb].
  unfold template. rewrite (render_two_fails _ _ _ _ Hr). reflexivity.
Qed.

Lemma one_step_same ok st : one_step ok st st.
Proof.
  exists []. rewrite app_nil_r. split; [reflexivity|]. split; [reflexivity|].
  left. repeat split; reflexivity.
Qed.

Lemma one_step_log ok st lvl text args :
  one_step ok st (add_trace st [Log lvl text args]).
Proof.
  exists [Log lvl text args]. split; [reflexivity|]. split; [reflexivity|].
  left. repeat split; reflexivity.
Qed.

Lemma deposit_outcome_is_outcome r toAccount amount :
  ToBoolean toAccount = true -> ToBoolean amount = true ->
  is_outcome "DepositCompleted" "DepositCompensation" "toAccount"
             (deposit_outcome r toAccount amount) = true.
Proof.
  intros Ha Hv. unfold is_outcome, deposit_outcome. cbn [body].
  destruct (PrimFloat.ltb threshold r); cbn; rewrite Ha, Hv; reflexivity.
Qed.

Lemma withdraw_outcome_is_outcome r fromAccount amount :
  ToBoolean fromAccount = true -> ToBoolean amount = true ->
  is_outcome "WithdrawCompleted" "WithdrawCompensation" "fromAccount"
             (withdraw_outcome r fromAccount amount) = true.
Proof.
  intros Ha Hv. unfold is_outcome, withdraw_outcome. cbn [body].
  destruct (PrimFloat.ltb threshold r); cbn; rewrite Ha, Hv; reflexivity.
Qed.

Lemma deposit_iteration_one_step env st message :
  one_step (is_outcome "DepositCompleted" "DepositCompensation" "toAccount")
           st (snd (DepositFunds.loop_body message env st)).
Proof.
  destruct (ToBoolean message) eqn:Hm.
  2:{ unfold DepositFunds.loop_body, bind. rewrite (decode_falsy _ _ _ _ Hm).
      apply one_step_log. }
  destruct (JSON_parse env message) as [v|e] eqn:Hp.
  2:{ unfold DepositFunds.loop_body, bind. rewrite (decode_malformed _ _ _ _ _ Hm Hp).
      apply one_step_log. }
  destruct (nullish v) eqn:Hn.
  { destruct (deposit_iteration_nullish env st message v Hm Hp Hn) as [e E].
    rewrite E. apply one_step_same. }
  destruct (strict_eq_string (Get v "type") "StartTransfer") eqn:Ht.
  2:{ rewrite (deposit_iteration_foreign env st message v Hm Hp Hn Ht).
      apply one_step_same. }
  destruct (js_not (Get v "toAccount") || js_not (Get v "amount")) eqn:Hf.
  { rewrite (deposit_iteration_missing env st message v Hm Hp Ht Hf).
    apply one_step_log. }
  apply orb_false_elim in Hf. destruct Hf as [Ha Hv].
  unfold js_not in Ha, Hv. apply negb_false_iff in Ha, Hv.
  destruct (Json.ToString (Get v "amount")) as [sa|] eqn:Sa.
  2:{ rewrite (deposit_iteration_unrenderable env st message v Hm Hp Ht Ha Hv).
      - apply one_step_same.
      - left. unfold renders. rewrite Sa. reflexivity. }
  destruct (Json.ToString (Get v "toAccount")) as [sb|] eqn:Sb.
  2:{ rewrite (deposit_iteration_unrenderable env st message v Hm Hp Ht Ha Hv).
      - apply one_step_same.
      - right. unfold renders. rewrite Sb. reflexivity. }
  rewrite (deposit_iteration_valid env st message v Hm Hp sa sb Ht Ha Hv Sa Sb).
  cbn [snd]. eexists. cbn [trace res random_calls send_calls].
  split; [reflexivity|]. split; [reflexivity|]. right.
  exists (deposit_outcome (Math_random env (random_calls st))
                          (Get v "toAccount") (Get v "amount")).
  split.
  { cbn [send_attempts]. destruct (sendBatch_error env (send_calls st));
      [|destruct (PrimFloat.ltb threshold (Math_random env (random_calls st)))];
      reflexivity. }
  split; [apply deposit_outcome_is_outcome; assumption|]. split; reflexivity.
Qed.

Lemma withdraw_iteration_one_step env st message :
  one_step (is_outcome "WithdrawCompleted" "WithdrawCompensation" "fromAccount")
           st (snd (WithdrawFunds.loop_body message env st)).
Proof.
  destruct (ToBoolean message) eqn:Hm.
  2:{ unfold WithdrawFunds.loop_body, bind. rewrite (decode_falsy _ _ _ _ Hm).
      apply one_step_log. }
  destruct (JSON_parse env message) as [v|e] eqn:Hp.
  2:{ unfold WithdrawFunds.loop_body, bind. rewrite (decode_malformed _ _ _ _ _ Hm Hp).
      apply one_step_log. }
  destruct (nullish v) eqn:Hn.
  { destruct (withdraw_iteration_nullish env st message v Hm Hp Hn) as [e E].
    rewrite E. apply one_step_same. }
  destruct (strict_eq_string (Get v "type") "StartTransfer") eqn:Ht.
  2:{ rewrite (withdraw_iteration_foreign env st message v Hm Hp Hn Ht).
      apply one_step_same. }
  destruct (js_not (Get v "fromAccount") || js_not (Get v "amount")) eqn:Hf.
  { rewrite (withdraw_iteration_missing env st message v Hm Hp Ht Hf).
    apply one_step_log. }
  apply orb_false_elim in Hf. destruct Hf as [Ha Hv].
  unfold js_not in Ha, Hv. apply negb_false_iff in Ha, Hv.
  destruct (Json.ToString (Get v "amount")) as [sa|] eqn:Sa.
  2:{ rewrite (withdraw_iteration_unrenderable env st message v Hm Hp Ht Ha Hv).
      - apply one_step_same.
      - left. unfold renders. rewrite Sa. reflexivity. }
  destruct (Json.ToString (Get v "fromAccount")) as [sb|] eqn:Sb.
  2:{ rewrite (withdraw_iteration_unrenderable env st message v Hm Hp Ht Ha Hv).
      - apply one_step_same.
      - right. unfold renders. rewrite Sb. reflexivity. }
  rewrite (withdraw_iteration_valid env st message v Hm Hp sa sb Ht Ha Hv Sa Sb).
  cbn [snd]. eexists. cbn [trace res random_calls send_calls].
  split; [reflexivity|]. split; [reflexivity|]. right.
  exists (withdraw_outcome (Math_random env (random_calls st))
                          (Get v "fromAccount") (Get v "amount")).
  split.
  { cbn [send_attempts]. destruct (sendBatch_error env (send_calls st));
      [|destruct (PrimFloat.ltb threshold (Math_random env (random_calls st)))];
      reflexivity. }
  split; [apply withdraw_outcome_is_outcome; assumption|]. split; reflexivity.
Qed.

Lemma many_steps_same ok st : many_steps ok st st.
Proof.
  exists []. rewrite app_nil_r. cbn. rewrite !Nat.add_0_r.
  repeat split; try reflexivity. constructor.
Qed.

Lemma many_steps_then_one ok st st1 st2 :
  many_steps ok st st1 -> one_step ok st1 st2 -> many_steps ok st st2.
Proof.
  intros [t1 [E1 [R1 [F1 [S1 D1]]]]] [t2 [E2 [R2 H]]].
  exists (t1 ++ t2). rewrite E2, E1, app_assoc, send_attempts_app, length_app.
  split; [reflexivity|]. split; [congruence|].
  destruct H as [[A [D S]]|[ev [A [O [D S]]]]]; rewrite A; cbn [length].
  - rewrite app_nil_r. split; [exact F1|]. split; lia.
  - split; [|split; lia].
    apply Forall_app. split; [exact F1|]. constructor; [|constructor].
    exists ev. split; [reflexivity | exact O].
Qed.

Lemma many_steps_log ok st st1 lvl text args :
  many_steps ok st st1 -> many_steps ok st (add_trace st1 [Log lvl text args]).
Proof. intros H. apply (many_steps_then_one ok st st1 _ H). apply one_step_log. Qed.

Lemma many_steps_close ok st st1 err :
  many_steps ok st st1 -> many_steps ok st (add_trace st1 [Close err]).
Proof.
  intros H. apply (many_steps_then_one ok st st1 _ H).
  exists [Close err]. split; [reflexivity|]. split; [reflexivity|].
  left. repeat split; reflexivity.
Qed.

(** The loop, whatever stops it, is a sequence of such iterations. *)
Lemma for_of_many_steps ok body :
  (forall m env st, one_step ok st (snd (body m env st))) ->
  forall l env st0 st, many_steps ok st0 st ->
                       many_steps ok st0 (snd (for_of body l env st)).
Proof.
  intros Hb l env st0. induction l as [|m l IH]; intros st H.
  - exact H.
  - simpl. unfold bind.
    pose proof (Hb m env st) as H1.
    destruct (body m env st) as [[[|]|e] st1]; cbn [snd] in H1.
    + apply IH. exact (many_steps_then_one ok st0 st st1 H H1).
    + exact (many_steps_then_one ok st0 st st1 H H1).
    + exact (many_steps_then_one ok st0 st st1 H H1).
Qed.

Lemma withdraw_handler_no_producer msgs env st e :
  new_error env = Some e ->
  WithdrawFunds.eventHubTrigger msgs env st = (Throw e, st).
Proof.
  intros Hn. unfold WithdrawFunds.eventHubTrigger, bind, new_EventHubProducerClient.
  rewrite Hn. reflexivity.
Qed.

(** X1.  Whatever the batch and the platform, every sendBatch call of the
    deposit processor carries exactly one event, of type DepositCompleted or
    DepositCompensation, with a truthy [toAccount] and a truthy [amount];
    and the invocation makes as many sendBatch calls as draws of
    [Math.random]: one publish attempt per draw, never a second one, never a
    StartTransfer, and the response object is left alone. *)
Theorem deposit_sends_one_outcome_event_per_draw :
  forall (env : Env) (msgs : list JsVal) (st : State),
    let st' := snd (DepositFunds.eventHubTrigger msgs env st) in
    exists t,
      trace st' = trace st ++ t /\ res st' = res st /\
      Forall (fun evs =>
                exists ev, evs = [ev] /\
                           is_outcome "DepositCompleted" "DepositCompensation"
                                      "toAccount" ev = true)
             (send_attempts t) /\
      send_calls st' = send_calls st + length (send_attempts t) /\
      random_calls st' = random_calls st + length (send_attempts t).
Proof.
  intros env msgs st st'. subst st'.
  change (many_steps (is_outcome "DepositCompleted" "DepositCompensation" "toAccount")
                     st (snd (DepositFunds.eventHubTrigger msgs env st))).
  destruct (new_error env) as [e|] eqn:Hn.
  - rewrite (deposit_handler_no_producer msgs env st e Hn). apply many_steps_same.
  - rewrite (deposit_handler_run msgs env st Hn).
    pose proof (for_of_many_steps _ _ (fun m e s => deposit_iteration_one_step e s m)
                  msgs env st st (many_steps_same _ st)) as H.
    destruct (for_of DepositFunds.loop_body msgs env st) as [[c|e] st1];
      cbn [snd] in *; apply many_steps_close; [|apply many_steps_log]; exact H.
Qed.

(** X2.  The same for the withdraw processor: every sendBatch call carries
    exactly one event, of type WithdrawCompleted or WithdrawCompensation,
    with a truthy [fromAccount] and a truthy [amount], and there is one
    sendBatch call per draw. *)
Theorem withdraw_sends_one_outcome_event_per_draw :
  forall (env : Env) (msgs : list JsVal) (st : State),
    let st' := snd (WithdrawFunds.eventHubTrigger msgs env st) in
    exists t,
      trace st' = trace st ++ t /\ res st' = res st /\
      Forall (fun evs =>
                exists ev, evs = [ev] /\
                           is_outcome "WithdrawCompleted" "WithdrawCompensation"
                                      "fromAccount" ev = true)
             (send_attempts t) /\
      send_calls st' = send_calls st + length (send_attempts t) /\
      random_calls st' = random_calls st + length (send_attempts t).
Proof.
  intros env msgs st st'. subst st'.
  change (many_steps (is_outcome "WithdrawCompleted" "WithdrawCompensation" "fromAccount")
                     st (snd (WithdrawFunds.eventHubTrigger msgs env st))).
  destruct (new_error env) as [e|] eqn:Hn.
  - rewrite (withdraw_handler_no_producer msgs env st e Hn). apply many_steps_same.
  - rewrite (withdraw_handler_run msgs env st Hn).
    pose proof (for_of_many_steps _ _ (fun m e s => withdraw_iteration_one_step e s m)
                  msgs env st st (many_steps_same _ st)) as H.
    destruct (for_of WithdrawFunds.loop_body msgs env st) as [[c|e] st1];
      cbn [snd] in *; apply many_steps_close; [|apply many_steps_log]; exact H.
Qed.

(** X3.  How an invocation of a step processor ends.  It rejects only for
    the producer's own errors: with the constructor's error, having done
    nothing at all, or else with the error of [close]; no message, no failed
    sendBatch and no exception inside the loop makes it reject. *)
Theorem step_processor_rejects_only_for_producer_errors :
  forall (env : Env) (msgs : list JsVal) (st : State),
    let ending :=
      match new_error env, close_error env with
      | Some e, _ => Throw e
      | None, Some e => Throw e
      | None, None => Normal tt
      end in
    fst (DepositFunds.eventHubTrigger msgs env st) = ending /\
    fst (WithdrawFunds.eventHubTrigger msgs env st) = ending /\
    (new_error env <> None ->
     snd (DepositFunds.eventHubTrigger msgs env st) = st /\
     snd (WithdrawFunds.eventHubTrigger msgs env st) = st).
Proof.
  intros env msgs st.
  destruct (new_error env) as [e|] eqn:Hn.
  - rewrite (deposit_handler_no_producer msgs env st e Hn),
            (withdraw_handler_no_producer msgs env st e Hn).
    repeat split; reflexivity.
  - rewrite (deposit_handler_run msgs env st Hn), (withdraw_handler_run msgs env st Hn).
    destruct (for_of DepositFunds.loop_body msgs env st) as [c1 s1].
    destruct (for_of WithdrawFunds.loop_body msgs env st) as [c2 s2].
    cbn [fst]. split; [reflexivity|]. split; [reflexivity|].
    intros H. exfalso. apply H. reflexivity.
Qed.

(** *** The compensators only log *)

Lemma logs_only_ret A (a : A) : logs_only (ret a).
Proof. intros env st. exists []. now rewrite add_trace_nil. Qed.

Lemma logs_only_throw A e : logs_only (@throw A e).
Proof. intros env st. exists []. now rewrite add_trace_nil. Qed.

Lemma logs_only_bind A B (m : M A) (k : A -> M B) :
  logs_only m -> (forall a, logs_only (k a)) -> logs_only (bind m k).
Proof.
  intros Hm Hk env st. unfold bind.
  destruct (Hm env st) as [t1 [E1 L1]].
  destruct (m env st) as [[a|e] st1]; cbn [snd] in E1.
  - destruct (Hk a env st1) as [t2 [E2 L2]].
    exists (t1 ++ t2). rewrite E2, E1, add_trace_app, forallb_app, L1, L2. now split.
  - exists t1. now split.
Qed.

Lemma logs_only_try_catch A (m : M A) (h : JsVal -> M A) :
  logs_only m -> (forall e, logs_only (h e)) -> logs_only (try_catch m h).
Proof.
  intros Hm Hh env st. unfold try_catch.
  destruct (Hm env st) as [t1 [E1 L1]].
  destruct (m env st) as [[a|e] st1]; cbn [snd] in E1.
  - exists t1. now split.
  - destruct (Hh e env st1) as [t2 [E2 L2]].
    exists (t1 ++ t2). rewrite E2, E1, add_trace_app, forallb_app, L1, L2. now split.
Qed.

Lemma logs_only_context_log text args : logs_only (context_log text args).
Proof. intros env st. exists [Log Info text args]. now split. Qed.

Lemma logs_only_context_log_error text args : logs_only (context_log_error text args).
Proof. intros env st. exists [Log Error text args]. now split. Qed.

Lemma logs_only_JSON_parse_call v : logs_only (JSON_parse_call v).
Proof.
  intros env st. exists []. unfold JSON_parse_call.
  destruct (JSON_parse env v); now rewrite add_trace_nil.
Qed.

Lemma logs_only_destructure3 v a b c : logs_only (destructure3 v a b c).
Proof. destruct v; simpl; first [apply logs_only_throw | apply logs_only_ret]. Qed.

Lemma logs_only_template parts : logs_only (template parts).
Proof.
  unfold template.
  destruct (Json.render parts); [apply logs_only_ret | apply logs_only_throw].
Qed.

Lemma logs_only_for_of body l :
  (forall m, logs_only (body m)) -> logs_only (for_of body l).
Proof.
  intros Hb. induction l as [|m l IH]; simpl.
  - apply logs_only_ret.
  - apply logs_only_bind; [apply Hb|]. intros [|]; [exact IH | apply logs_only_ret].
Qed.

Ltac logs_only_step :=
  first
    [ apply logs_only_ret
    | apply logs_only_throw
    | apply logs_only_context_log
    | apply logs_only_context_log_error
    | apply logs_only_JSON_parse_call
    | apply logs_only_destructure3
    | apply logs_only_template
    | apply logs_only_bind; [| intros ?]
    | apply logs_only_try_catch; [| intros ?]
    | match goal with
      | |- logs_only (match ?x with _ => _ end) => destruct x
      end ].

Lemma logs_only_decode tag message : logs_only (decode tag message).
Proof. unfold decode. repeat logs_only_step. Qed.

Lemma logs_only_compensate_deposit_body message :
  logs_only (CompensateDeposit.loop_body message).
Proof.
  unfold CompensateDeposit.loop_body.
  apply logs_only_bind; [apply logs_only_decode|].
  intros [parsed|]; repeat logs_only_step.
Qed.

Lemma logs_only_compensate_withdraw_body message :
  logs_only (CompensateWithdraw.loop_body message).
Proof.
  unfold CompensateWithdraw.loop_body.
  apply logs_only_bind; [apply logs_only_decode|].
  intros [parsed|]; repeat logs_only_step.
Qed.

(** X4.  A compensator never rejects and does nothing but log: whatever the
    batch and the platform, the invocation of CompensateDeposit and of
    CompensateWithdraw ends normally, and the state it leaves is the initial
    one with log lines appended; no sendBatch call, no draw, no close, no
    response.  An exception inside the loop ends in the outer [catch]. *)
Theorem compensators_only_log_and_never_reject :
  forall (env : Env) (msgs : list JsVal) (st : State),
    (exists t,
        CompensateDeposit.eventHubTrigger msgs env st = (Normal tt, add_trace st t) /\
        forallb is_log t = true) /\
    (exists t,
        CompensateWithdraw.eventHubTrigger msgs env st = (Normal tt, add_trace st t) /\
        forallb is_log t = true).
Proof.
  intros env msgs st. split.
  - unfold CompensateDeposit.eventHubTrigger, try_catch, bind.
    destruct (logs_only_for_of _ msgs logs_only_compensate_deposit_body env st)
      as [t [E L]].
    destruct (for_of CompensateDeposit.loop_body msgs env st) as [[c|e] st1];
      cbn [snd] in E; subst st1.
    + exists t. now split.
    + exists (t ++ [Log Error "CompensateDeposit: Error processing messages:" [e]]).
      rewrite <- add_trace_app. split; [reflexivity|].
      rewrite forallb_app, L. reflexivity.
  - unfold CompensateWithdraw.eventHubTrigger, try_catch, bind.
    destruct (logs_only_for_of _ msgs logs_only_compensate_withdraw_body env st)
      as [t [E L]].
    destruct (for_of CompensateWithdraw.loop_body msgs env st) as [[c|e] st1];
      cbn [snd] in E; subst st1.
    + exists t. now split.
    + exists (t ++ [Log Error "CompensateWithdraw: Error processing messages:" [e]]).
      rewrite <- add_trace_app. split; [reflexivity|].
      rewrite forallb_app, L. reflexivity.
Qed.

(** *** Messages that are skipped, and messages that stop the loop *)

(** A message whose iteration never ends by falling through cuts the batch. *)
Lemma for_of_stops body env m pre post st :
  (forall s, exists r s', body m env s = (r, s') /\ r <> Normal Continue) ->
  for_of body (pre ++ m :: post) env st = for_of body (pre ++ [m]) env st.
Proof.
  intros H. rewrite !for_of_app.
  destruct (for_of body pre env st) as [[[|]|e] s1]; try reflexivity.
  simpl. unfold bind. destruct (H s1) as [r [s' [E N]]]. rewrite E.
  destruct r as [[|]|e]; try reflexivity. exfalso. apply N. reflexivity.
Qed.

(** X5.  In each of the four consumers a message that cannot be read is
    logged and skipped, and the loop goes on with the next message from the
    state with that one log line added: a falsy message (undefined, null,
    the empty string) is logged as an invalid message body, and a truthy
    message on which [JSON.parse] throws is logged with the error thrown. *)
Theorem unreadable_message_is_logged_and_skipped :
  forall (env : Env) (st : State) (message : JsVal) (rest : list JsVal)
         (tag type : string) (body : JsVal -> M Ctl),
    In (tag, type, body) consumers ->
    (ToBoolean message = false ->
     for_of body (message :: rest) env st =
     for_of body rest env
       (add_trace st [Log Error (tag ++ ": Invalid or undefined message body:")
                          [message]])) /\
    (forall e,
        ToBoolean message = true -> JSON_parse env message = inr e ->
        for_of body (message :: rest) env st =
        for_of body rest env
          (add_trace st [Log Error (tag ++ ": Error parsing message:") [e]])).
Proof.
  intros env st message rest tag type body Hin.
  assert (K : forall s1, body message env st = (Normal Continue, s1) ->
                         for_of body (message :: rest) env st = for_of body rest env s1).
  { intros s1 E. cbn [for_of]. unfold bind. rewrite E. reflexivity. }
  simpl in Hin.
  destruct Hin as [H|[H|[H|[H|[]]]]]; inversion H; subst; clear H; split.
  - intros Hm. apply K. unfold DepositFunds.loop_body, bind.
    rewrite (decode_falsy _ _ _ _ Hm). reflexivity.
  - intros e Hm Hp. apply K. unfold DepositFunds.loop_body, bind.
    rewrite (decode_malformed _ _ _ _ _ Hm Hp). reflexivity.
  - intros Hm. apply K. unfold WithdrawFunds.loop_body, bind.
    rewrite (decode_falsy _ _ _ _ Hm). reflexivity.
  - intros e Hm Hp. apply K. unfold WithdrawFunds.loop_body, bind.
    rewrite (decode_malformed _ _ _ _ _ Hm Hp). reflexivity.
  - intros Hm. apply K. unfold CompensateDeposit.loop_body, bind.
    rewrite (decode_falsy _ _ _ _ Hm). reflexivity.
  - intros e Hm Hp. apply K. unfold CompensateDeposit.loop_body, bind.
    rewrite (decode_malformed _ _ _ _ _ Hm Hp). reflexivity.
  - intros Hm. apply K. unfold CompensateWithdraw.loop_body, bind.
    rewrite (decode_falsy _ _ _ _ Hm). reflexivity.
  - intros e Hm Hp. apply K. unfold CompensateWithdraw.loop_body, bind.
    rewrite (decode_malformed _ _ _ _ _ Hm Hp). reflexivity.
Qed.

Lemma unreadable_message_is_logged_and_skipped_witness :
  let rest := [wire (DepositCompensation "B" 100)] in
  for_of CompensateDeposit.loop_body (JString "" :: rest) (calm 0.5) initial =
  for_of CompensateDeposit.loop_body rest (calm 0.5)
    (add_trace initial
       [Log Error ("CompensateDeposit" ++ ": Invalid or undefined message body:")
            [JString ""]]) /\
  for_of CompensateDeposit.loop_body (JString "{" :: rest) (calm 0.5) initial =
  for_of CompensateDeposit.loop_body rest (calm 0.5)
    (add_trace initial
       [Log Error ("CompensateDeposit" ++ ": Error parsing message:")
            [SyntaxError "JSON.parse"]]).
Proof.
  split.
  - apply (proj1 (unreadable_message_is_logged_and_skipped (calm 0.5) initial
                    (JString "") [wire (DepositCompensation "B" 100)]
                    "CompensateDeposit" "DepositCompensation"
                    CompensateDeposit.loop_body
                    (or_intror (or_intror (or_introl eq_refl))))).
    reflexivity.
  - apply (proj2 (unreadable_message_is_logged_and_skipped (calm 0.5) initial
                    (JString "{") [wire (DepositCompensation "B" 100)]
                    "CompensateDeposit" "DepositCompensation"
                    CompensateDeposit.loop_body
                    (or_intror (or_intror (or_introl eq_refl))))
             (SyntaxError "JSON.parse")).
    + reflexivity.
    + vm_compute. reflexivity.
Defined.

(** X6.  Each consumer acts on one event type only: a message that parses
    to a value other than null and undefined whose [type] is not, as a
    string, the consumer's own type (StartTransfer for the two step
    processors, DepositCompensation and WithdrawCompensation for the
    compensators) has no effect at all, not even a log line, and the loop
    goes on. *)
Theorem consumer_ignores_other_event_types :
  forall (env : Env) (st : State) (message v : JsVal)
         (tag type : string) (body : JsVal -> M Ctl),
    In (tag, type, body) consumers ->
    ToBoolean message = true ->
    JSON_parse env message = inl v ->
    nullish v = false ->
    strict_eq_string (Get v "type") type = false ->
    body message env st = (Normal Continue, st).
Proof.
  intros env st message v tag type body Hin Hm Hp Hn Ht.
  simpl in Hin.
  destruct Hin as [H|[H|[H|[H|[]]]]]; inversion H; subst; clear H.
  - apply (deposit_iteration_foreign env st message v Hm Hp Hn Ht).
  - apply (withdraw_iteration_foreign env st message v Hm Hp Hn Ht).
  - apply (compensate_deposit_iteration_foreign env st message v Hm Hp Hn Ht).
  - apply (compensate_withdraw_iteration_foreign env st message v Hm Hp Hn Ht).
Qed.

Lemma consumer_ignores_other_event_types_witness :
  CompensateDeposit.loop_body (wire (StartTransfer "A" "B" 100)) (calm 0.5) initial =
  (Normal Continue, initial).
Proof.
  apply (consumer_ignores_other_event_types (calm 0.5) initial
           (wire (StartTransfer "A" "B" 100)) (StartTransfer "A" "B" 100)
           "CompensateDeposit" "DepositCompensation" CompensateDeposit.loop_body).
  - simpl. right. right. left. reflexivity.
  - vm_compute. reflexivity.
  - vm_compute. reflexivity.
  - reflexivity.
  - reflexivity.
Defined.

(** X7.  No feedback: the outcome events that the deposit and the withdraw
    processor publish, whatever the draw, the account and the amount, are
    ignored by both step processors when they come back in a batch (no
    effect, no new event), so a StartTransfer starts no chain of events
    among the step processors. *)
Theorem step_processors_ignore_outcome_events :
  forall (env : Env) (st : State) (message : JsVal) (r : float)
         (account amount : JsVal),
    ToBoolean message = true ->
    JSON_parse env message = inl (body (deposit_outcome r account amount)) \/
    JSON_parse env message = inl (body (withdraw_outcome r account amount)) ->
    DepositFunds.loop_body message env st = (Normal Continue, st) /\
    WithdrawFunds.loop_body message env st = (Normal Continue, st).
Proof.
  intros env st message r account amount Hm [Hp|Hp]; split.
  - apply (deposit_iteration_foreign env st message _ Hm Hp); [reflexivity|].
    unfold deposit_outcome. cbn [body]. destruct (PrimFloat.ltb threshold r); reflexivity.
  - apply (withdraw_iteration_foreign env st message _ Hm Hp); [reflexivity|].
    unfold deposit_outcome. cbn [body]. destruct (PrimFloat.ltb threshold r); reflexivity.
  - apply (deposit_iteration_foreign env st message _ Hm Hp); [reflexivity|].
    unfold withdraw_outcome. cbn [body]. destruct (PrimFloat.ltb threshold r); reflexivity.
  - apply (withdraw_iteration_foreign env st message _ Hm Hp); [reflexivity|].
    unfold withdraw_outcome. cbn [body]. destruct (PrimFloat.ltb threshold r); reflexivity.
Qed.

Lemma step_processors_ignore_outcome_events_witness :
  let message := wire (body (deposit_outcome 0.125 (JString "B") (JNumber 100))) in
  DepositFunds.loop_body message (calm 0.5) initial = (Normal Continue, initial) /\
  WithdrawFunds.loop_body message (calm 0.5) initial = (Normal Continue, initial).
Proof.
  apply (step_processors_ignore_outcome_events (calm 0.5) initial
           (wire (body (deposit_outcome 0.125 (JString "B") (JNumber 100))))
           0.125%float (JString "B") (JNumber 100)).
  - vm_compute. reflexivity.
  - left. vm_compute. reflexivity.
Defined.

(** X8.  In every consumer a message that [JSON.parse] maps to null or
    undefined ends the batch: its iteration throws at the destructuring
    with the state untouched, the exception leaves the loop, and the handler
    behaves on the whole batch exactly as on the batch cut after that
    message. *)
Theorem null_document_ends_the_batch :
  forall (env : Env) (st : State) (pre post : list JsVal) (message v : JsVal),
    ToBoolean message = true ->
    JSON_parse env message = inl v ->
    nullish v = true ->
    (forall tag type body s,
        In (tag, type, body) consumers ->
        exists e, body message env s = (Throw e, s)) /\
    DepositFunds.eventHubTrigger (pre ++ message :: post) env st =
    DepositFunds.eventHubTrigger (pre ++ [message]) env st /\
    WithdrawFunds.eventHubTrigger (pre ++ message :: post) env st =
    WithdrawFunds.eventHubTrigger (pre ++ [message]) env st /\
    CompensateDeposit.eventHubTrigger (pre ++ message :: post) env st =
    CompensateDeposit.eventHubTrigger (pre ++ [message]) env st /\
    CompensateWithdraw.eventHubTrigger (pre ++ message :: post) env st =
    CompensateWithdraw.eventHubTrigger (pre ++ [message]) env st.
Proof.
  intros env st pre post message v Hm Hp Hn.
  assert (T : forall tag type body s,
             In (tag, type, body) consumers ->
             exists e, body message env s = (Throw e, s)).
  { intros tag type body s Hin. simpl in Hin.
    destruct Hin as [H|[H|[H|[H|[]]]]]; inversion H; subst; clear H.
    - apply (deposit_iteration_nullish env s message v Hm Hp Hn).
    - apply (withdraw_iteration_nullish env s message v Hm Hp Hn).
    - apply (compensate_deposit_iteration_nullish env s message v Hm Hp Hn).
    - apply (compensate_withdraw_iteration_nullish env s message v Hm Hp Hn). }
  assert (S : forall tag type body s,
             In (tag, type, body) consumers ->
             for_of body (pre ++ message :: post) env s =
             for_of body (pre ++ [message]) env s).
  { intros tag type body s Hin. apply for_of_stops. intros s1.
    destruct (T tag type body s1 Hin) as [e E].
    exists (Throw e), s1. split; [exact E | discriminate]. }
  split; [exact T|].
  split; [|split; [|split]].
  - unfold DepositFunds.eventHubTrigger, bind, try_finally, try_catch.
    destruct (new_EventHubProducerClient env st) as [[[]|e] st0]; [|reflexivity].
    rewrite (S "DepositFunds" "StartTransfer" DepositFunds.loop_body st0
               (or_introl eq_refl)).
    reflexivity.
  - unfold WithdrawFunds.eventHubTrigger, bind, try_finally, try_catch.
    destruct (new_EventHubProducerClient env st) as [[[]|e] st0]; [|reflexivity].
    rewrite (S "WithdrawFunds" "StartTransfer" WithdrawFunds.loop_body st0
               (or_intror (or_introl eq_refl))).
    reflexivity.
  - unfold CompensateDeposit.eventHubTrigger, bind, try_catch.
    rewrite (S "CompensateDeposit" "DepositCompensation" CompensateDeposit.loop_body st
               (or_intror (or_intror (or_introl eq_refl)))).
    reflexivity.
  - unfold CompensateWithdraw.eventHubTrigger, bind, try_catch.
    rewrite (S "CompensateWithdraw" "WithdrawCompensation"
               CompensateWithdraw.loop_body st
               (or_intror (or_intror (or_intror (or_introl eq_refl))))).
    reflexivity.
Qed.

Lemma null_document_ends_the_batch_witness :
  let env := calm 0.5 in
  let pre := [wire (DepositCompensation "B" 100)] in
  let post := [wire (DepositCompensation "C" 7)] in
  let message := JString "null" in
  (forall tag type body s,
      In (tag, type, body) consumers ->
      exists e, body message env s = (Throw e, s)) /\
  DepositFunds.eventHubTrigger (pre ++ message :: post) env initial =
  DepositFunds.eventHubTrigger (pre ++ [message]) env initial /\
  WithdrawFunds.eventHubTrigger (pre ++ message :: post) env initial =
  WithdrawFunds.eventHubTrigger (pre ++ [message]) env initial /\
  CompensateDeposit.eventHubTrigger (pre ++ message :: post) env initial =
  CompensateDeposit.eventHubTrigger (pre ++ [message]) env initial /\
  CompensateWithdraw.eventHubTrigger (pre ++ message :: post) env initial =
  CompensateWithdraw.eventHubTrigger (pre ++ [message]) env initial.
Proof.
  apply (null_document_ends_the_batch (calm 0.5) initial
           [wire (DepositCompensation "B" 100)] [wire (DepositCompensation "C" 7)]
           (JString "null") JNull).
  - reflexivity.
  - vm_compute. reflexivity.
  - reflexivity.
Defined.

(** *** From one handler to the next *)

(** X9.  The compensation event the deposit processor publishes on a failed
    draw is accepted by the deposit compensator: given the message that
    parses to that event, CompensateDeposit writes exactly one reversal line
    that carries the same amount and the same account, and nothing else.
    The event published on a successful draw (DepositCompleted) is ignored
    by it. *)
Theorem deposit_compensation_reaches_its_compensator :
  forall (env : Env) (st : State) (message : JsVal) (r : float)
         (toAccount amount : JsVal) (account_text amount_text : string),
    ToBoolean toAccount = true ->
    ToBoolean amount = true ->
    Json.ToString toAccount = Some account_text ->
    Json.ToString amount = Some amount_text ->
    ToBoolean message = true ->
    JSON_parse env message = inl (body (deposit_outcome r toAccount amount)) ->
    CompensateDeposit.loop_body message env st =
    (Normal Continue,
     if PrimFloat.ltb threshold r then st
     else add_trace st [Log Info ("CompensateDeposit: Reverting deposit of "
                                  ++ amount_text ++ " from " ++ account_text)%string
                            []]).
Proof.
  intros env st message r toAccount amount sb sa Ha Hv Sb Sa Hm Hp.
  unfold deposit_outcome in Hp. cbn [body] in Hp.
  destruct (PrimFloat.ltb threshold r).
  - apply (compensate_deposit_iteration_foreign env st message _ Hm Hp); reflexivity.
  - apply (compensate_deposit_iteration_accepted env st message _ Hm Hp sa sb);
      try reflexivity; assumption.
Qed.

Lemma deposit_compensation_reaches_its_compensator_witness :
  CompensateDeposit.loop_body
    (wire (body (deposit_outcome 0.125 (JString "B") (JNumber 100))))
    (calm 0.5) initial =
  (Normal Continue,
   if PrimFloat.ltb threshold 0.125 then initial
   else add_trace initial
          [Log Info ("CompensateDeposit: Reverting deposit of "
                     ++ "100" ++ " from " ++ "B")%string []]).
Proof.
  apply (deposit_compensation_reaches_its_compensator (calm 0.5) initial
           (wire (body (deposit_outcome 0.125 (JString "B") (JNumber 100))))
           0.125%float (JString "B") (JNumber 100) "B" "100").
  - reflexivity.
  - reflexivity.
  - reflexivity.
  - vm_compute. reflexivity.
  - vm_compute. reflexivity.
  - vm_compute. reflexivity.
Defined.

(** X10.  The StartTransfer event the initiator sends for a complete
    request passes the type test and the field test of both step
    processors; what they do with it depends on whether its fields convert
    to strings, which the initiator does not check.  Given the message that
    parses to that event: when the request's [amount] and [toAccount]
    convert to strings, the deposit processor makes one sendBatch call with
    the outcome event carrying them; when one of them does not (an object
    with an own property named toString), the first template literal of the
    deposit processor throws and the iteration ends by that exception with
    the state unchanged, so with no draw and no sendBatch call.  The same
    for the withdraw processor with [amount] and [fromAccount]. *)
Theorem start_event_in_both_step_processors :
  forall (env : Env) (st : State) (req_body message : JsVal),
    ToBoolean (Get req_body "fromAccount") = true ->
    ToBoolean (Get req_body "toAccount") = true ->
    ToBoolean (Get req_body "amount") = true ->
    ToBoolean message = true ->
    JSON_parse env message = inl (body (start_event req_body)) ->
    send_attempts (trace (snd (ClientFunction.httpTrigger req_body env st))) =
    send_attempts (trace st) ++ [[start_event req_body]] /\
    (if renders (Get req_body "amount") && renders (Get req_body "toAccount")
     then exists st',
         DepositFunds.loop_body message env st = (Normal Continue, st') /\
         send_attempts (trace st') =
         send_attempts (trace st) ++
         [[deposit_outcome (Math_random env (random_calls st))
                           (Get req_body "toAccount") (Get req_body "amount")]]
     else exists e, DepositFunds.loop_body message env st = (Throw e, st)) /\
    (if renders (Get req_body "amount") && renders (Get req_body "fromAccount")
     then exists st',
         WithdrawFunds.loop_body message env st = (Normal Continue, st') /\
         send_attempts (trace st') =
         send_attempts (trace st) ++
         [[withdraw_outcome (Math_random env (random_calls st))
                            (Get req_body "fromAccount") (Get req_body "amount")]]
     else exists e, WithdrawFunds.loop_body message env st = (Throw e, st)).
Proof.
  intros env st b message Hf Ht Ha Hm Hp.
  split; [|split].
  - rewrite (httpTrigger_complete env st b Hf Ht Ha). cbn [snd].
    destruct (sendBatch_error env (send_calls st)); cbn [trace];
      rewrite !send_attempts_app; cbn [send_attempts]; rewrite ?app_nil_r; reflexivity.
  - destruct (renders (Get b "amount")) eqn:Ra;
      [destruct (renders (Get b "toAccount")) eqn:Rt|]; cbn [andb].
    + unfold renders in Ra, Rt.
      destruct (Json.ToString (Get b "amount")) as [sa|] eqn:Sa; [|discriminate Ra].
      destruct (Json.ToString (Get b "toAccount")) as [sto|] eqn:Sto; [|discriminate Rt].
      eexists. split.
      * apply (deposit_iteration_valid env st message _ Hm Hp sa sto);
          try reflexivity; assumption.
      * cbn [trace]. rewrite send_attempts_app. cbn [send_attempts].
        destruct (sendBatch_error env (send_calls st));
          [|destruct (PrimFloat.ltb threshold (Math_random env (random_calls st)))];
          reflexivity.
    + eexists.
      apply (deposit_iteration_unrenderable env st message _ Hm Hp);
        try reflexivity; try assumption. right; exact Rt.
    + eexists.
      apply (deposit_iteration_unrenderable env st message _ Hm Hp);
        try reflexivity; try assumption. left; exact Ra.
  - destruct (renders (Get b "amount")) eqn:Ra;
      [destruct (renders (Get b "fromAccount")) eqn:Rf|]; cbn [andb].
    + unfold renders in Ra, Rf.
      destruct (Json.ToString (Get b "amount")) as [sa|] eqn:Sa; [|discriminate Ra].
      destruct (Json.ToString (Get b "fromAccount")) as [sf|] eqn:Sf; [|discriminate Rf].
      eexists. split.
      * apply (withdraw_iteration_valid env st message _ Hm Hp sa sf);
          try reflexivity; assumption.
      * cbn [trace]. rewrite send_attempts_app. cbn [send_attempts].
        destruct (sendBatch_error env (send_calls st));
          [|destruct (PrimFloat.ltb threshold (Math_random env (random_calls st)))];
          reflexivity.
    + eexists.
      apply (withdraw_iteration_unrenderable env st message _ Hm Hp);
        try reflexivity; try assumption. right; exact Rf.
    + eexists.
      apply (withdraw_iteration_unrenderable env st message _ Hm Hp);
        try reflexivity; try assumption. left; exact Ra.
Qed.

Lemma start_event_in_both_step_processors_witness :
  let env := calm 0.5 in
  let req_body := JObject [("fromAccount", JString "A"); ("toAccount", JString "B");
                           ("amount", JObject [("toString", JNumber 1)])] in
  let message := wire (body (start_event req_body)) in
  send_attempts (trace (snd (ClientFunction.httpTrigger req_body env initial))) =
  send_attempts (trace initial) ++ [[start_event req_body]] /\
  (exists e, DepositFunds.loop_body message env initial = (Throw e, initial)) /\
  (exists e, WithdrawFunds.loop_body message env initial = (Throw e, initial)).
Proof.
  apply (start_event_in_both_step_processors (calm 0.5) initial
           (JObject [("fromAccount", JString "A"); ("toAccount", JString "B");
                     ("amount", JObject [("toString", JNumber 1)])])
           (wire (body (start_event
                          (JObject [("fromAccount", JString "A");
                                    ("toAccount", JString "B");
                                    ("amount", JObject [("toString", JNumber 1)])]))))).
  - reflexivity.
  - reflexivity.
  - reflexivity.
  - reflexivity.
  - vm_compute. reflexivity.
Defined.

(** The same request with the amount 100: both processors answer with one
    sendBatch call. *)
Lemma start_event_with_printable_fields :
  let env := calm 0.5 in
  let req_body := JObject [("fromAccount", JString "A"); ("toAccount", JString "B");
                           ("amount", JNumber 100)] in
  let message := wire (body (start_event req_body)) in
  send_attempts (trace (snd (DepositFunds.loop_body message env initial))) =
  [[deposit_outcome 0.5 (JString "B") (JNumber 100)]] /\
  send_attempts (trace (snd (WithdrawFunds.loop_body message env initial))) =
  [[withdraw_outcome 0.5 (JString "A") (JNumber 100)]].
Proof. vm_compute. split; reflexivity. Qed.

(** *** Batches of well-formed events, in order *)

Lemma renders_text v : renders v = true -> Json.ToString v = Some (text_of v).
Proof. unfold renders, text_of. destruct (Json.ToString v); [reflexivity|discriminate]. Qed.

Lemma outcomes_from_length outcome account env k vs :
  length (outcomes_from outcome account env k vs) = length vs.
Proof. revert k; induction vs as [|v vs IH]; intros k; simpl; [|rewrite IH]; reflexivity. Qed.

Lemma deposit_loop_on_well_formed env msgs vs :
  Forall2 (well_formed "StartTransfer" "toAccount" env) msgs vs ->
  forall st, exists st1,
    for_of DepositFunds.loop_body msgs env st = (Normal Continue, st1) /\
    send_attempts (trace st1) =
    send_attempts (trace st) ++
    outcomes_from deposit_outcome "toAccount" env (random_calls st) vs /\
    random_calls st1 = random_calls st + length vs /\
    send_calls st1 = send_calls st + length vs.
Proof.
  induction 1 as [|m v msgs vs W _ IH]; intros st.
  - exists st. cbn. rewrite app_nil_r, !Nat.add_0_r. repeat split; reflexivity.
  - destruct W as [Hm [Hp [Ht [Ha [Hv [Ra Rv]]]]]].
    pose proof (deposit_iteration_valid env st m v Hm Hp _ _ Ht Ha Hv
                  (renders_text _ Rv) (renders_text _ Ra)) as E.
    cbv zeta in E.
    destruct (IH (snd (DepositFunds.loop_body m env st))) as [st1 [E1 [A1 [R1 S1]]]].
    exists st1. cbn [for_of]. unfold bind.
    rewrite E in *. cbn [snd] in *. split; [exact E1|].
    cbn [trace random_calls send_calls] in *.
    rewrite A1, R1, S1, send_attempts_app. cbn [outcomes_from length].
    split; [|split; lia].
    rewrite <- app_assoc. f_equal.
    destruct (sendBatch_error env (send_calls st));
      [|destruct (PrimFloat.ltb threshold (Math_random env (random_calls st)))];
      reflexivity.
Qed.

(** X11.  On a batch in which every message parses to a StartTransfer with
    a truthy, printable [toAccount] and [amount], the deposit processor (its
    producer created) processes every message: it makes exactly one
    sendBatch call per message, in batch order, the k-th call carrying the
    outcome event of the k-th draw with the k-th message's own [toAccount]
    and [amount]; a message delivered twice gets two calls.  A sendBatch
    call that rejects does not stop the later ones. *)
Theorem deposit_well_formed_batch_in_order :
  forall (env : Env) (st : State) (msgs vs : list JsVal),
    new_error env = None ->
    Forall2 (well_formed "StartTransfer" "toAccount" env) msgs vs ->
    let st' := snd (DepositFunds.eventHubTrigger msgs env st) in
    send_attempts (trace st') =
    send_attempts (trace st) ++
    outcomes_from deposit_outcome "toAccount" env (random_calls st) vs /\
    send_calls st' = send_calls st + length msgs /\
    random_calls st' = random_calls st + length msgs.
Proof.
  intros env st msgs vs Hn W st'. subst st'.
  rewrite (deposit_handler_run msgs env st Hn).
  destruct (deposit_loop_on_well_formed env msgs vs W st) as [st1 [E [A [R S]]]].
  rewrite E. cbn [snd add_trace trace send_calls random_calls].
  rewrite send_attempts_app, A. cbn [send_attempts]. rewrite app_nil_r.
  rewrite (Forall2_length W). repeat split; assumption.
Qed.

Lemma deposit_well_formed_batch_in_order_witness :
  let env := platform (fun k => if Nat.eqb k 0 then 0.5%float else 0.125%float)
                      (fun k => if Nat.eqb k 0 then Some (JString "down") else None) in
  let vs := [StartTransfer "A" "B" 100; StartTransfer "A" "B" 100;
             StartTransfer "C" "D" 7] in
  let msgs := map wire vs in
  let st' := snd (DepositFunds.eventHubTrigger msgs env initial) in
  send_attempts (trace st') =
  send_attempts (trace initial) ++
  outcomes_from deposit_outcome "toAccount" env (random_calls initial) vs /\
  send_calls st' = send_calls initial + length msgs /\
  random_calls st' = random_calls initial + length msgs.
Proof.
  apply (deposit_well_formed_batch_in_order
           (platform (fun k => if Nat.eqb k 0 then 0.5%float else 0.125%float)
                     (fun k => if Nat.eqb k 0 then Some (JString "down") else None))
           initial
           (map wire [StartTransfer "A" "B" 100; StartTransfer "A" "B" 100;
                      StartTransfer "C" "D" 7])
           [StartTransfer "A" "B" 100; StartTransfer "A" "B" 100;
            StartTransfer "C" "D" 7]).
  - reflexivity.
  - repeat constructor; vm_compute; reflexivity.
Defined.

Lemma withdraw_loop_on_well_formed env msgs vs :
  Forall2 (well_formed "StartTransfer" "fromAccount" env) msgs vs ->
  forall st, exists st1,
    for_of WithdrawFunds.loop_body msgs env st = (Normal Continue, st1) /\
    send_attempts (trace st1) =
    send_attempts (trace st) ++
    outcomes_from withdraw_outcome "fromAccount" env (random_calls st) vs /\
    random_calls st1 = random_calls st + length vs /\
    send_calls st1 = send_calls st + length vs.
Proof.
  induction 1 as [|m v msgs vs W _ IH]; intros st.
  - exists st. cbn. rewrite app_nil_r, !Nat.add_0_r. repeat split; reflexivity.
  - destruct W as [Hm [Hp [Ht [Ha [Hv [Ra Rv]]]]]].
    pose proof (withdraw_iteration_valid env st m v Hm Hp _ _ Ht Ha Hv
                  (renders_text _ Rv) (renders_text _ Ra)) as E.
    cbv zeta in E.
    destruct (IH (snd (WithdrawFunds.loop_body m env st))) as [st1 [E1 [A1 [R1 S1]]]].
    exists st1. cbn [for_of]. unfold bind.
    rewrite E in *. cbn [snd] in *. split; [exact E1|].
    cbn [trace random_calls send_calls] in *.
    rewrite A1, R1, S1, send_attempts_app. cbn [outcomes_from length].
    split; [|split; lia].
    rewrite <- app_assoc. f_equal.
    destruct (sendBatch_error env (send_calls st));
      [|destruct (PrimFloat.ltb threshold (Math_random env (random_calls st)))];
      reflexivity.
Qed.

(** X12.  On a batch in which every message parses to a StartTransfer with
    a truthy, printable [fromAccount] and [amount], the withdraw processor (its
    producer created) processes every message: it makes exactly one
    sendBatch call per message, in batch order, the k-th call carrying the
    outcome event of the k-th draw with the k-th message's own [fromAccount]
    and [amount]; a message delivered twice gets two calls.  A sendBatch
    call that rejects does not stop the later ones. *)
Theorem withdraw_well_formed_batch_in_order :
  forall (env : Env) (st : State) (msgs vs : list JsVal),
    new_error env = None ->
    Forall2 (well_formed "StartTransfer" "fromAccount" env) msgs vs ->
    let st' := snd (WithdrawFunds.eventHubTrigger msgs env st) in
    send_attempts (trace st') =
    send_attempts (trace st) ++
    outcomes_from withdraw_outcome "fromAccount" env (random_calls st) vs /\
    send_calls st' = send_calls st + length msgs /\
    random_calls st' = random_calls st + length msgs.
Proof.
  intros env st msgs vs Hn W st'. subst st'.
  rewrite (withdraw_handler_run msgs env st Hn).
  destruct (withdraw_loop_on_well_formed env msgs vs W st) as [st1 [E [A [R S]]]].
  rewrite E. cbn [snd add_trace trace send_calls random_calls].
  rewrite send_attempts_app, A. cbn [send_attempts]. rewrite app_nil_r.
  rewrite (Forall2_length W). repeat split; assumption.
Qed.

Lemma withdraw_well_formed_batch_in_order_witness :
  let env := platform (fun k => if Nat.eqb k 0 then 0.5%float else 0.125%float)
                      (fun k => if Nat.eqb k 0 then Some (JString "down") else None) in
  let vs := [StartTransfer "A" "B" 100; StartTransfer "A" "B" 100;
             StartTransfer "C" "D" 7] in
  let msgs := map wire vs in
  let st' := snd (WithdrawFunds.eventHubTrigger msgs env initial) in
  send_attempts (trace st') =
  send_attempts (trace initial) ++
  outcomes_from withdraw_outcome "fromAccount" env (random_calls initial) vs /\
  send_calls st' = send_calls initial + length msgs /\
  random_calls st' = random_calls initial + length msgs.
Proof.
  apply (withdraw_well_formed_batch_in_order
           (platform (fun k => if Nat.eqb k 0 then 0.5%float else 0.125%float)
                     (fun k => if Nat.eqb k 0 then Some (JString "down") else None))
           initial
           (map wire [StartTransfer "A" "B" 100; StartTransfer "A" "B" 100;
                      StartTransfer "C" "D" 7])
           [StartTransfer "A" "B" 100; StartTransfer "A" "B" 100;
            StartTransfer "C" "D" 7]).
  - reflexivity.
  - repeat constructor; vm_compute; reflexivity.
Defined.

Lemma compensate_deposit_loop_on_well_formed env msgs vs :
  Forall2 (well_formed "DepositCompensation" "toAccount" env) msgs vs ->
  forall st,
    for_of CompensateDeposit.loop_body msgs env st =
    (Normal Continue, add_trace st (map (reversal_line "CompensateDeposit") vs)).
Proof.
  induction 1 as [|m v msgs vs W _ IH]; intros st.
  - cbn. rewrite add_trace_nil. reflexivity.
  - destruct W as [Hm [Hp [Ht [Ha [Hv [Ra Rv]]]]]].
    cbn [for_of]. unfold bind.
    rewrite (compensate_deposit_iteration_accepted env st m v Hm Hp _ _ Ht Ha Hv
               (renders_text _ Rv) (renders_text _ Ra)).
    rewrite IH, add_trace_app. reflexivity.
Qed.

(** X13.  On a batch in which every message parses to a DepositCompensation
    event with a truthy, printable [toAccount] and [amount], CompensateDeposit
    writes exactly one reversal line per message, in batch order, each with
    the amount and the account of its message, and nothing else; a message
    delivered twice is reverted twice (nothing is remembered from one
    message to the next). *)
Theorem compensate_deposit_one_line_per_event :
  forall (env : Env) (st : State) (msgs vs : list JsVal),
    Forall2 (well_formed "DepositCompensation" "toAccount" env) msgs vs ->
    CompensateDeposit.eventHubTrigger msgs env st =
    (Normal tt, add_trace st (map (reversal_line "CompensateDeposit") vs)).
Proof.
  intros env st msgs vs W.
  unfold CompensateDeposit.eventHubTrigger, try_catch, bind.
  rewrite (compensate_deposit_loop_on_well_formed env msgs vs W st). reflexivity.
Qed.

Lemma compensate_withdraw_loop_on_well_formed env msgs vs :
  Forall2 (well_formed "WithdrawCompensation" "toAccount" env) msgs vs ->
  forall st,
    for_of CompensateWithdraw.loop_body msgs env st =
    (Normal Continue, add_trace st (map (reversal_line "CompensateWithdraw") vs)).
Proof.
  induction 1 as [|m v msgs vs W _ IH]; intros st.
  - cbn. rewrite add_trace_nil. reflexivity.
  - destruct W as [Hm [Hp [Ht [Ha [Hv [Ra Rv]]]]]].
    cbn [for_of]. unfold bind.
    rewrite (compensate_withdraw_iteration_accepted env st m v Hm Hp _ _ Ht Ha Hv
               (renders_text _ Rv) (renders_text _ Ra)).
    rewrite IH, add_trace_app. reflexivity.
Qed.

(** X14.  On a batch in which every message parses to a WithdrawCompensation
    event with a truthy, printable [toAccount] and [amount], CompensateWithdraw
    writes exactly one reversal line per message, in batch order, each with
    the amount and the account of its message, and nothing else; a message
    delivered twice is reverted twice (nothing is remembered from one
    message to the next).  The account it
    reads, tests and prints is [toAccount]; [fromAccount] plays no part. *)
Theorem compensate_withdraw_one_line_per_event :
  forall (env : Env) (st : State) (msgs vs : list JsVal),
    Forall2 (well_formed "WithdrawCompensation" "toAccount" env) msgs vs ->
    CompensateWithdraw.eventHubTrigger msgs env st =
    (Normal tt, add_trace st (map (reversal_line "CompensateWithdraw") vs)).
Proof.
  intros env st msgs vs W.
  unfold CompensateWithdraw.eventHubTrigger, try_catch, bind.
  rewrite (compensate_withdraw_loop_on_well_formed env msgs vs W st). reflexivity.
Qed.

Lemma compensate_deposit_one_line_per_event_witness :
  let vs := [DepositCompensation "B" 100; DepositCompensation "B" 100;
             DepositCompensation "D" 7] in
  CompensateDeposit.eventHubTrigger (map wire vs) (calm 0.5) initial =
  (Normal tt, add_trace initial (map (reversal_line "CompensateDeposit") vs)).
Proof.
  apply (compensate_deposit_one_line_per_event (calm 0.5) initial
           (map wire [DepositCompensation "B" 100; DepositCompensation "B" 100;
                      DepositCompensation "D" 7])
           [DepositCompensation "B" 100; DepositCompensation "B" 100;
            DepositCompensation "D" 7]).
  repeat constructor; vm_compute; reflexivity.
Defined.

Lemma compensate_withdraw_one_line_per_event_witness :
  let vs := [JObject [("type", JString "WithdrawCompensation");
                      ("toAccount", JString "B"); ("amount", JNumber 100)]] in
  CompensateWithdraw.eventHubTrigger (map wire vs) (calm 0.5) initial =
  (Normal tt, add_trace initial (map (reversal_line "CompensateWithdraw") vs)).
Proof.
  apply (compensate_withdraw_one_line_per_event (calm 0.5) initial
           (map wire [JObject [("type", JString "WithdrawCompensation");
                               ("toAccount", JString "B"); ("amount", JNumber 100)]])
           [JObject [("type", JString "WithdrawCompensation");
                     ("toAccount", JString "B"); ("amount", JNumber 100)]]).
  repeat constructor; vm_compute; reflexivity.
Defined.

(** X15.  One step, in full.  For a message that parses to a StartTransfer
    with a truthy, printable account and [amount], the deposit processor
    (and, with [fromAccount], the withdraw processor) writes its opening
    line, draws once and calls sendBatch once with the outcome event of the
    draw.  When the call resolves, the event is published and the closing
    line reports success or the compensation; when it rejects, nothing is
    published, the error is logged with the account, there is no second
    call, and the iteration still ends by [continue]. *)
Theorem step_outcome_is_published_or_logged :
  forall (env : Env) (st : State) (message v : JsVal),
    let r := Math_random env (random_calls st) in
    let err := sendBatch_error env (send_calls st) in
    (well_formed "StartTransfer" "toAccount" env message v ->
     exists st',
       DepositFunds.loop_body message env st = (Normal Continue, st') /\
       send_calls st' = S (send_calls st) /\
       published (trace st') =
       published (trace st) ++
       match err with
       | None => [deposit_outcome r (Get v "toAccount") (Get v "amount")]
       | Some _ => []
       end /\
       (forall e, err = Some e ->
          exists t,
            trace st' =
            t ++ [Log Error ("DepositFunds: Error sending event for account "
                             ++ text_of (Get v "toAccount") ++ ":")%string [e]])) /\
    (well_formed "StartTransfer" "fromAccount" env message v ->
     exists st',
       WithdrawFunds.loop_body message env st = (Normal Continue, st') /\
       send_calls st' = S (send_calls st) /\
       published (trace st') =
       published (trace st) ++
       match err with
       | None => [withdraw_outcome r (Get v "fromAccount") (Get v "amount")]
       | Some _ => []
       end /\
       (forall e, err = Some e ->
          exists t,
            trace st' =
            t ++ [Log Error ("WithdrawFunds: Error sending event for account "
                             ++ text_of (Get v "fromAccount") ++ ":")%string [e]])).
Proof.
  intros env st message v r err. subst r err. split.
  - intros [Hm [Hp [Ht [Ha [Hv [Ra Rv]]]]]].
    eexists. split.
    { apply (deposit_iteration_valid env st message v Hm Hp _ _ Ht Ha Hv
               (renders_text _ Rv) (renders_text _ Ra)). }
    cbn [trace send_calls]. split; [reflexivity|].
    rewrite published_app. cbn [published].
    destruct (sendBatch_error env (send_calls st)) as [e0|].
    + split; [reflexivity|]. intros e E. inversion E; subst.
      eexists (trace st ++ [_; _]). rewrite <- app_assoc. reflexivity.
    + split; [|intros e E; discriminate E].
      destruct (PrimFloat.ltb threshold (Math_random env (random_calls st)));
        reflexivity.
  - intros [Hm [Hp [Ht [Ha [Hv [Ra Rv]]]]]].
    eexists. split.
    { apply (withdraw_iteration_valid env st message v Hm Hp _ _ Ht Ha Hv
               (renders_text _ Rv) (renders_text _ Ra)). }
    cbn [trace send_calls]. split; [reflexivity|].
    rewrite published_app. cbn [published].
    destruct (sendBatch_error env (send_calls st)) as [e0|].
    + split; [reflexivity|]. intros e E. inversion E; subst.
      eexists (trace st ++ [_; _]). rewrite <- app_assoc. reflexivity.
    + split; [|intros e E; discriminate E].
      destruct (PrimFloat.ltb threshold (Math_random env (random_calls st)));
        reflexivity.
Qed.

Lemma step_outcome_is_published_or_logged_witness :
  let env := platform (fun _ => 0.5%float) (fun _ => Some (JString "down")) in
  let v := StartTransfer "A" "B" 100 in
  exists st',
    DepositFunds.loop_body (wire v) env initial = (Normal Continue, st') /\
    send_calls st' = S (send_calls initial) /\
    published (trace st') =
    published (trace initial) ++
    match sendBatch_error env (send_calls initial) with
    | None => [deposit_outcome (Math_random env (random_calls initial))
                               (Get v "toAccount") (Get v "amount")]
    | Some _ => []
    end /\
    (forall e, sendBatch_error env (send_calls initial) = Some e ->
       exists t,
         trace st' =
         t ++ [Log Error ("DepositFunds: Error sending event for account "
                          ++ text_of (Get v "toAccount") ++ ":")%string [e]]).
Proof.
  apply (proj1 (step_outcome_is_published_or_logged
                  (platform (fun _ => 0.5%float) (fun _ => Some (JString "down")))
                  initial (wire (StartTransfer "A" "B" 100))
                  (StartTransfer "A" "B" 100))).
  repeat split; vm_compute; reflexivity.
Defined.
